(** * process_pdfs.py: structure inference over PDF text blocks

    A shallow embedding of [src/process_pdfs.py] and the properties its
    specification states about it.

    Python strings are sequences of Unicode code points; they are modelled
    as [list Z].  The handful of standard-library operations the program
    calls on them ([strip], [split], [replace], [in], [lower], [int],
    [Path(..).stem], the [regex] patterns) are written out below.  The part
    of the Unicode character database that concerns code points above
    U+007F is an interface, [UnicodeData]; on ASCII everything is fixed. *)

From Stdlib Require Import ZArith QArith Qround List Lia Bool Ascii String.
From stdpp Require Import base decidable option list gmap sorting pretty.

Local Open Scope Z_scope.

(** ** Text *)

Abbreviation str := (list Z).

(** An ASCII literal as a Python string. *)
Definition lit (s : string) : str :=
  map (fun a => Z.of_N (N_of_ascii a)) (list_ascii_of_string s).

Definition in_range (lo hi c : Z) : bool := (lo <=? c) && (c <=? hi).

Definition NL : Z := 10.
Definition SPACE : Z := 32.
Definition DOT : Z := 46.

Definition str_eqb (a b : str) : bool := bool_decide (a = b).

(** [str.isspace], the set [str.strip()] removes. *)
Definition py_isspace (c : Z) : bool :=
  in_range 9 13 c || in_range 28 32 c || (c =? 133) || (c =? 160)
  || (c =? 5760) || in_range 8192 8202 c || (c =? 8232) || (c =? 8233)
  || (c =? 8239) || (c =? 8287) || (c =? 12288).

(** [\s] of the [regex] module: the Unicode White_Space property. *)
Definition re_space (c : Z) : bool :=
  py_isspace c && negb (in_range 28 31 c).

Fixpoint lstrip (s : str) : str :=
  match s with
  | c :: s' => if py_isspace c then lstrip s' else s
  | [] => []
  end.

Definition rstrip (s : str) : str := reverse (lstrip (reverse s)).

(** [s.strip()] *)
Definition strip (s : str) : str := rstrip (lstrip s).

(** [s.split(sep)] for a one-character separator. *)
Fixpoint split (sep : Z) (s : str) : list str :=
  match s with
  | [] => [[]]
  | c :: s' =>
      if c =? sep then [] :: split sep s'
      else match split sep s' with
           | l :: ls => (c :: l) :: ls
           | [] => [[c]]
           end
  end.

(** [sep.join(parts)] *)
Fixpoint join (sep : str) (parts : list str) : str :=
  match parts with
  | [] => []
  | [p] => p
  | p :: ps => p ++ sep ++ join sep ps
  end.

Fixpoint starts_with (p s : str) : bool :=
  match p, s with
  | [], _ => true
  | a :: p', b :: s' => (a =? b) && starts_with p' s'
  | _ :: _, [] => false
  end.

(** [sub in s] *)
Fixpoint contains (sub s : str) : bool :=
  starts_with sub s ||
  match s with
  | [] => false
  | _ :: s' => contains sub s'
  end.

(** [s.replace(old, new)]: occurrences are replaced left to right and do
    not overlap; [skip] counts the characters of an occurrence still to be
    passed over. *)
Fixpoint replace_from (old new : str) (skip : nat) (s : str) : str :=
  match s with
  | [] => []
  | c :: s' =>
      match skip with
      | S k => replace_from old new k s'
      | O =>
          if starts_with old s
          then new ++ replace_from old new (length old - 1) s'
          else c :: replace_from old new 0 s'
      end
  end.

Definition replace (old new s : str) : str :=
  match old with
  | [] => new ++ flat_map (fun c => c :: new) s
  | _ :: _ => replace_from old new 0 s
  end.

(** [s.rfind(".")] as the number of characters before the last dot. *)
Fixpoint rfind_dot (s : str) : option nat :=
  match s with
  | [] => None
  | c :: s' =>
      match rfind_dot s' with
      | Some i => Some (S i)
      | None => if c =? DOT then Some O else None
      end
  end.

(** [str(n)] and [f"{n}"] for an integer. *)
Definition str_of_int (n : Z) : str := lit (pretty n).

(** ** Characters beyond ASCII

    What the Unicode tables say about code points above U+007F: membership
    in the general category N, the value of a decimal digit (category Nd),
    membership in the word class used by [\b], whether a text character
    equals an ASCII pattern character under IGNORECASE, and the lower-case
    mapping. *)

Class UnicodeData := {
  ext_N : Z -> bool;
  ext_decimal : Z -> option Z;
  ext_word : Z -> bool;
  ext_caseless : Z -> Z -> bool;
  ext_lower : Z -> str
}.

Definition is_ascii (c : Z) : bool := in_range 0 127 c.
Definition ascii_digit (c : Z) : bool := in_range 48 57 c.
Definition ascii_upper (c : Z) : bool := in_range 65 90 c.
Definition ascii_lower (c : Z) : bool := in_range 97 122 c.
Definition ascii_fold (c : Z) : Z := if ascii_upper c then c + 32 else c.

Section Unicode.
Context {U : UnicodeData}.

(** Value of a decimal digit, [None] for any other character. *)
Definition decimal (c : Z) : option Z :=
  if is_ascii c then (if ascii_digit c then Some (c - 48) else None)
  else ext_decimal c.

(** [\d] *)
Definition uni_digit (c : Z) : bool :=
  match decimal c with Some _ => true | None => false end.

(** [\p{N}] *)
Definition uni_N (c : Z) : bool :=
  if is_ascii c then ascii_digit c else ext_N c || uni_digit c.

(** [\w] *)
Definition uni_word (c : Z) : bool :=
  if is_ascii c
  then ascii_digit c || ascii_upper c || ascii_lower c || (c =? 95)
  else ext_word c.

(** Equality of a text character [c] with a pattern character [l] under
    IGNORECASE. *)
Definition caseless (l c : Z) : bool :=
  if is_ascii c then ascii_fold c =? ascii_fold l else ext_caseless c l.

(** [s.lower()] *)
Definition lower (s : str) : str :=
  flat_map (fun c => if is_ascii c then [ascii_fold c] else ext_lower c) s.

(** [re.sub(r'\D', '', s)]: every non-digit character is deleted. *)
Definition strip_non_digits (s : str) : str := filter (fun c => uni_digit c = true) s.
End Unicode.

(** The tables restricted to Latin-1, where they are small enough to write
    down: superscripts and vulgar fractions are numbers but not digits. *)
Definition latin1_letter (c : Z) : bool :=
  (c =? 170) || (c =? 181) || (c =? 186)
  || (in_range 192 255 c && negb (c =? 215) && negb (c =? 247)).

Definition latin1 : UnicodeData := {|
  ext_N c := (c =? 178) || (c =? 179) || (c =? 185) || in_range 188 190 c;
  ext_decimal _ := None;
  ext_word c := latin1_letter c;
  ext_caseless _ _ := false;
  ext_lower c :=
    if in_range 192 222 c && negb (c =? 215) then [c + 32] else [c]
|}.

(** ** Regular expressions

    The fragment of the pattern language the program uses.  Repetition is
    only ever applied to a character class, so the backtracking matcher is
    structurally recursive.  A cursor holds the text already passed (in
    reverse), the text ahead, the groups entered and not yet left, and the
    groups captured so far. *)

Inductive regex :=
| Empty
| Chr (p : Z -> bool)            (* one character of a class *)
| Rep (p : Z -> bool)            (* greedy [p*] *)
| Cat (r1 r2 : regex)
| Or (r1 r2 : regex)
| Grp (n : nat) (r : regex)      (* capturing group *)
| Bos                            (* [^] without MULTILINE *)
| Bol                            (* [^] with MULTILINE *)
| Eol                            (* [$] with MULTILINE *)
| WordB                          (* [\b] *)
| NotAhead (r : regex).          (* [(?!r)] *)

Definition cat_all (rs : list regex) : regex := foldr Cat Empty rs.
Definition Plus (p : Z -> bool) : regex := Cat (Chr p) (Rep p).

Record cursor := Cursor {
  seen : str;
  ahead : str;
  opened : list str;          (* text passed inside each group still open, reversed *)
  caps : list (nat * str)
}.

Fixpoint rep_greedy {R} (p : Z -> bool) (k : cursor -> option R)
    (sn : str) (op : list str) (cp : list (nat * str)) (ah : str) : option R :=
  match ah with
  | c :: ah' =>
      if p c then
        match rep_greedy p k (c :: sn) (map (cons c) op) cp ah' with
        | Some r => Some r
        | None => k (Cursor sn ah op cp)
        end
      else k (Cursor sn ah op cp)
  | [] => k (Cursor sn ah op cp)
  end.

Section Matcher.
Context {U : UnicodeData}.

Definition at_word_boundary (c : cursor) : bool :=
  let before := match seen c with x :: _ => uni_word x | [] => false end in
  let after := match ahead c with x :: _ => uni_word x | [] => false end in
  xorb before after.

Fixpoint run (r : regex) (c : cursor) (k : cursor -> option cursor)
    : option cursor :=
  match r with
  | Empty => k c
  | Chr p =>
      match ahead c with
      | x :: ah =>
          if p x
          then k (Cursor (x :: seen c) ah (map (cons x) (opened c)) (caps c))
          else None
      | [] => None
      end
  | Rep p => rep_greedy p k (seen c) (opened c) (caps c) (ahead c)
  | Cat r1 r2 => run r1 c (fun c1 => run r2 c1 k)
  | Or r1 r2 =>
      match run r1 c k with
      | Some c' => Some c'
      | None => run r2 c k
      end
  | Grp n r1 =>
      run r1 (Cursor (seen c) (ahead c) ([] :: opened c) (caps c))
        (fun c1 =>
           match opened c1 with
           | g :: op => k (Cursor (seen c1) (ahead c1) op ((n, reverse g) :: caps c1))
           | [] => None
           end)
  | Bos => match seen c with [] => k c | _ :: _ => None end
  | Bol =>
      match seen c with
      | [] => k c
      | x :: _ => if x =? NL then k c else None
      end
  | Eol =>
      match ahead c with
      | [] => k c
      | x :: _ => if x =? NL then k c else None
      end
  | WordB => if at_word_boundary c then k c else None
  | NotAhead r1 =>
      match run r1 c Some with
      | Some _ => None
      | None => k c
      end
  end.

(** One attempt at the cursor's position. *)
Definition match_here (r : regex) (sn ah : str) : option cursor :=
  run r (Cursor sn ah [] []) Some.

(** [group(n)] of a match: the last capture recorded for [n]. *)
Definition group (n : nat) (m : cursor) : str :=
  match list_find (fun e => fst e = n) (caps m) with
  | Some (_, (_, s)) => s
  | None => []
  end.

(** [pattern.match(s)]: an attempt at the start of [s] only. *)
Definition re_match (r : regex) (s : str) : option cursor := match_here r [] s.

(** [re.search]: the leftmost position at which an attempt succeeds. *)
Fixpoint search_from (r : regex) (sn ah : str) : option cursor :=
  match match_here r sn ah with
  | Some m => Some m
  | None =>
      match ah with
      | c :: ah' => search_from r (c :: sn) ah'
      | [] => None
      end
  end.

Definition re_search (r : regex) (s : str) : bool :=
  match search_from r [] s with Some _ => true | None => false end.

(** [pattern.finditer]: attempts run left to right; after a match the
    scan resumes where the match ended ([skip] counts the characters of
    the match still to be passed over), and after a failure one character
    further. *)
Fixpoint finditer_from (r : regex) (skip : nat) (sn ah : str) : list cursor :=
  match skip with
  | S k =>
      match ah with
      | c :: ah' => finditer_from r k (c :: sn) ah'
      | [] => []
      end
  | O =>
      match match_here r sn ah with
      | Some m =>
          m :: match ah with
               | c :: ah' =>
                   finditer_from r (length ah - length (ahead m) - 1) (c :: sn) ah'
               | [] => []
               end
      | None =>
          match ah with
          | c :: ah' => finditer_from r 0 (c :: sn) ah'
          | [] => []
          end
      end
  end.

Definition finditer (r : regex) (s : str) : list cursor := finditer_from r 0 [] s.
End Matcher.

(** ** Exceptions *)

Inductive exn := IndexError | ValueError | OtherError.

Inductive result (A : Type) :=
| Ok (a : A)
| Raise (e : exn).
Arguments Ok {A} a.
Arguments Raise {A} e.

#[export] Instance result_ret : MRet result := fun A a => Ok a.

#[export] Instance result_bind : MBind result := fun A B f m =>
  match m with
  | Ok a => f a
  | Raise e => Raise e
  end.

(** A loop whose body may raise: the first exception ends it. *)
Fixpoint for_each {A S} (body : S -> A -> result S) (xs : list A) (s : S)
    : result S :=
  match xs with
  | [] => Ok s
  | x :: xs' => s' ← body s x; for_each body xs' s'
  end.

(** ** Static form fields *)

Record StaticFormField := {
  field_number : Z;
  label : str
  (* "type": "text_input" and "required": True are constants *)
}.

Section Program.
Context {U : UnicodeData}.

(** The longest digit string [int] converts ([sys.int_info]'s default
    limit); a longer one is a [ValueError], leading zeros included. *)
Definition MAX_STR_DIGITS : Z := 4300.

(** [int(s)] on a string of decimal digits (what is left once the
    non-digits are removed); the empty string is a [ValueError], and so is
    a string of more than [MAX_STR_DIGITS] digits. *)
Definition int_of_digits (s : str) : result Z :=
  match s with
  | [] => Raise ValueError
  | _ :: _ =>
      if MAX_STR_DIGITS <? Z.of_nat (length s) then Raise ValueError
      else
        foldl (fun acc c =>
                 n ← acc;
                 match decimal c with
                 | Some d => Ok (10 * n + d)
                 | None => Raise ValueError
                 end)
              (Ok 0) s
  end.

Definition dot_class (c : Z) : bool := negb (c =? NL).

(** The literal [w] under IGNORECASE. *)
Definition word_ci (w : string) : regex :=
  cat_all (map (fun l => Chr (caseless l)) (lit w)).

(** [^(?!(?:table of contents|appendix)\b)\s*(\p{N}+[\.\)])\s+(.+)$]
    under IGNORECASE and MULTILINE. *)
Definition field_pattern : regex :=
  cat_all
    [ Bol;
      NotAhead (Cat (Or (word_ci "table of contents") (word_ci "appendix")) WordB);
      Rep re_space;
      Grp 1 (Cat (Plus uni_N) (Chr (fun c => (c =? 46) || (c =? 41))));
      Plus re_space;
      Grp 2 (Plus dot_class);
      Eol ].

(** The body of the loop: one field for a candidate, or nothing when its
    numeral does not convert. *)
Definition field_of_match (m : cursor) : option StaticFormField :=
  let field_number_str := group 1 m in
  let label := replace [NL] [SPACE] (strip (group 2 m)) in
  match int_of_digits (strip_non_digits field_number_str) with
  | Raise _ => None                       (* except: continue *)
  | Ok field_number => Some {| field_number := field_number; label := label |}
  end.

Definition extract_static_form_fields (full_text : str) : list StaticFormField :=
  omap field_of_match (finditer field_pattern full_text).

(** ** Bullets *)

Definition BULLET : Z := 8226.          (* U+2022 *)
Definition BLACK_CIRCLE : Z := 9679.    (* U+25CF *)
Definition PUA_BULLET : Z := 61623.     (* U+F0B7 *)
Definition HYPHEN : Z := 45.

Definition bullet_glyph (c : Z) : bool :=
  (c =? BULLET) || (c =? BLACK_CIRCLE) || (c =? PUA_BULLET) || (c =? HYPHEN).

(** Optional white space, one bullet glyph (group 1), white space, then
    the rest of the line (group 2); [match] anchors it at the start. *)
Definition bullet_pattern : regex :=
  cat_all
    [ Bos; Rep re_space; Grp 1 (Chr bullet_glyph); Plus re_space;
      Grp 2 (Rep dot_class) ].

(** ** Semantic classification of a block *)

Inductive SectionType :=
| T_list_item | T_heading | T_website | T_address | T_rsvp | T_paragraph.

(** [www\..+\.com] *)
Definition website_pattern : regex :=
  cat_all (map (fun l => Chr (Z.eqb l)) (lit "www.")
           ++ [Plus dot_class]
           ++ map (fun l => Chr (Z.eqb l)) (lit ".com")).

Definition az (c : Z) : bool := ascii_lower c.
Definition az_or_space (c : Z) : bool := ascii_lower c || re_space c.
Definition COMMA : Z := 44.

(** [\d+\s+[a-z\s]+,\s+[a-z]{2}\s+\d+] *)
Definition address_pattern : regex :=
  cat_all
    [ Plus uni_digit; Plus re_space; Plus az_or_space; Chr (Z.eqb COMMA);
      Plus re_space; Chr az; Chr az; Plus re_space; Plus uni_digit ].

Definition classify_content_block (block_text : str) : SectionType :=
  let text_lower := lower block_text in
  if re_search website_pattern text_lower then T_website
  else if contains (lit "address:") text_lower
          || re_search address_pattern text_lower then T_address
  else if contains (lit "rsvp:") text_lower then T_rsvp
  else T_paragraph.
End Program.

(** ** The document as the PDF library presents it *)

Record BBox := { x0 : Q; y0 : Q; x1 : Q; y1 : Q }.

Record Span := {
  span_text : str;
  span_size : Q;      (* a finite float, which is a rational; a size that is
                         NaN or infinite is not represented *)
  span_flags : Z
}.

Record RawBlock := {
  block_type : Z;                  (* 0 for text *)
  block_lines : list (list Span);  (* the spans of each line *)
  block_bbox : BBox
}.

Record Widget := {
  w_field_name : str;
  w_field_type_string : str;
  w_field_value : str
}.

Record Page := {
  page_get_text : str;
  page_blocks : list RawBlock;
  page_widgets : list Widget;
  page_number : Z
}.

Record Metadata := { md_title : option str }.

Record Document := {
  doc_metadata : option Metadata;
  doc_pages : list Page;
  doc_toc : list (Z * str * Z)     (* (level, title, page) of [get_toc];
                                      see [toc_titled] *)
}.

(** [enumerate(xs)] *)
Definition enumerate {A} (xs : list A) : list (Z * A) :=
  imap (fun i x => (Z.of_nat i, x)) xs.

(** [round(x)] for a finite float: to the nearest integer, ties to the
    even one.  (On NaN and on an infinity [round] raises; sizes are taken
    to be finite.) *)
Definition py_round (x : Q) : Z :=
  let f := Qfloor x in
  match Qcompare (Qminus x (inject_Z f)) (Qmake 1 2) with
  | Lt => f
  | Gt => f + 1
  | Eq => if Z.even f then f else f + 1
  end.

(** ** Style histogram

    A [Counter] keeps its keys in the order they were first inserted, and
    that order decides ties, so it is an association list. *)

Abbreviation StyleKey := (Z * Z)%type.
Abbreviation Counter := (list (StyleKey * Z)).

(** [c[k] += n] *)
Fixpoint counter_add (k : StyleKey) (n : Z) (c : Counter) : Counter :=
  match c with
  | [] => [(k, n)]
  | (k', v) :: c' =>
      if decide (k = k') then (k', v + n) :: c'
      else (k', v) :: counter_add k n c'
  end.

(** [c.most_common(1)]: [max] over the items by count, which keeps the
    first of several maximal items. *)
Definition most_common_1 (c : Counter) : list (StyleKey * Z) :=
  match c with
  | [] => []
  | e :: c' => [foldl (fun best x => if snd best <? snd x then x else best) e c']
  end.

Record TextBlock := {
  style : StyleKey;
  text : str;
  page : Z;
  bbox : BBox
}.

Record ScanState := {
  styles : Counter;
  all_blocks : list TextBlock;
  full_text : str
}.

Definition scan_block (page_num : Z) (st : ScanState) (block : RawBlock)
    : result ScanState :=
  if block_type block =? 0 then
    let span_texts := flat_map (map span_text) (block_lines block) in
    let block_text := strip (join [SPACE] span_texts) in
    match block_text with
    | [] => Ok st                                     (* continue *)
    | _ :: _ =>
        match block_lines block with
        | (span :: _) :: _ =>
            let style_key :=
              (py_round (span_size span), Z.land (span_flags span) 1) in
            Ok {| styles := counter_add style_key (Z.of_nat (length block_text)) (styles st);
                  all_blocks := all_blocks st ++
                    [{| style := style_key; text := block_text;
                        page := page_num + 1; bbox := block_bbox block |}];
                  full_text := full_text st |}
        | _ => Raise IndexError
        end
    end
  else Ok st.

Definition scan_page (st : ScanState) (p : Z * Page) : result ScanState :=
  let '(page_num, pg) := p in
  let st1 := {| styles := styles st; all_blocks := all_blocks st;
                full_text := full_text st ++ page_get_text pg ++ [NL] |} in
  for_each (scan_block page_num) (page_blocks pg) st1.

Definition scan (doc : Document) : result ScanState :=
  for_each scan_page (enumerate (doc_pages doc))
    {| styles := []; all_blocks := []; full_text := [] |}.

(** ** Body and heading styles *)

Definition is_heading_style (body_style s : StyleKey) : bool :=
  (s.1 >? body_style.1) || ((s.1 =? body_style.1) && (s.2 >? body_style.2)).

Definition heading_styles_of (st : Counter) (body_style : StyleKey) : gset StyleKey :=
  list_to_set (filter (fun s => is_heading_style body_style s = true) (map fst st)).

Definition desc (a b : Z) : Prop := b <= a.

#[export] Instance desc_dec a b : Decision (desc a b) := Z_le_dec b a.

(** [sorted({s[0] for s in heading_styles}, reverse=True)] *)
Definition sorted_heading_sizes_of (hs : gset StyleKey) : list Z :=
  merge_sort desc (elements (set_map fst hs : gset Z)).

(** [{size: f"H{i+1}" for i, size in enumerate(sizes)}] *)
Definition level_map_of (sizes : list Z) : gmap Z str :=
  foldl (fun m '(i, size) => <[size := lit "H" ++ str_of_int (i + 1)]> m)
        ∅ (enumerate sizes).

(** [xs.index(x)] *)
Definition py_index (x : Z) (xs : list Z) : result nat :=
  match list_find (fun y => y = x) xs with
  | Some (i, _) => Ok i
  | None => Raise ValueError
  end.

(** ** Output records *)

Record ContentSection := {
  cs_type : SectionType;
  cs_content : str;
  cs_page : Z;
  cs_bbox : BBox;
  cs_level : Z
}.

Record OutlineEntry := {
  oe_level : str;
  oe_text : str;
  oe_page : Z
}.

Record ListRecord := {
  lr_page : Z;
  lr_items : list str
}.

Record Assembly := {
  content_sections : list ContentSection;
  outline : list OutlineEntry;
  lists : list ListRecord
}.

Section Assembler.
Context {U : UnicodeData}.

(** The inner loop over the lines of a list block. *)
Definition list_line (block : TextBlock) (level : Z) (acc : Assembly) (line : str)
    : Assembly :=
  match re_match bullet_pattern (strip line) with
  | Some m =>
      let item_text := strip (group 2 m) in
      {| lists := lists acc ++ [{| lr_page := page block; lr_items := [item_text] |}];
         content_sections := content_sections acc ++
           [{| cs_type := T_list_item; cs_content := item_text;
               cs_page := page block; cs_bbox := bbox block; cs_level := level |}];
         outline := outline acc |}
  | None => acc
  end.

(** The body of the loop over [all_blocks]. *)
Definition assemble_block (heading_styles : gset StyleKey)
    (sorted_heading_sizes : list Z) (level_map : gmap Z str)
    (acc : Assembly) (block : TextBlock) : result Assembly :=
  if forallb (fun c => c =? DOT) (strip (text block)) then Ok acc   (* continue *)
  else
    let is_heading := bool_decide (style block ∈ heading_styles) in
    let level := 0 in
    let lines := split NL (text block) in
    let list_items := map (fun line => re_match bullet_pattern (strip line)) lines in
    if existsb (fun m => bool_decide (is_Some m)) list_items then
      Ok (foldl (list_line block level) acc lines)
    else if is_heading then
      idx ← py_index (style block).1 sorted_heading_sizes;
      let level := Z.of_nat (size level_map) - Z.of_nat idx in
      Ok {| outline := outline acc ++
              [{| oe_level := lit "H" ++ str_of_int level; oe_text := text block;
                  oe_page := page block |}];
            content_sections := content_sections acc ++
              [{| cs_type := T_heading; cs_content := text block;
                  cs_page := page block; cs_bbox := bbox block; cs_level := level |}];
            lists := lists acc |}
    else
      let semantic_type := classify_content_block (text block) in
      Ok {| content_sections := content_sections acc ++
              [{| cs_type := semantic_type; cs_content := text block;
                  cs_page := page block; cs_bbox := bbox block; cs_level := level |}];
            outline := outline acc;
            lists := lists acc |}.

Definition empty_assembly : Assembly :=
  {| content_sections := []; outline := []; lists := [] |}.

(** Everything [extract_content_and_outline] derives from the histogram
    before its second loop. *)
Definition body_style_of (st : Counter) : result StyleKey :=
  match most_common_1 st with
  | e :: _ => Ok e.1
  | [] => Raise IndexError
  end.

Definition toc_entry (e : Z * str * Z) : OutlineEntry :=
  let '(level, title, page) := e in
  {| oe_level := lit "H" ++ str_of_int level; oe_text := title; oe_page := page |}.

Definition extract_content_and_outline (doc : Document)
    : result (list ContentSection * list OutlineEntry * str * list ListRecord) :=
  st ← scan doc;
  match styles st with
  | [] => Ok ([], [], strip (full_text st), [])
  | _ :: _ =>
      body_style ← body_style_of (styles st);
      let heading_styles := heading_styles_of (styles st) body_style in
      let sorted_heading_sizes := sorted_heading_sizes_of heading_styles in
      let level_map := level_map_of sorted_heading_sizes in
      acc ← for_each (assemble_block heading_styles sorted_heading_sizes level_map)
              (all_blocks st) empty_assembly;
      let toc := doc_toc doc in
      let outline :=
        match toc with
        | [] => outline acc
        | _ :: _ => map toc_entry toc
        end in
      Ok (content_sections acc, outline, strip (full_text st), lists acc)
  end.
End Assembler.

(** ** Tables

    The table library is a collaborator: opening the file may raise, and so
    may the extraction of any page's tables.  A cell is [None] or text. *)

Abbreviation RawTable := (list (list (option str))).
Abbreviation Plumber := (result (list (result (list RawTable)))).

Record Table := {
  tb_page : Z;
  tb_data : list (list str)
}.

Definition any_text (row : list str) : bool :=
  existsb (fun cell => negb (str_eqb cell [])) row.

(** [list(zip( *rows))]: the columns, as many as the shortest row has. *)
Definition zip_star (rows : list (list str)) : list (list str) :=
  match rows with
  | [] => []
  | r :: rs =>
      let n := foldl (fun m row => Nat.min m (length row)) (length r) rs in
      map (fun idx => omap (fun row => row !! idx) rows) (seq 0 n)
  end.

(** The body of the loop over a page's tables: the cleaned table, or
    nothing when the table is skipped. *)
Definition clean_table (i : Z) (table_data : RawTable) : option Table :=
  if bool_decide (length table_data <= 1)%nat
     && forallb (fun row => bool_decide (length row <= 1)%nat) table_data
  then None
  else
    let cleaned_rows :=
      map (map (fun item => match item with None => [] | Some t => strip t end))
          table_data in
    let non_empty_rows := filter (fun row => any_text row = true) cleaned_rows in
    match non_empty_rows with
    | [] => None
    | _ :: _ =>
        let max_cols := foldl Nat.max 0%nat (map length non_empty_rows) in
        let padded_rows :=
          map (fun row => row ++ repeat [] (max_cols - length row)) non_empty_rows in
        let transposed := zip_star padded_rows in
        let non_empty_col_indices : gset nat :=
          list_to_set (omap (fun '(idx, col) => if any_text col then Some idx else None)
                            (imap pair transposed)) in
        let final_table :=
          map (fun row =>
                 omap (fun '(idx, cell) =>
                         if bool_decide (idx ∈ non_empty_col_indices)
                         then Some cell else None)
                      (imap pair row))
              padded_rows in
        match final_table with
        | [] => None
        | _ :: _ => Some {| tb_page := i + 1; tb_data := final_table |}
        end
    end.

(** The loop over the pages inside the [try]: an exception leaves it, and
    the tables appended so far are what is returned. *)
Fixpoint tables_loop (pages : list (Z * result (list RawTable))) (tables : list Table)
    : list Table :=
  match pages with
  | [] => tables
  | (i, Ok page_tables) :: rest =>
      tables_loop rest (tables ++ omap (clean_table i) page_tables)
  | (_, Raise _) :: _ => tables
  end.

Definition extract_tables_with_pdfplumber (pdf : Plumber) : list Table :=
  match pdf with
  | Ok pages => tables_loop (enumerate pages) []
  | Raise _ => []
  end.

(** ** Title *)

Definition SLASH : Z := 47.

(** [PurePosixPath(s).name]: the last component that is neither empty nor
    a single dot. *)
Definition path_name (s : str) : str :=
  List.last (filter (fun part => part <> [] /\ part <> [DOT]) (split SLASH s)) [].

(** [Path(s).stem] *)
Definition path_stem (s : str) : str :=
  let name := path_name s in
  match rfind_dot name with
  | Some i =>
      if bool_decide (0 < i < length name - 1)%nat then take i name else name
  | None => name
  end.

Definition WORD_MARKER : str := lit "Microsoft Word -".

Definition get_document_title (doc : Document) : str :=
  match doc_metadata doc with
  | Some md =>
      match md_title md with
      | Some (c :: t) =>
          let title := strip (c :: t) in
          let title :=
            if contains WORD_MARKER title then strip (replace WORD_MARKER [] title)
            else title in
          path_stem title
      | _ => []
      end
  | None => []
  end.

(** Order on strings and on the sort key [(level, page)]. *)
Fixpoint str_compare (a b : str) : comparison :=
  match a, b with
  | [], [] => Eq
  | [], _ :: _ => Lt
  | _ :: _, [] => Gt
  | x :: a', y :: b' =>
      match x ?= y with
      | Eq => str_compare a' b'
      | c => c
      end
  end.

Definition key_le (a b : OutlineEntry) : bool :=
  match str_compare (oe_level a) (oe_level b) with
  | Lt => true
  | Gt => false
  | Eq => oe_page a <=? oe_page b
  end.

(** [sorted(xs, key=...)]: a stable sort. *)
Fixpoint insert_sorted (x : OutlineEntry) (xs : list OutlineEntry) : list OutlineEntry :=
  match xs with
  | [] => [x]
  | y :: ys => if key_le x y then x :: xs else y :: insert_sorted x ys
  end.

Definition sorted_outline (xs : list OutlineEntry) : list OutlineEntry :=
  foldr insert_sorted [] xs.

(** ** One document *)

Record FormField := {
  ff_name : str;
  ff_type : str;
  ff_value : str;
  ff_page : Z
}.

Definition extract_form_fields (doc : Document) : list FormField :=
  flat_map (fun pg =>
              map (fun field =>
                     {| ff_name := w_field_name field;
                        ff_type := w_field_type_string field;
                        ff_value := w_field_value field;
                        ff_page := page_number pg + 1 |})
                  (page_widgets pg))
           (doc_pages doc).

Record OutputData := {
  out_title : str;
  out_outline : list OutlineEntry;
  out_content_sections : list ContentSection;
  out_full_text : str;
  out_tables : list Table;
  out_form_fields : list FormField;
  out_static_form_fields : list StaticFormField
}.

Section Driver.
Context {U : UnicodeData}.

(** The fallbacks of the title once the metadata title is known. *)
Definition resolve_title (title : str) (outline : list OutlineEntry) (stem : str) : str :=
  let title :=
    match title, outline with
    | [], _ :: _ =>
        match sorted_outline outline with
        | e :: _ => oe_text e
        | [] => []
        end
    | _, _ => title
    end in
  match title with
  | [] => stem
  | _ :: _ => title
  end.

(** [process_single_pdf]: [opened] is what [fitz.open] gives, [pdf] the
    table library on the same file and [stem] is [pdf_path.stem].  [Ok] is
    the data written as JSON; [Raise] is the exception the outer handler
    logs, with nothing written. *)
Definition process_single_pdf (opened : result Document) (pdf : Plumber) (stem : str)
    : result OutputData :=
  doc ← opened;
  let title := get_document_title doc in
  let form_fields := extract_form_fields doc in
  '(content_sections, outline, full_text, lists) ← extract_content_and_outline doc;
  let static_form_fields := extract_static_form_fields full_text in
  let tables := extract_tables_with_pdfplumber pdf in
  Ok {| out_title := resolve_title title outline stem;
        out_outline := outline;
        out_content_sections := content_sections;
        out_full_text := full_text;
        out_tables := tables;
        out_form_fields := form_fields;
        out_static_form_fields := static_form_fields |}.
End Driver.

(** ** Vocabulary of the properties *)

(** Keys in the order in which a sequence first shows them. *)
Definition first_seen (ks : list StyleKey) : list StyleKey :=
  foldl (fun acc k => if decide (k ∈ acc) then acc else acc ++ [k]) [] ks.

(** The histogram is a function of the block sequence. *)
Definition histogram_of (blocks : list TextBlock) : Counter :=
  foldl (fun c b => counter_add (style b) (Z.of_nat (length (text b))) c) [] blocks.

(** What the first loop maintains. *)
Definition scan_invariant (st : ScanState) : Prop :=
  styles st = histogram_of (all_blocks st) /\
  Forall (fun b => ((style b).2 = 0 \/ (style b).2 = 1) /\ text b <> []) (all_blocks st).

Section Vocabulary.
Context {U : UnicodeData}.

(** The guards of the second loop, by name. *)
Definition is_dots_block (b : TextBlock) : bool :=
  forallb (fun c => c =? DOT) (strip (text b)).

Definition is_bullet_line (line : str) : bool :=
  bool_decide (is_Some (re_match bullet_pattern (strip line))).

Definition is_list_block (b : TextBlock) : bool :=
  existsb is_bullet_line (split NL (text b)).

(** The item text of a line that matches the bullet pattern. *)
Definition bullet_item (line : str) : option str :=
  match re_match bullet_pattern (strip line) with
  | Some m => Some (strip (group 2 m))
  | None => None
  end.

Definition bullet_items (b : TextBlock) : list str :=
  omap bullet_item (split NL (text b)).

Definition list_item_section (b : TextBlock) (item_text : str) : ContentSection :=
  {| cs_type := T_list_item; cs_content := item_text; cs_page := page b;
     cs_bbox := bbox b; cs_level := 0 |}.

Definition list_record (b : TextBlock) (item_text : str) : ListRecord :=
  {| lr_page := page b; lr_items := [item_text] |}.

Definition heading_section (b : TextBlock) (level : Z) : ContentSection :=
  {| cs_type := T_heading; cs_content := text b; cs_page := page b;
     cs_bbox := bbox b; cs_level := level |}.

Definition heading_entry (b : TextBlock) (level : Z) : OutlineEntry :=
  {| oe_level := lit "H" ++ str_of_int level; oe_text := text b; oe_page := page b |}.

(** A block the second loop sends down its heading branch. *)
Definition emitted_as_heading (heading_styles : gset StyleKey) (b : TextBlock) : Prop :=
  is_dots_block b = false /\ is_list_block b = false /\ style b ∈ heading_styles.

(** The list records one block contributes. *)
Definition block_records (b : TextBlock) : list ListRecord :=
  if is_dots_block b then [] else map (list_record b) (bullet_items b).
End Vocabulary.

(** The words a pattern can consume, whatever surrounds them: anchors,
    boundaries and look-aheads consume nothing. *)
Fixpoint shape (r : regex) (w : str) : Prop :=
  match r with
  | Empty | Bos | Bol | Eol | WordB | NotAhead _ => w = []
  | Chr p => exists x, w = [x] /\ p x = true
  | Rep p => Forall (fun x => p x = true) w
  | Cat r1 r2 => exists w1 w2, w = w1 ++ w2 /\ shape r1 w1 /\ shape r2 w2
  | Or r1 r2 => shape r1 w \/ shape r2 w
  | Grp _ r1 => shape r1 w
  end.

Definition wanted_line : str := lit "3. Enter your name".
Definition appendix_line : str := lit "Appendix 3. Notes".

Definition wanted_field : StaticFormField :=
  {| field_number := 3; label := lit "Enter your name" |}.

(** A text ends a line where it stops or where its next character is a
    line break. *)
Definition at_line_end (post : str) : Prop := post = [] \/ exists p, post = NL :: p.

(** A text already passed, in reverse, ends at the start of a line. *)
Definition at_line_start (sn : str) : Prop := sn = [] \/ exists p, sn = NL :: p.

(** ** Sample inputs *)

Definition unit_box : BBox := {| x0 := 0; y0 := 0; x1 := 1; y1 := 1 |}.

Definition text_block (size : Q) (flags : Z) (t : str) : RawBlock :=
  {| block_type := 0;
     block_lines := [[{| span_text := t; span_size := size; span_flags := flags |}]];
     block_bbox := unit_box |}.

Definition one_page (blocks : list RawBlock) : Page :=
  {| page_get_text := []; page_blocks := blocks; page_widgets := []; page_number := 0 |}.

(** Two styles of equal weight, the 12-point one seen first, and a lighter
    bold style of the body's size. *)
Definition doc_ties : Document :=
  {| doc_metadata := None;
     doc_pages := [one_page [text_block (12#1) 0 (lit "abcd");
                             text_block (14#1) 0 (lit "wxyz");
                             text_block (12#1) 1 (lit "b")]];
     doc_toc := [] |}.

Definition st_ties : ScanState :=
  Eval vm_compute in
    match scan doc_ties with
    | Ok st => st
    | Raise _ => {| styles := []; all_blocks := []; full_text := [] |}
    end.

(** A block of three lines, two of them bulleted. *)
Definition shopping_block : TextBlock :=
  {| style := (12, 0);
     text := BULLET :: lit " Buy milk" ++ [NL] ++ lit "and then" ++ [NL] ++ lit "- eggs";
     page := 1; bbox := unit_box |}.

(** A body paragraph, two headings of different sizes and a bulleted list. *)
Definition doc_outline : Document :=
  {| doc_metadata := None;
     doc_pages := [one_page [text_block (49#2) 0 (lit "Title");
                             text_block (12#1) 0 (lit "some body text, long enough");
                             text_block (16#1) 0 (lit "Section");
                             text_block (12#1) 0 (text shopping_block)]];
     doc_toc := [] |}.

(** Heading styles of two sizes, and a block set in the larger one. *)
Definition two_heading_styles : gset StyleKey := {[ (24, 0); (16, 0); (16, 1) ]}.

Definition title_block : TextBlock :=
  {| style := (24, 0); text := lit "Title"; page := 1; bbox := unit_box |}.

Definition doc_outline_parts
    : list ContentSection * list OutlineEntry * str * list ListRecord :=
  Eval vm_compute in
    match extract_content_and_outline (U:=latin1) doc_outline with
    | Ok r => r
    | Raise _ => ([], [], [], [])
    end.

(** Two numbered lines; the numeral of the first is a superscript two,
    which is a number but no digit. *)
Definition SUPERSCRIPT_TWO : Z := 178.

Definition two_candidates : str :=
  SUPERSCRIPT_TWO :: lit ") squared" ++ [NL] ++ lit "3. Enter your name".

(** A table library that delivers one table for the first page and fails on
    the second. *)
Definition small_table : RawTable :=
  [[Some (lit "a"); Some (lit "b")]; [Some (lit "c"); None]].

Definition plumber_fails_on_page_2 : Plumber :=
  Ok [Ok [small_table]; Raise OtherError].

(** What it means for the table library to raise on a document. *)
Definition plumber_raises (pdf : Plumber) : Prop :=
  match pdf with
  | Raise _ => True
  | Ok pages => exists e, Raise e ∈ pages
  end.

Definition doc_word_title : Document :=
  {| doc_metadata := Some {| md_title := Some (lit "Microsoft Word - Form123.docx") |};
     doc_pages := [];
     doc_toc := [] |}.

(** A numeral alone on the line before the wanted line. *)
Definition absorbed_text : str := lit "1." ++ [NL] ++ wanted_line.

(** The candidates of the sample with two numerals: the first has no
    digit, the second is the wanted line. *)
Definition dropped_candidate : cursor :=
  Eval vm_compute in
    match finditer (U:=latin1) (field_pattern (U:=latin1)) two_candidates with
    | m :: _ => m
    | [] => Cursor [] [] [] []
    end.

Definition kept_candidates : list cursor :=
  Eval vm_compute in
    tail (finditer (U:=latin1) (field_pattern (U:=latin1)) two_candidates).

(** ** Further vocabulary *)

(** [c[k]]: a missing key counts 0. *)
Fixpoint counter_get (k : StyleKey) (c : Counter) : Z :=
  match c with
  | [] => 0
  | (k', v) :: c' => if decide (k = k') then v else counter_get k c'
  end.

(** The number of characters in the blocks of one style. *)
Fixpoint weight_in (k : StyleKey) (blocks : list TextBlock) : Z :=
  match blocks with
  | [] => 0
  | b :: bs =>
      (if decide (style b = k) then Z.of_nat (length (text b)) else 0) + weight_in k bs
  end.

(** The text the first loop takes for a block. *)
Definition block_text_of (block : RawBlock) : str :=
  strip (join [SPACE] (flat_map (map span_text) (block_lines block))).

(** A block the first loop passes over. *)
Definition no_text (block : RawBlock) : Prop :=
  block_type block <> 0 \/ block_text_of block = [].

(** A text block with text whose first line has no span. *)
Definition first_line_empty (block : RawBlock) : Prop :=
  block_type block = 0 /\ block_text_of block <> [] /\
  exists rest, block_lines block = [] :: rest.

(** The plain text of all pages, a line break after each. *)
Definition pages_text (pages : list Page) : str :=
  flat_map (fun pg => page_get_text pg ++ [NL]) pages.

Definition with_toc (doc : Document) (toc : list (Z * str * Z)) : Document :=
  {| doc_metadata := doc_metadata doc; doc_pages := doc_pages doc; doc_toc := toc |}.

(** The outline entry that goes with a heading section. *)
Definition entry_of_section (s : ContentSection) : OutlineEntry :=
  {| oe_level := lit "H" ++ str_of_int (cs_level s);
     oe_text := cs_content s; oe_page := cs_page s |}.

Definition is_heading_section (s : ContentSection) : bool :=
  match cs_type s with T_heading => true | _ => false end.

(** A table the cleaning rejects for its size: at most one row, of at most
    one cell. *)
Definition degenerate (table_data : RawTable) : bool :=
  bool_decide (length table_data <= 1)%nat
  && forallb (fun row => bool_decide (length row <= 1)%nat) table_data.

(** A cell with no text once stripped. *)
Definition blank_cell (item : option str) : bool :=
  match item with
  | None => true
  | Some t => str_eqb (strip t) []
  end.

(** A block with a span in no line but the second. *)
Definition block_without_first_span : RawBlock :=
  {| block_type := 0;
     block_lines := [[]; [{| span_text := lit "text"; span_size := 12#1; span_flags := 0 |}]];
     block_bbox := unit_box |}.

Definition doc_without_first_span : Document :=
  {| doc_metadata := None;
     doc_pages := [one_page [text_block (12#1) 0 (lit "body"); block_without_first_span]];
     doc_toc := [] |}.

(** A page with an image block and a blank text block only, and bookmarks. *)
Definition doc_images_only : Document :=
  {| doc_metadata := None;
     doc_pages := [ {| page_get_text := lit " scan ";
                       page_blocks := [ {| block_type := 1; block_lines := [];
                                           block_bbox := unit_box |};
                                        text_block (12#1) 0 (lit "  ") ];
                       page_widgets := []; page_number := 0 |} ];
     doc_toc := [(1, lit "Cover", 1)] |}.

Definition st_outline_probe : ScanState :=
  Eval vm_compute in
    match scan doc_outline with
    | Ok st => st
    | Raise _ => {| styles := []; all_blocks := []; full_text := [] |}
    end.

(** What one step of the second loop appends. *)
Definition step_sections (hs : gset StyleKey) (n : nat) (b : TextBlock)
    (new : list ContentSection) : Prop :=
  Forall (fun s =>
            cs_page s = page b /\ cs_bbox s = bbox b /\
            (is_heading_section s = true ->
               cs_content s = text b /\ style b ∈ hs /\
               1 <= cs_level s <= Z.of_nat n) /\
            (is_heading_section s = false -> cs_level s = 0)) new.

(** The cells of a row at the kept column indices. *)
Definition keep_columns (kept : gset nat) (row : list str) : list str :=
  omap (fun '(idx, cell) => if bool_decide (idx ∈ kept) then Some cell else None)
       (imap pair row).

(** The capturing groups of a pattern whose captures a match keeps (those
    of a look-ahead are dropped with it). *)
Fixpoint groups (r : regex) : list (nat * regex) :=
  match r with
  | Cat r1 r2 | Or r1 r2 => groups r1 ++ groups r2
  | Grp n r1 => (n, r1) :: groups r1
  | _ => []
  end.

(** A capture is a word of the shape of one of the pattern's groups. *)
Definition capture_of (r : regex) (cap : nat * str) : Prop :=
  exists r1, (cap.1, r1) ∈ groups r /\ shape r1 cap.2.

(** Patterns without anchors, word boundaries or look-ahead: whether they
    match a word does not depend on what surrounds it. *)
Fixpoint plain (r : regex) : bool :=
  match r with
  | Empty | Chr _ | Rep _ => true
  | Cat r1 r2 | Or r1 r2 => plain r1 && plain r2
  | Grp _ r1 => plain r1
  | Bos | Bol | Eol | WordB | NotAhead _ => false
  end.

(** Some stretch of the text has the shape of the pattern. *)
Definition occurs (r : regex) (s : str) : Prop :=
  exists a w c, s = a ++ w ++ c /\ shape r w.

(** The text holds "www.", then at least one character and no line break,
    then ".com". *)
Definition has_web_address (s : str) : Prop :=
  exists a b c, s = a ++ lit "www." ++ b ++ lit ".com" ++ c /\ b <> [] /\ (NL ∉ b).

(** The pages carry their position in the document as their number. *)
Definition numbered_by_position (doc : Document) : Prop :=
  forall i pg, doc_pages doc !! i = Some pg -> page_number pg = Z.of_nat i.

(** The widget a form field was read from. *)
Definition field_widget (f : FormField) : Widget :=
  {| w_field_name := ff_name f;
     w_field_type_string := ff_type f;
     w_field_value := ff_value f |}.

(** A text box on the first page and a check box on the second. *)
Definition doc_two_forms : Document :=
  {| doc_metadata := None;
     doc_pages :=
       [ {| page_get_text := []; page_blocks := [];
            page_widgets := [ {| w_field_name := lit "name";
                                 w_field_type_string := lit "Text";
                                 w_field_value := lit "Ada" |} ];
            page_number := 0 |};
         {| page_get_text := []; page_blocks := [];
            page_widgets := [ {| w_field_name := lit "agree";
                                 w_field_type_string := lit "CheckBox";
                                 w_field_value := lit "Yes" |} ];
            page_number := 1 |} ];
     doc_toc := [] |}.




(** What a successful run of a pattern did: the word [w] it consumed, with
    [sn] behind it (in reverse) and [rest] after it, and the captures [new]
    it recorded, the latest first. *)
Fixpoint trace (r : regex) (sn w rest : str) (new : list (nat * str)) : Prop :=
  match r with
  | Empty | WordB | NotAhead _ => w = [] /\ new = []
  | Chr p => (exists x, w = [x] /\ p x = true) /\ new = []
  | Rep p => Forall (fun x => p x = true) w /\ new = []
  | Cat r1 r2 =>
      exists w1 w2 new1 new2,
        w = w1 ++ w2 /\ new = new2 ++ new1 /\
        trace r1 sn w1 (w2 ++ rest) new1 /\
        trace r2 (reverse w1 ++ sn) w2 rest new2
  | Or r1 r2 => trace r1 sn w rest new \/ trace r2 sn w rest new
  | Grp n r1 => exists new1, new = (n, w) :: new1 /\ trace r1 sn w rest new1
  | Bos => w = [] /\ new = [] /\ sn = []
  | Bol => w = [] /\ new = [] /\ at_line_start sn
  | Eol => w = [] /\ new = [] /\ at_line_end rest
  end.

(** A text that stops where a line starts. *)
Definition ends_at_line_start (pre : str) : Prop :=
  pre = [] \/ exists a, pre = a ++ [NL].

Section LineVocabulary.
Context {U : UnicodeData}.

(** The text ends with a numeral token that stands alone after a line
    start, apart from white space before it, and is followed by white space
    only. *)
Definition numeral_alone_before (pre : str) : Prop :=
  exists a ws0 num p ws1,
    pre = a ++ ws0 ++ num ++ [p] ++ ws1 /\
    ends_at_line_start a /\
    Forall (fun x => re_space x = true) ws0 /\
    num <> [] /\ Forall (fun x => uni_N x = true) num /\
    (p = 46 \/ p = 41) /\
    ws1 <> [] /\ Forall (fun x => re_space x = true) ws1.
End LineVocabulary.

(** A line that ends in "." before the wanted line. *)
Definition PROMPT : str := lit "Fill in." ++ [NL].

(** * Properties *)

(** ** Loops *)

Lemma for_each_invariant {A S} (P : S -> Prop) (body : S -> A -> result S) xs :
  (forall s x s', P s -> body s x = Ok s' -> P s') ->
  forall s s', P s -> for_each body xs s = Ok s' -> P s'.
Proof.
  intros Hstep. induction xs as [|x xs IH]; intros s s' Hs Hrun; simpl in Hrun.
  - by inversion Hrun; subst.
  - destruct (body s x) as [s1|e] eqn:Hb; simpl in Hrun; [|done].
    eapply IH; [|exact Hrun]. eapply Hstep; eauto.
Qed.

Lemma for_each_total {A S} (body : S -> A -> result S) xs s :
  (forall s x, exists s', body s x = Ok s') ->
  exists s', for_each body xs s = Ok s'.
Proof.
  intros Hstep. revert s. induction xs as [|x xs IH]; intros s; simpl.
  - by eexists.
  - destruct (Hstep s x) as [s1 ->]. simpl. apply IH.
Qed.

(** ** The histogram *)

Lemma counter_add_keys k n c :
  map fst (counter_add k n c) =
  if decide (k ∈ map fst c) then map fst c else map fst c ++ [k].
Proof.
  induction c as [|[k' v] c IH].
  - case_decide as H; [by apply elem_of_nil in H|done].
  - cbn [counter_add]. destruct (decide (k = k')) as [->|Hne]; cbn [map fst].
    + rewrite decide_True; [done|]. apply elem_of_cons; by left.
    + rewrite IH. destruct (decide (k ∈ map fst c)) as [Hin|Hnin].
      * rewrite decide_True; [done|]. apply elem_of_cons; by right.
      * rewrite decide_False; [done|]. intros [?|?]%elem_of_cons; congruence.
Qed.

Lemma first_seen_snoc ks k :
  first_seen (ks ++ [k]) =
  if decide (k ∈ first_seen ks) then first_seen ks else first_seen ks ++ [k].
Proof. unfold first_seen. by rewrite foldl_app. Qed.

Lemma first_seen_elem ks k : k ∈ first_seen ks <-> k ∈ ks.
Proof.
  induction ks as [|x ks IH] using rev_ind.
  - done.
  - rewrite first_seen_snoc. destruct (decide (x ∈ first_seen ks)) as [Hin|Hnin];
      rewrite !elem_of_app, ?list_elem_of_singleton; [|tauto].
    split; [tauto|]. intros [?| ->]; tauto.
Qed.

(** If [a] comes before [b] in [first_seen ks], some occurrence of [a] in
    [ks] precedes every occurrence of [b]. *)
Lemma first_seen_order ks p q a b :
  (p < q)%nat -> first_seen ks !! p = Some a -> first_seen ks !! q = Some b ->
  exists i, ks !! i = Some a /\ forall j, ks !! j = Some b -> (i < j)%nat.
Proof.
  revert p q a b. induction ks as [|x ks IH] using rev_ind; intros p q a b Hpq Ha Hb.
  - done.
  - rewrite first_seen_snoc in Ha, Hb.
    destruct (decide (x ∈ first_seen ks)) as [Hin|Hnin].
    + destruct (IH p q a b Hpq Ha Hb) as (i & Hi & Hlt).
      exists i. split; [by apply lookup_app_l_Some|].
      intros j Hj. apply lookup_app_Some in Hj as [Hj|[Hlen Hj]]; [by apply Hlt|].
      apply lookup_lt_Some in Hi. lia.
    + apply lookup_app_Some in Hb as [Hb|[Hlen Hb]].
      * assert (Ha' : first_seen ks !! p = Some a).
        { apply lookup_app_Some in Ha as [Ha|[Hlen _]]; [done|].
          apply lookup_lt_Some in Hb. exfalso; lia. }
        destruct (IH p q a b Hpq Ha' Hb) as (i & Hi & Hlt).
        exists i. split; [by apply lookup_app_l_Some|].
        intros j Hj. apply lookup_app_Some in Hj as [Hj|[Hlen Hj]]; [by apply Hlt|].
        apply lookup_lt_Some in Hi. lia.
      * apply list_lookup_singleton_Some in Hb as [Hq ->].
        assert (Ha' : first_seen ks !! p = Some a).
        { apply lookup_app_Some in Ha as [Ha|[Hlen' _]]; [done|]. exfalso; lia. }
        assert (Hain : a ∈ ks).
        { apply first_seen_elem. by eapply list_elem_of_lookup_2. }
        apply list_elem_of_lookup_1 in Hain as [i Hi].
        exists i. split; [by apply lookup_app_l_Some|].
        intros j Hj. apply lookup_app_Some in Hj as [Hj|[Hlen' Hj]].
        -- exfalso. apply Hnin, first_seen_elem. by eapply list_elem_of_lookup_2.
        -- apply lookup_lt_Some in Hi. lia.
Qed.

Lemma histogram_keys blocks :
  map fst (histogram_of blocks) = first_seen (map style blocks).
Proof.
  induction blocks as [|b blocks IH] using rev_ind; [done|].
  unfold histogram_of. rewrite foldl_app. cbn [foldl].
  rewrite counter_add_keys. fold (histogram_of blocks).
  rewrite map_app. cbn [map]. rewrite first_seen_snoc, IH. done.
Qed.

Lemma land_1_bit x : Z.land x 1 = 0 \/ Z.land x 1 = 1.
Proof.
  change 1 with (Z.ones 1) at 1 2. rewrite Z.land_ones by lia.
  change (2 ^ 1) with 2. pose proof (Z.mod_pos_bound x 2). lia.
Qed.

Lemma scan_block_invariant page_num st block st' :
  scan_invariant st -> scan_block page_num st block = Ok st' -> scan_invariant st'.
Proof.
  intros [Hst Hall] Hrun. unfold scan_block in Hrun.
  destruct (block_type block =? 0); [|by inversion Hrun; subst].
  destruct (strip (join [SPACE] (flat_map (map span_text) (block_lines block))))
    as [|c t] eqn:Htext; [by inversion Hrun; subst|].
  destruct (block_lines block) as [|[|span ?] ?]; try done.
  inversion Hrun; subst; clear Hrun. split; cbn [styles all_blocks].
  - unfold histogram_of. rewrite foldl_app. cbn [foldl style text].
    fold (histogram_of (all_blocks st)). by rewrite Hst.
  - apply Forall_app. split; [done|]. constructor; [|done]. cbn [style text snd].
    split; [apply land_1_bit|done].
Qed.

Lemma scan_invariant_holds doc st : scan doc = Ok st -> scan_invariant st.
Proof.
  unfold scan. apply (for_each_invariant scan_invariant).
  - intros s [page_num pg] s' Hs Hpage. unfold scan_page in Hpage.
    eapply (for_each_invariant scan_invariant); [..|exact Hpage].
    + intros; by eapply scan_block_invariant.
    + exact Hs.
  - split; [done|constructor].
Qed.

(** ** The body style *)

Lemma foldl_max_first (best r : StyleKey * Z) (l : Counter) :
  foldl (fun best x => if snd best <? snd x then x else best) best l = r ->
  (forall x, x ∈ l -> x.2 <= r.2) /\ best.2 <= r.2 /\
  (r = best \/
   exists l1 l2, l = l1 ++ r :: l2 /\ best.2 < r.2 /\ forall x, x ∈ l1 -> x.2 < r.2).
Proof.
  revert best. induction l as [|x l IH]; intros best Hr; cbn [foldl] in Hr.
  - subst r. split; [by intros ? ?%elem_of_nil|]. split; [lia|by left].
  - destruct (Z.ltb_spec best.2 x.2) as [Hlt|Hge];
      apply IH in Hr as (Hmax & Hx & Hpos).
    + split.
      { intros y Hy. apply elem_of_cons in Hy as [Hy|Hy]; [by rewrite Hy|auto]. }
      split; [lia|]. right.
      destruct Hpos as [Hr|(l1 & l2 & Hl & Hlt' & Hl1)].
      * exists [], l. rewrite Hr. split; [done|]. split; [done|].
        by intros ? ?%elem_of_nil.
      * exists (x :: l1), l2. rewrite Hl. split; [done|]. split; [lia|].
        intros y Hy. apply elem_of_cons in Hy as [Hy|Hy]; [by rewrite Hy|auto].
    + split.
      { intros y Hy. apply elem_of_cons in Hy as [Hy|Hy]; [rewrite Hy; lia|auto]. }
      split; [lia|].
      destruct Hpos as [Hr|(l1 & l2 & Hl & Hlt' & Hl1)]; [by left|right].
      exists (x :: l1), l2. rewrite Hl. split; [done|]. split; [done|].
      intros y Hy. apply elem_of_cons in Hy as [Hy|Hy]; [rewrite Hy; lia|auto].
Qed.

(** [most_common(1)] on a non-empty histogram: an entry of greatest count,
    and the first of those in insertion order. *)
Lemma most_common_1_first_max (c : Counter) :
  c <> [] ->
  exists r l1 l2, most_common_1 c = [r] /\ c = l1 ++ r :: l2 /\
    (forall x, x ∈ c -> x.2 <= r.2) /\ (forall x, x ∈ l1 -> x.2 < r.2).
Proof.
  destruct c as [|e c]; [done|]. intros _. cbn [most_common_1].
  destruct (foldl_max_first e _ c eq_refl) as (Hmax & He & Hpos).
  eexists. destruct Hpos as [Hr|(l1 & l2 & Hc & Hlt & Hl1)].
  - exists [], c. split; [done|]. split; [by rewrite Hr|].
    split; [|by intros ? ?%elem_of_nil].
    intros y Hy. apply elem_of_cons in Hy as [Hy|Hy]; [rewrite Hy; lia|auto].
  - exists (e :: l1), l2. split; [done|]. split; [by rewrite Hc at 1|].
    split; intros y Hy; apply elem_of_cons in Hy as [Hy|Hy];
      try (rewrite Hy; lia); auto.
Qed.

Lemma body_style_in_histogram (c : Counter) :
  c <> [] ->
  exists body w l1 l2, body_style_of c = Ok body /\ c = l1 ++ (body, w) :: l2 /\
    (forall x, x ∈ c -> x.2 <= w) /\ (forall x, x ∈ l1 -> x.2 < w).
Proof.
  intros Hc. destruct (most_common_1_first_max c Hc)
    as ([body w] & l1 & l2 & Hmc & Hsplit & Hmax & Hfirst).
  exists body, w, l1, l2. unfold body_style_of. by rewrite Hmc.
Qed.

(** C10: the body style is an entry of greatest weight, and among several
    of that weight it is the one whose first block comes first in the scan;
    it is a function of the block sequence alone. *)
Theorem C10_body_style_first_of_ties (doc : Document) (st : ScanState) :
  scan doc = Ok st -> styles st <> [] ->
  exists body w,
    body_style_of (styles st) = Ok body /\
    body_style_of (histogram_of (all_blocks st)) = Ok body /\
    (body, w) ∈ styles st /\
    (forall k' w', (k', w') ∈ styles st -> w' <= w) /\
    (forall k', k' <> body -> (k', w) ∈ styles st ->
       exists i b, all_blocks st !! i = Some b /\ style b = body /\
         forall j b', all_blocks st !! j = Some b' -> style b' = k' -> (i < j)%nat).
Proof.
  intros Hscan Hne. destruct (scan_invariant_holds _ _ Hscan) as [Hhist _].
  destruct (body_style_in_histogram _ Hne)
    as (body & w & l1 & l2 & Hbody & Hsplit & Hmax & Hfirst).
  exists body, w. split; [done|]. split; [by rewrite <- Hhist|].
  split; [rewrite Hsplit; apply elem_of_app; right; apply elem_of_cons; by left|].
  split; [intros k' w' Hin; apply (Hmax _ Hin)|].
  intros k' Hk' Hin. rewrite Hsplit in Hin.
  apply elem_of_app in Hin as [Hin|Hin]; [apply Hfirst in Hin; simpl in Hin; lia|].
  apply elem_of_cons in Hin as [Hin|Hin]; [congruence|].
  apply list_elem_of_lookup_1 in Hin as [q Hq].
  pose proof (histogram_keys (all_blocks st)) as Hkeys. rewrite <- Hhist, Hsplit in Hkeys.
  destruct (first_seen_order (map style (all_blocks st)) (length l1) (length l1 + S q) body k')
    as (i & Hi & Hlt).
  - lia.
  - rewrite <- Hkeys, map_app. rewrite lookup_app_r by (rewrite length_map; lia).
    rewrite length_map, Nat.sub_diag. done.
  - rewrite <- Hkeys, map_app. rewrite lookup_app_r by (rewrite length_map; lia).
    rewrite length_map. replace (length l1 + S q - length l1)%nat with (S q) by lia.
    cbn [map lookup list_lookup]. change (map fst l2 !! q) with ((fst <$> l2) !! q).
    by rewrite list_lookup_fmap, Hq.
  - change (map style (all_blocks st)) with (style <$> all_blocks st) in Hi, Hlt.
    rewrite list_lookup_fmap in Hi.
    destruct (all_blocks st !! i) as [b|] eqn:Hb; [|done].
    exists i, b. split; [done|]. split; [by inversion Hi|].
    intros j b' Hj Hst. apply Hlt. by rewrite list_lookup_fmap, Hj, <- Hst.
Qed.

Lemma C10_witness :
  exists body w,
    body_style_of (styles st_ties) = Ok body /\
    body_style_of (histogram_of (all_blocks st_ties)) = Ok body /\
    (body, w) ∈ styles st_ties /\
    (forall k' w', (k', w') ∈ styles st_ties -> w' <= w) /\
    (forall k', k' <> body -> (k', w) ∈ styles st_ties ->
       exists i b, all_blocks st_ties !! i = Some b /\ style b = body /\
         forall j b', all_blocks st_ties !! j = Some b' -> style b' = k' -> (i < j)%nat).
Proof.
  apply (C10_body_style_first_of_ties doc_ties st_ties); [reflexivity|discriminate].
Defined.

(** ** Heading styles *)

Lemma is_heading_style_spec (body s : StyleKey) :
  is_heading_style body s = true <->
  s.1 > body.1 \/ (s.1 = body.1 /\ s.2 > body.2).
Proof.
  unfold is_heading_style.
  rewrite orb_true_iff, andb_true_iff, !Z.gtb_ltb, !Z.ltb_lt, Z.eqb_eq. lia.
Qed.

Lemma heading_styles_elem (c : Counter) (body s : StyleKey) :
  s ∈ heading_styles_of c body <->
  s ∈ map fst c /\ (s.1 > body.1 \/ (s.1 = body.1 /\ s.2 > body.2)).
Proof.
  unfold heading_styles_of.
  rewrite elem_of_list_to_set, list_elem_of_filter, is_heading_style_spec. tauto.
Qed.

Lemma scan_keys_flags doc st s :
  scan doc = Ok st -> s ∈ map fst (styles st) -> s.2 = 0 \/ s.2 = 1.
Proof.
  intros Hscan Hs. destruct (scan_invariant_holds _ _ Hscan) as [Hhist Hall].
  rewrite Hhist, histogram_keys, first_seen_elem in Hs.
  apply list_elem_of_fmap in Hs as (b & -> & Hb).
  rewrite Forall_forall in Hall. by apply Hall.
Qed.

(** C1: on a non-empty histogram a style is a heading style exactly when
    it is larger than the body style, or as large and emphasised while the
    body style is not; the body style is no heading style, and no heading
    style is smaller than the body style. *)
Theorem C1_heading_style_iff (doc : Document) (st : ScanState) :
  scan doc = Ok st -> styles st <> [] ->
  exists body,
    body_style_of (styles st) = Ok body /\
    body ∈ map fst (styles st) /\
    (forall s, s ∈ map fst (styles st) ->
       (s ∈ heading_styles_of (styles st) body <->
        s.1 > body.1 \/ (s.1 = body.1 /\ s.2 <> 0 /\ body.2 = 0))) /\
    (forall s, s ∈ heading_styles_of (styles st) body -> s ∈ map fst (styles st)) /\
    (body ∉ heading_styles_of (styles st) body) /\
    (forall s, s ∈ heading_styles_of (styles st) body -> s.1 >= body.1).
Proof.
  intros Hscan Hne.
  destruct (body_style_in_histogram _ Hne)
    as (body & w & l1 & l2 & Hbody & Hsplit & _ & _).
  assert (Hin : body ∈ map fst (styles st)).
  { rewrite Hsplit, map_app. apply elem_of_app. right. apply elem_of_cons. by left. }
  exists body. split; [done|]. split; [done|].
  pose proof (scan_keys_flags _ _ body Hscan Hin) as Hbflag.
  repeat split.
  - intros Hs. apply heading_styles_elem in Hs as [_ Hs].
    pose proof (scan_keys_flags _ _ s Hscan H) as Hsflag. lia.
  - intros Hs. apply heading_styles_elem. split; [done|].
    pose proof (scan_keys_flags _ _ s Hscan H) as Hsflag. lia.
  - intros s Hs. by apply heading_styles_elem in Hs as [? _].
  - intros Hb. apply heading_styles_elem in Hb as [_ Hb]. lia.
  - intros s Hs. apply heading_styles_elem in Hs as [_ Hs]. lia.
Qed.

Lemma C1_witness :
  exists body,
    body_style_of (styles st_ties) = Ok body /\
    body ∈ map fst (styles st_ties) /\
    (forall s, s ∈ map fst (styles st_ties) ->
       (s ∈ heading_styles_of (styles st_ties) body <->
        s.1 > body.1 \/ (s.1 = body.1 /\ s.2 <> 0 /\ body.2 = 0))) /\
    (forall s, s ∈ heading_styles_of (styles st_ties) body -> s ∈ map fst (styles st_ties)) /\
    (body ∉ heading_styles_of (styles st_ties) body) /\
    (forall s, s ∈ heading_styles_of (styles st_ties) body -> s.1 >= body.1).
Proof.
  apply (C1_heading_style_iff doc_ties st_ties); [reflexivity|discriminate].
Defined.

Example doc_ties_styles :
  styles st_ties = [((12, 0), 4); ((14, 0), 4); ((12, 1), 1)] /\
  body_style_of (styles st_ties) = Ok (12, 0) /\
  sorted_heading_sizes_of (heading_styles_of (styles st_ties) (12, 0)) = [14; 12].
Proof. repeat split; vm_compute; reflexivity. Qed.

(** ** Heading sizes and the label map *)

#[local] Instance desc_trans : Transitive desc.
Proof. unfold desc. intros x y z ? ?. lia. Qed.

#[local] Instance desc_total : Total desc.
Proof. unfold desc. intros x y. lia. Qed.

Lemma sorted_sizes_perm (hs : gset StyleKey) :
  sorted_heading_sizes_of hs ≡ₚ elements (set_map fst hs : gset Z).
Proof. apply merge_sort_Permutation. Qed.

Lemma sorted_sizes_elem (hs : gset StyleKey) x :
  x ∈ sorted_heading_sizes_of hs <-> exists s, s ∈ hs /\ s.1 = x.
Proof.
  rewrite sorted_sizes_perm, elem_of_elements, elem_of_map.
  split; intros (s & ? & ?); exists s; done.
Qed.

Lemma sorted_sizes_NoDup (hs : gset StyleKey) : NoDup (sorted_heading_sizes_of hs).
Proof. rewrite sorted_sizes_perm. apply NoDup_elements. Qed.

Lemma sorted_sizes_length (hs : gset StyleKey) :
  length (sorted_heading_sizes_of hs) = size (set_map fst hs : gset Z).
Proof. by rewrite sorted_sizes_perm. Qed.

Lemma strictly_sorted (l : list Z) :
  StronglySorted desc l -> NoDup l -> StronglySorted (fun a b => b < a) l.
Proof.
  induction 1 as [|x l Hl IH Hx]; intros Hnd; [constructor|].
  apply NoDup_cons in Hnd as [Hnin Hnd]. constructor; [by apply IH|].
  rewrite Forall_forall in Hx |- *. intros y Hy.
  specialize (Hx y Hy). unfold desc in Hx.
  assert (y <> x) by (intros ->; done). lia.
Qed.

Lemma sorted_sizes_strict (hs : gset StyleKey) :
  StronglySorted (fun a b => b < a) (sorted_heading_sizes_of hs).
Proof.
  apply strictly_sorted; [|apply sorted_sizes_NoDup].
  apply StronglySorted_merge_sort; apply _.
Qed.

Lemma strictly_sorted_lookup (l : list Z) i j a b :
  StronglySorted (fun a b => b < a) l ->
  (i < j)%nat -> l !! i = Some a -> l !! j = Some b -> b < a.
Proof.
  intros Hl. revert i j. induction Hl as [|x l Hl IH Hx]; intros i j Hij Ha Hb; [done|].
  destruct j as [|j]; [lia|]. cbn in Hb. destruct i as [|i]; cbn in Ha.
  - inversion Ha; subst. rewrite Forall_forall in Hx.
    apply Hx. by eapply list_elem_of_lookup_2.
  - apply (IH i j); [lia|done..].
Qed.

Lemma level_map_snoc (l : list Z) x :
  level_map_of (l ++ [x]) =
  <[x := lit "H" ++ str_of_int (Z.of_nat (length l) + 1)]> (level_map_of l).
Proof.
  unfold level_map_of, enumerate. rewrite imap_app, foldl_app. cbn [imap foldl].
  by rewrite Nat.add_0_r.
Qed.

Lemma level_map_dom (l : list Z) x : is_Some (level_map_of l !! x) <-> x ∈ l.
Proof.
  induction l as [|y l IH] using rev_ind.
  - unfold level_map_of. cbn. rewrite lookup_empty, elem_of_nil.
    split; [by intros [? ?]|done].
  - rewrite level_map_snoc, lookup_insert_is_Some, IH, elem_of_app, list_elem_of_singleton.
    split; [intros [->|[_ ?]]; auto|].
    intros [?| ->]; [|by left]. destruct (decide (y = x)); auto.
Qed.

Lemma level_map_lookup (l : list Z) i x :
  NoDup l -> l !! i = Some x ->
  level_map_of l !! x = Some (lit "H" ++ str_of_int (Z.of_nat i + 1)).
Proof.
  revert i. induction l as [|y l IH] using rev_ind; intros i Hnd Hi;
    [by rewrite lookup_nil in Hi|].
  apply NoDup_app in Hnd as (Hnd & Hdisj & _). rewrite level_map_snoc.
  apply lookup_app_Some in Hi as [Hi|[Hlen Hi]].
  - rewrite lookup_insert_ne; [by apply IH|].
    intros ->. apply (Hdisj x); [by eapply list_elem_of_lookup_2|].
    by apply list_elem_of_singleton.
  - apply list_lookup_singleton_Some in Hi as [Hi ->].
    replace i with (length l) by lia. by rewrite lookup_insert_eq.
Qed.

Lemma level_map_size (l : list Z) : NoDup l -> size (level_map_of l) = length l.
Proof.
  induction l as [|y l IH] using rev_ind; intros Hnd; [done|].
  apply NoDup_app in Hnd as (Hnd & Hdisj & _).
  rewrite level_map_snoc, map_size_insert_None;
    [rewrite length_app, IH by done; cbn; lia|].
  apply eq_None_not_Some. rewrite level_map_dom. intros Hy.
  apply (Hdisj y Hy). by apply list_elem_of_singleton.
Qed.

(** C3: the label map gives "H1".."Hn" to the distinct heading sizes taken
    in descending order, one label per size and none skipped; heading
    styles of one size share a label. *)
Theorem C3_level_map_dense (hs : gset StyleKey) :
  let sizes := sorted_heading_sizes_of hs in
  let level_map := level_map_of sizes in
  (forall x, x ∈ sizes <-> exists s, s ∈ hs /\ s.1 = x) /\
  StronglySorted (fun a b => b < a) sizes /\
  (forall x y, sizes !! 0%nat = Some x -> y ∈ sizes -> y <= x) /\
  (forall i x, sizes !! i = Some x ->
     level_map !! x = Some (lit "H" ++ str_of_int (Z.of_nat i + 1))) /\
  (forall x lbl, level_map !! x = Some lbl ->
     exists i, sizes !! i = Some x /\ lbl = lit "H" ++ str_of_int (Z.of_nat i + 1)) /\
  size level_map = length sizes /\
  length sizes = size (set_map fst hs : gset Z) /\
  (forall s1 s2, s1 ∈ hs -> s2 ∈ hs -> s1.1 = s2.1 ->
     is_Some (level_map !! s1.1) /\ level_map !! s1.1 = level_map !! s2.1).
Proof.
  intros sizes level_map. pose proof (sorted_sizes_NoDup hs) as Hnd.
  pose proof (sorted_sizes_strict hs) as Hsorted. fold sizes in Hnd, Hsorted.
  split; [apply sorted_sizes_elem|]. split; [done|]. split.
  { intros x y Hx Hy. apply list_elem_of_lookup_1 in Hy as [j Hj].
    destruct j as [|j]; [assert (x = y) by congruence; lia|].
    assert (y < x); [|lia].
    apply (strictly_sorted_lookup sizes 0 (S j) x y Hsorted); [lia|done..]. }
  split; [intros i x Hi; by apply level_map_lookup|]. split.
  { intros x lbl Hx. assert (Hin : x ∈ sizes) by (apply level_map_dom; eauto).
    apply list_elem_of_lookup_1 in Hin as [i Hi]. exists i. split; [done|].
    pose proof (level_map_lookup sizes i x Hnd Hi) as Hl. fold level_map in Hl.
    congruence. }
  split; [by apply level_map_size|]. split; [apply sorted_sizes_length|].
  intros s1 s2 Hs1 Hs2 Heq. split; [|by rewrite Heq].
  apply level_map_dom, sorted_sizes_elem. by exists s1.
Qed.

(** ** Strings *)

Lemma lstrip_elem (s : str) x : x ∈ lstrip s -> x ∈ s.
Proof.
  induction s as [|c s IH]; [done|]. cbn [lstrip].
  destruct (py_isspace c); [|done]. intros ?. apply elem_of_cons. auto.
Qed.

Lemma lstrip_keeps (s : str) x : x ∈ s -> py_isspace x = false -> x ∈ lstrip s.
Proof.
  intros Hx Hsp. induction s as [|c s IH]; [done|]. cbn [lstrip].
  destruct (py_isspace c) eqn:Hc; [|done].
  apply elem_of_cons in Hx as [->|Hx]; [congruence|auto].
Qed.

Lemma strip_elem (s : str) x : x ∈ strip s -> x ∈ s.
Proof.
  unfold strip, rstrip. rewrite elem_of_reverse. intros H%lstrip_elem.
  rewrite elem_of_reverse in H. by apply lstrip_elem.
Qed.

Lemma strip_keeps (s : str) x : x ∈ s -> py_isspace x = false -> x ∈ strip s.
Proof.
  intros Hx Hsp. unfold strip, rstrip. rewrite elem_of_reverse.
  apply lstrip_keeps; [|done]. rewrite elem_of_reverse. by apply lstrip_keeps.
Qed.

Lemma split_elem sep (s : str) line x : line ∈ split sep s -> x ∈ line -> x ∈ s.
Proof.
  revert line. induction s as [|c s IH]; intros line Hline Hx; cbn [split] in Hline.
  - apply list_elem_of_singleton in Hline as ->. done.
  - destruct (c =? sep).
    + apply elem_of_cons in Hline as [->|Hline]; [by apply elem_of_nil in Hx|].
      apply elem_of_cons. right. by eapply IH.
    + destruct (split sep s) as [|l ls] eqn:Hs.
      * apply list_elem_of_singleton in Hline as ->. apply list_elem_of_singleton in Hx as ->.
        apply elem_of_cons. by left.
      * apply elem_of_cons in Hline as [->|Hline].
        -- apply elem_of_cons in Hx as [->|Hx]; apply elem_of_cons; [by left|right].
           apply (IH l); [apply elem_of_cons; by left|done].
        -- apply elem_of_cons. right. apply (IH line); [|done].
           apply elem_of_cons. by right.
Qed.

Lemma existsb_fmap {A B} (f : B -> bool) (g : A -> B) (l : list A) :
  existsb f (map g l) = existsb (fun x => f (g x)) l.
Proof. induction l as [|x l IH]; [done|]. cbn. by rewrite IH. Qed.

(** ** The second loop *)

Section AssemblerFacts.
Context {U : UnicodeData}.

Lemma list_lines_fold (b : TextBlock) (lines : list str) (acc : Assembly) :
  foldl (list_line b 0) acc lines =
  {| content_sections :=
       content_sections acc ++ map (list_item_section b) (omap bullet_item lines);
     outline := outline acc;
     lists := lists acc ++ map (list_record b) (omap bullet_item lines) |}.
Proof.
  revert acc. induction lines as [|line lines IH]; intros acc; cbn [foldl].
  - cbn. rewrite !app_nil_r. by destruct acc.
  - rewrite IH. unfold list_line. cbn [omap list_omap].
    replace (bullet_item line) with
      (match re_match bullet_pattern (strip line) with
       | Some m => Some (strip (group 2 m))
       | None => None
       end) by done.
    destruct (re_match bullet_pattern (strip line)) as [m|]; [|done].
    cbn [content_sections outline lists map]. by rewrite <- !app_assoc.
Qed.

(** The list branch. *)
Lemma assemble_block_list hs sizes lm (acc : Assembly) (b : TextBlock) :
  is_dots_block b = false -> is_list_block b = true ->
  assemble_block hs sizes lm acc b =
  Ok {| content_sections :=
          content_sections acc ++ map (list_item_section b) (bullet_items b);
        outline := outline acc;
        lists := lists acc ++ map (list_record b) (bullet_items b) |}.
Proof.
  unfold is_dots_block, is_list_block, assemble_block. intros -> Hlist.
  rewrite existsb_fmap. unfold is_bullet_line in Hlist. rewrite Hlist.
  by rewrite list_lines_fold.
Qed.

(** Whatever the branch, a step only appends, and what it appends to the
    list records are one-item records. *)
Lemma assemble_block_appends hs sizes lm (acc acc' : Assembly) (b : TextBlock) :
  assemble_block hs sizes lm acc b = Ok acc' ->
  exists new_sections new_entries items,
    content_sections acc' = content_sections acc ++ new_sections /\
    outline acc' = outline acc ++ new_entries /\
    lists acc' = lists acc ++ map (list_record b) items.
Proof.
  unfold assemble_block. intros Hrun.
  destruct (forallb _ _).
  { inversion Hrun; subst. exists [], [], []. by rewrite !app_nil_r. }
  destruct (existsb _ _).
  { inversion Hrun; subst. rewrite list_lines_fold. cbn.
    eexists _, [], _. split_and!; [done|by rewrite app_nil_r|done]. }
  destruct (bool_decide _).
  - destruct (py_index _ _) as [idx|e]; [|done]. cbn in Hrun.
    inversion Hrun; subst. cbn. eexists _, _, [].
    split_and!; [done..|by rewrite app_nil_r].
  - inversion Hrun; subst. cbn. eexists _, [], [].
    split_and!; [done|by rewrite app_nil_r..].
Qed.

Lemma for_each_app {A S} (body : S -> A -> result S) (xs ys : list A) (s : S) :
  for_each body (xs ++ ys) s = (s' ← for_each body xs s; for_each body ys s').
Proof.
  revert s. induction xs as [|x xs IH]; intros s; [done|]. cbn.
  destruct (body s x); [apply IH|done].
Qed.

Lemma no_bullet_items (lines : list str) :
  existsb is_bullet_line lines = false -> omap bullet_item lines = [].
Proof.
  induction lines as [|line lines IH]; [done|]. cbn [existsb omap list_omap].
  intros [Hline Hrest]%orb_false_iff. rewrite (IH Hrest).
  unfold is_bullet_line in Hline. unfold bullet_item.
  destruct (re_match bullet_pattern (strip line)); [|done].
  apply bool_decide_eq_false in Hline. destruct Hline. by eexists.
Qed.

Lemma bullet_item_None (line : str) :
  bullet_item line = None <-> is_bullet_line line <> true.
Proof.
  unfold bullet_item, is_bullet_line.
  destruct (re_match bullet_pattern (strip line)) as [m|].
  - rewrite bool_decide_eq_true_2 by (by eexists). split; done.
  - split; [|done]. intros _ H%bool_decide_eq_true. by destruct H.
Qed.

Lemma bullet_items_count (lines : list str) :
  length (omap bullet_item lines) =
  length (filter (fun l => is_bullet_line l = true) lines).
Proof.
  induction lines as [|line lines IH]; [done|]. cbn [omap list_omap].
  rewrite filter_cons. destruct (decide (is_bullet_line line = true)) as [Hb|Hb].
  - destruct (bullet_item line) eqn:Hi; [cbn; by rewrite IH|].
    by apply bullet_item_None in Hi.
  - apply bullet_item_None in Hb. by rewrite Hb.
Qed.

(** What one step adds to the list records. *)
Lemma assemble_block_records hs sizes lm (acc acc' : Assembly) (b : TextBlock) :
  assemble_block hs sizes lm acc b = Ok acc' ->
  lists acc' = lists acc ++ block_records b.
Proof.
  unfold block_records. destruct (is_dots_block b) eqn:Hdots.
  { unfold assemble_block. unfold is_dots_block in Hdots. rewrite Hdots.
    intros [= <-]. by rewrite app_nil_r. }
  destruct (is_list_block b) eqn:Hlist.
  { rewrite assemble_block_list by done. by intros [= <-]. }
  unfold bullet_items. unfold is_list_block in Hlist. rewrite (no_bullet_items _ Hlist).
  unfold assemble_block. unfold is_dots_block in Hdots. rewrite Hdots.
  rewrite existsb_fmap. unfold is_bullet_line in Hlist. rewrite Hlist.
  destruct (bool_decide _).
  - destruct (py_index _ _); [|done]. cbn. intros [= <-]. cbn. by rewrite app_nil_r.
  - intros [= <-]. cbn. by rewrite app_nil_r.
Qed.

Lemma assemble_records hs sizes lm (blocks : list TextBlock) (acc final : Assembly) :
  for_each (assemble_block hs sizes lm) blocks acc = Ok final ->
  lists final = lists acc ++ flat_map block_records blocks.
Proof.
  revert acc. induction blocks as [|b blocks IH]; intros acc Hrun; cbn in Hrun.
  - inversion Hrun; subst. by rewrite app_nil_r.
  - destruct (assemble_block hs sizes lm acc b) as [acc1|] eqn:Hb; [|done].
    cbn in Hrun. rewrite (IH _ Hrun), (assemble_block_records _ _ _ _ _ _ Hb).
    cbn [flat_map]. by rewrite app_assoc.
Qed.

Lemma assemble_sections_kept hs sizes lm (blocks : list TextBlock)
    (acc final : Assembly) (s : ContentSection) :
  for_each (assemble_block hs sizes lm) blocks acc = Ok final ->
  s ∈ content_sections acc -> s ∈ content_sections final.
Proof.
  revert acc. induction blocks as [|b blocks IH]; intros acc Hrun Hs; cbn in Hrun.
  - by inversion Hrun; subst.
  - destruct (assemble_block hs sizes lm acc b) as [acc1|] eqn:Hb; [|done].
    cbn in Hrun. apply (IH _ Hrun).
    destruct (assemble_block_appends _ _ _ _ _ _ Hb) as (new & _ & _ & -> & _).
    apply elem_of_app. by left.
Qed.
End AssemblerFacts.

Lemma py_index_elem (x : Z) (l : list Z) :
  x ∈ l -> exists i, py_index x l = Ok i /\ l !! i = Some x.
Proof.
  intros Hx. unfold py_index.
  destruct (list_find (fun y => y = x) l) as [[i y]|] eqn:Hfind.
  - apply list_find_Some in Hfind as (Hi & -> & _). by exists i.
  - apply list_find_None in Hfind. rewrite Forall_forall in Hfind.
    by destruct (Hfind x Hx).
Qed.

(** C2: a block sent down the heading branch gets the number of distinct
    heading sizes minus the rank of its size among them in descending
    order; the same number goes into the outline entry and into the heading
    section, both of which are appended.  The largest heading size gets the
    count itself and the smallest gets 1. *)
Theorem C2_heading_level {U : UnicodeData} (hs : gset StyleKey) (acc : Assembly)
    (b : TextBlock) :
  emitted_as_heading hs b ->
  exists rank : nat,
    sorted_heading_sizes_of hs !! rank = Some (style b).1 /\
    (rank < size (set_map fst hs : gset Z))%nat /\
    assemble_block hs (sorted_heading_sizes_of hs)
        (level_map_of (sorted_heading_sizes_of hs)) acc b =
      Ok {| content_sections := content_sections acc ++
              [heading_section b (Z.of_nat (size (set_map fst hs : gset Z)) - Z.of_nat rank)];
            outline := outline acc ++
              [heading_entry b (Z.of_nat (size (set_map fst hs : gset Z)) - Z.of_nat rank)];
            lists := lists acc |} /\
    ((forall s, s ∈ hs -> s.1 <= (style b).1) ->
       Z.of_nat (size (set_map fst hs : gset Z)) - Z.of_nat rank
       = Z.of_nat (size (set_map fst hs : gset Z))) /\
    ((forall s, s ∈ hs -> (style b).1 <= s.1) ->
       Z.of_nat (size (set_map fst hs : gset Z)) - Z.of_nat rank = 1).
Proof.
  intros (Hdots & Hlist & Hstyle).
  set (sizes := sorted_heading_sizes_of hs).
  assert (Hin : (style b).1 ∈ sizes) by (apply sorted_sizes_elem; by exists (style b)).
  destruct (py_index_elem _ _ Hin) as (rank & Hidx & Hrank).
  pose proof (sorted_sizes_length hs) as Hlen. fold sizes in Hlen.
  pose proof (sorted_sizes_strict hs) as Hsorted. fold sizes in Hsorted.
  pose proof (lookup_lt_Some _ _ _ Hrank) as Hlt.
  exists rank. split; [done|]. split; [lia|]. split; [|split].
  - unfold assemble_block. unfold is_dots_block in Hdots. rewrite Hdots.
    rewrite existsb_fmap. unfold is_list_block, is_bullet_line in Hlist. rewrite Hlist.
    rewrite bool_decide_eq_true_2 by done. rewrite Hidx. cbn.
    rewrite level_map_size by apply sorted_sizes_NoDup. fold sizes. by rewrite Hlen.
  - intros Hmax. destruct rank as [|rank]; [lia|]. exfalso.
    destruct (lookup_lt_is_Some_2 sizes 0) as [y Hy]; [lia|].
    assert (Hy' : y ∈ sizes) by (by eapply list_elem_of_lookup_2).
    apply sorted_sizes_elem in Hy' as (s & Hs & <-).
    pose proof (strictly_sorted_lookup sizes 0 (S rank) _ _ Hsorted ltac:(lia) Hy Hrank).
    specialize (Hmax s Hs). lia.
  - intros Hmin. destruct (decide (S rank = length sizes)) as [Heq|Hne]; [lia|]. exfalso.
    destruct (lookup_lt_is_Some_2 sizes (S rank)) as [y Hy]; [lia|].
    assert (Hy' : y ∈ sizes) by (by eapply list_elem_of_lookup_2).
    apply sorted_sizes_elem in Hy' as (s & Hs & <-).
    pose proof (strictly_sorted_lookup sizes rank (S rank) _ _ Hsorted ltac:(lia) Hrank Hy).
    specialize (Hmin s Hs). lia.
Qed.

Lemma C2_witness :
  emitted_as_heading (U:=latin1) two_heading_styles title_block /\
  exists rank : nat,
    sorted_heading_sizes_of two_heading_styles !! rank = Some 24 /\
    (rank < size (set_map fst two_heading_styles : gset Z))%nat /\
    assemble_block (U:=latin1) two_heading_styles
        (sorted_heading_sizes_of two_heading_styles)
        (level_map_of (sorted_heading_sizes_of two_heading_styles))
        empty_assembly title_block =
      Ok {| content_sections :=
              [heading_section title_block
                 (Z.of_nat (size (set_map fst two_heading_styles : gset Z)) - Z.of_nat rank)];
            outline :=
              [heading_entry title_block
                 (Z.of_nat (size (set_map fst two_heading_styles : gset Z)) - Z.of_nat rank)];
            lists := [] |}.
Proof.
  assert (H : emitted_as_heading (U:=latin1) two_heading_styles title_block).
  { split; [vm_compute; reflexivity|]. split; [vm_compute; reflexivity|].
    apply (bool_decide_unpack _). vm_compute. exact I. }
  split; [exact H|].
  destruct (C2_heading_level (U:=latin1) two_heading_styles empty_assembly title_block H)
    as (rank & Hrank & Hlt & Hrun & _).
  exists rank. split; [exact Hrank|]. split; [exact Hlt|]. exact Hrun.
Defined.

Example title_block_level :
  assemble_block (U:=latin1) two_heading_styles
    (sorted_heading_sizes_of two_heading_styles)
    (level_map_of (sorted_heading_sizes_of two_heading_styles))
    empty_assembly title_block =
  Ok {| content_sections := [heading_section title_block 2];
        outline := [heading_entry title_block 2];
        lists := [] |}.
Proof. vm_compute. reflexivity. Qed.

(** ** Bulleted lines *)

(** C4: a block with the line "• Buy milk" goes down the list branch: the
    step succeeds and appends exactly one list-item section, of level 0,
    per bullet-matching line of the block, the one for this line having the
    content "Buy milk"; nothing else is appended for the block, and the
    section is in what the whole loop returns. *)
Theorem C4_bullet_line_is_list_item {U : UnicodeData} (hs : gset StyleKey)
    (sizes : list Z) (lm : gmap Z str) (b : TextBlock) (line : str) :
  line ∈ split NL (text b) -> strip line = BULLET :: lit " Buy milk" ->
  (forall acc, exists acc',
     assemble_block hs sizes lm acc b = Ok acc' /\
     content_sections acc' =
       content_sections acc ++ map (list_item_section b) (bullet_items b) /\
     outline acc' = outline acc) /\
  lit "Buy milk" ∈ bullet_items b /\
  length (bullet_items b) =
    length (filter (fun l => is_bullet_line l = true) (split NL (text b))) /\
  (forall s, s ∈ map (list_item_section b) (bullet_items b) ->
     cs_type s = T_list_item /\ cs_level s = 0) /\
  (forall blocks final,
     b ∈ blocks ->
     for_each (assemble_block hs sizes lm) blocks empty_assembly = Ok final ->
     list_item_section b (lit "Buy milk") ∈ content_sections final).
Proof.
  intros Hline Hstrip.
  assert (Hbullet : BULLET ∈ strip (text b)).
  { apply strip_keeps; [|done]. apply (split_elem NL _ line); [done|].
    apply strip_elem. rewrite Hstrip. apply elem_of_cons. by left. }
  assert (Hdots : is_dots_block b = false).
  { unfold is_dots_block. destruct (forallb _ _) eqn:Hall; [|done].
    rewrite forallb_forall in Hall. apply list_elem_of_In, Hall in Hbullet. done. }
  assert (Hitem : bullet_item line = Some (lit "Buy milk")).
  { unfold bullet_item. rewrite Hstrip. vm_compute. reflexivity. }
  assert (Hlist : is_list_block b = true).
  { unfold is_list_block. apply existsb_exists. exists line.
    split; [by apply list_elem_of_In|].
    unfold is_bullet_line. rewrite Hstrip. vm_compute. reflexivity. }
  assert (Hin : lit "Buy milk" ∈ bullet_items b).
  { unfold bullet_items. apply list_elem_of_omap. by exists line. }
  assert (Hstep : forall acc,
     assemble_block hs sizes lm acc b =
     Ok {| content_sections :=
             content_sections acc ++ map (list_item_section b) (bullet_items b);
           outline := outline acc;
           lists := lists acc ++ map (list_record b) (bullet_items b) |})
    by (intros; by apply assemble_block_list).
  split; [intros acc; eexists; split; [apply Hstep|done]|].
  split; [done|]. split; [apply bullet_items_count|]. split.
  { intros s (item & -> & _)%list_elem_of_fmap. done. }
  intros blocks final Hb Hrun.
  apply list_elem_of_split in Hb as (l1 & l2 & ->).
  rewrite for_each_app in Hrun.
  destruct (for_each (assemble_block hs sizes lm) l1 empty_assembly) as [acc1|]; [|done].
  cbn in Hrun. rewrite Hstep in Hrun. cbn in Hrun.
  eapply assemble_sections_kept; [exact Hrun|]. cbn.
  apply elem_of_app. right. by apply list_elem_of_fmap_2.
Qed.

Lemma C4_witness :
  (BULLET :: lit " Buy milk") ∈ split NL (text shopping_block) /\
  strip (BULLET :: lit " Buy milk") = BULLET :: lit " Buy milk" /\
  lit "Buy milk" ∈ bullet_items (U:=latin1) shopping_block /\
  length (bullet_items (U:=latin1) shopping_block) =
    length (filter (fun l => is_bullet_line (U:=latin1) l = true)
                   (split NL (text shopping_block))).
Proof.
  assert (H1 : (BULLET :: lit " Buy milk") ∈ split NL (text shopping_block)).
  { vm_compute. apply elem_of_cons. by left. }
  assert (H2 : strip (BULLET :: lit " Buy milk") = BULLET :: lit " Buy milk").
  { vm_compute. reflexivity. }
  split; [exact H1|]. split; [exact H2|].
  destruct (C4_bullet_line_is_list_item (U:=latin1) ∅ [] ∅ shopping_block _ H1 H2)
    as (_ & Hin & Hlen & _).
  split; [exact Hin|exact Hlen].
Defined.

Example shopping_block_sections :
  assemble_block (U:=latin1) ∅ [] ∅ empty_assembly shopping_block =
  Ok {| content_sections := [list_item_section shopping_block (lit "Buy milk");
                             list_item_section shopping_block (lit "eggs")];
        outline := [];
        lists := [list_record shopping_block (lit "Buy milk");
                  list_record shopping_block (lit "eggs")] |}.
Proof. vm_compute. reflexivity. Qed.

(** ** List records *)

Lemma counter_add_nonempty k n c : counter_add k n c <> [].
Proof. destruct c as [|[k' v] c]; cbn; [done|]. by destruct (decide (k = k')). Qed.

Lemma histogram_empty (blocks : list TextBlock) : histogram_of blocks = [] -> blocks = [].
Proof.
  destruct blocks as [|b blocks _] using rev_ind; [done|].
  unfold histogram_of. rewrite foldl_app. cbn [foldl]. intros H.
  by apply counter_add_nonempty in H.
Qed.

Lemma extract_lists {U : UnicodeData} (doc : Document) cs o ft ls :
  extract_content_and_outline doc = Ok (cs, o, ft, ls) ->
  exists st, scan doc = Ok st /\ ls = flat_map block_records (all_blocks st).
Proof.
  unfold extract_content_and_outline. intros Hrun.
  destruct (scan doc) as [st|] eqn:Hscan; [|done]. cbn in Hrun.
  exists st. split; [done|].
  destruct (scan_invariant_holds _ _ Hscan) as [Hhist _].
  destruct (styles st) as [|e c] eqn:Hstyles.
  - inversion Hrun; subst. symmetry in Hhist. apply histogram_empty in Hhist.
    by rewrite Hhist.
  - destruct (body_style_of (e :: c)) as [body|]; [|done]. cbn in Hrun.
    destruct (for_each _ (all_blocks st) empty_assembly) as [acc|] eqn:Hloop; [|done].
    cbn in Hrun. inversion Hrun; subst. by apply assemble_records in Hloop.
Qed.

(** C9: the list records returned for a document are, block after block,
    one record per bullet-matching line of each block the loop does not
    skip, and every one of them holds exactly one item. *)
Theorem C9_list_records_are_singletons {U : UnicodeData} (doc : Document)
    (cs : list ContentSection) (o : list OutlineEntry) (ft : str) (ls : list ListRecord) :
  extract_content_and_outline doc = Ok (cs, o, ft, ls) ->
  Forall (fun r => exists item, lr_items r = [item]) ls /\
  exists st, scan doc = Ok st /\
    ls = flat_map block_records (all_blocks st) /\
    forall b, is_dots_block b = false ->
      block_records b = map (fun item => {| lr_page := page b; lr_items := [item] |})
                            (bullet_items b) /\
      length (block_records b) =
        length (filter (fun l => is_bullet_line l = true) (split NL (text b))).
Proof.
  intros Hrun. destruct (extract_lists _ _ _ _ _ Hrun) as (st & Hscan & ->).
  split.
  - apply Forall_forall. intros r Hr. apply list_elem_of_In, in_flat_map in Hr
      as (b & _ & Hr). unfold block_records in Hr.
    destruct (is_dots_block b); [done|].
    apply in_map_iff in Hr as (item & <- & _). by exists item.
  - exists st. split; [done|]. split; [done|]. intros b Hdots.
    unfold block_records. rewrite Hdots. split; [done|].
    rewrite length_map. apply bullet_items_count.
Qed.

Lemma C9_witness :
  extract_content_and_outline (U:=latin1) doc_outline = Ok doc_outline_parts /\
  Forall (fun r => exists item, lr_items r = [item]) doc_outline_parts.2.
Proof.
  assert (H : extract_content_and_outline (U:=latin1) doc_outline =
              Ok (doc_outline_parts.1.1.1, doc_outline_parts.1.1.2,
                  doc_outline_parts.1.2, doc_outline_parts.2))
    by (vm_compute; reflexivity).
  split; [vm_compute; reflexivity|].
  exact (proj1 (C9_list_records_are_singletons (U:=latin1) doc_outline _ _ _ _ H)).
Defined.

Example doc_outline_lists :
  doc_outline_parts.2 =
  [ {| lr_page := 1; lr_items := [lit "Buy milk"] |};
    {| lr_page := 1; lr_items := [lit "eggs"] |} ].
Proof. reflexivity. Qed.

(** ** Static form fields *)

Section FieldFacts.
Context {U : UnicodeData}.

Lemma int_of_digits_loop (s : str) (n : Z) :
  Forall (fun c => uni_digit c = true) s ->
  exists n', foldl (fun acc c =>
                      n ← acc;
                      match decimal c with
                      | Some d => Ok (10 * n + d)
                      | None => Raise ValueError
                      end) (Ok n) s = Ok n'.
Proof.
  intros Hs. revert n. induction Hs as [|c s Hc Hs IH]; intros n; [by eexists|].
  cbn [foldl]. unfold uni_digit in Hc. cbn. destruct (decimal c) as [d|]; [|done].
  apply IH.
Qed.

Lemma int_loop_raise (s : str) : forall (acc : result Z) (e : exn),
  foldl (fun acc c =>
           n ← acc;
           match decimal c with
           | Some d => Ok (10 * n + d)
           | None => Raise ValueError
           end) acc s = Raise e ->
  acc = Raise e \/ e = ValueError.
Proof.
  induction s as [|c s IH]; intros acc e Hrun; [by left|].
  cbn [foldl] in Hrun. apply IH in Hrun as [Hstep|?]; [|by right].
  destruct acc as [n|e0]; cbn in Hstep; [|by left].
  destruct (decimal c); [done|]. right. by inversion Hstep.
Qed.

(** [int] raises nothing but [ValueError], which the handler catches. *)
Lemma int_of_digits_only_value_error (s : str) (e : exn) :
  int_of_digits s = Raise e -> e = ValueError.
Proof.
  unfold int_of_digits. destruct s as [|c s]; [by intros [= <-]|].
  destruct (_ <? _); [by intros [= <-]|].
  intros [?|?]%int_loop_raise; done.
Qed.

(** Once the non-digits are gone, [int] converts exactly the strings of 1
    to 4300 digits. *)
Lemma int_of_digits_stripped_iff (s : str) :
  (exists n, int_of_digits (strip_non_digits s) = Ok n) <->
  strip_non_digits s <> [] /\
  Z.of_nat (length (strip_non_digits s)) <= MAX_STR_DIGITS.
Proof.
  unfold int_of_digits. destruct (strip_non_digits s) as [|c t] eqn:Hs.
  { split; [by intros [n ?]|by intros [? _]]. }
  destruct (Z.ltb_spec MAX_STR_DIGITS (Z.of_nat (length (c :: t)))) as [Hlong|Hshort].
  { split; [by intros [n ?]|]. intros [_ ?]. lia. }
  split; [done|]. intros _. apply int_of_digits_loop. rewrite <- Hs.
  unfold strip_non_digits. apply Forall_forall. by intros x [? _]%list_elem_of_filter.
Qed.
End FieldFacts.

(** C7: the field number of a candidate is [int] of its numeral with the
    non-digits removed.  When that conversion fails, which it does with a
    [ValueError] and exactly when no digit is left or more than 4300 are,
    the candidate contributes nothing: the fields are those of the
    candidates before and after it, each of which gives its field whenever
    its own numeral converts. *)
Theorem C7_unparsable_numeral_dropped {U : UnicodeData} (full_text : str)
    (before after : list cursor) (m : cursor) (e : exn) :
  finditer field_pattern full_text = before ++ m :: after ->
  int_of_digits (strip_non_digits (group 1 m)) = Raise e ->
  e = ValueError /\
  (strip_non_digits (group 1 m) = [] \/
   MAX_STR_DIGITS < Z.of_nat (length (strip_non_digits (group 1 m)))) /\
  field_of_match m = None /\
  extract_static_form_fields full_text =
    omap field_of_match before ++ omap field_of_match after /\
  (forall m', m' ∈ before ++ after ->
     strip_non_digits (group 1 m') <> [] ->
     Z.of_nat (length (strip_non_digits (group 1 m'))) <= MAX_STR_DIGITS ->
     exists n,
       int_of_digits (strip_non_digits (group 1 m')) = Ok n /\
       {| field_number := n; label := replace [NL] [SPACE] (strip (group 2 m')) |}
         ∈ extract_static_form_fields full_text) /\
  (forall f, f ∈ extract_static_form_fields full_text ->
     exists m', m' ∈ before ++ after /\ field_of_match m' = Some f).
Proof.
  intros Hfound Hfail.
  assert (Hnone : field_of_match m = None) by (unfold field_of_match; by rewrite Hfail).
  assert (Hfields : extract_static_form_fields full_text =
                    omap field_of_match before ++ omap field_of_match after).
  { unfold extract_static_form_fields. rewrite Hfound, omap_app.
    cbn [omap list_omap]. by rewrite Hnone. }
  split; [by eapply int_of_digits_only_value_error|]. split.
  { destruct (strip_non_digits (group 1 m)) as [|c t] eqn:Hs; [by left|]. right.
    destruct (Z.ltb_spec MAX_STR_DIGITS (Z.of_nat (length (c :: t)))) as [?|Hshort]; [done|].
    destruct (proj2 (int_of_digits_stripped_iff (group 1 m))) as [n Hn].
    { by rewrite Hs. }
    rewrite Hs, Hfail in Hn. done. }
  split; [done|]. split; [done|]. split.
  - intros m' Hin Hne Hlen.
    destruct (proj2 (int_of_digits_stripped_iff (group 1 m')) (conj Hne Hlen)) as [n Hn].
    exists n. split; [done|]. rewrite Hfields, <- omap_app.
    apply list_elem_of_omap. exists m'. split; [done|].
    unfold field_of_match. by rewrite Hn.
  - intros f Hf. rewrite Hfields, <- omap_app in Hf.
    by apply list_elem_of_omap in Hf.
Qed.

Example two_candidates_one_field :
  length (finditer (U:=latin1) (field_pattern (U:=latin1)) two_candidates) = 2%nat /\
  extract_static_form_fields (U:=latin1) two_candidates =
    [ {| field_number := 3; label := lit "Enter your name" |} ].
Proof. split; vm_compute; reflexivity. Qed.

Lemma C7_witness :
  finditer (U:=latin1) (field_pattern (U:=latin1)) two_candidates =
    [] ++ dropped_candidate :: kept_candidates /\
  int_of_digits (U:=latin1) (strip_non_digits (U:=latin1) (group 1 dropped_candidate)) =
    Raise ValueError /\
  extract_static_form_fields (U:=latin1) two_candidates = [wanted_field].
Proof.
  assert (H1 : finditer (U:=latin1) (field_pattern (U:=latin1)) two_candidates =
               [] ++ dropped_candidate :: kept_candidates) by (vm_compute; reflexivity).
  assert (H2 : int_of_digits (U:=latin1)
                 (strip_non_digits (U:=latin1) (group 1 dropped_candidate)) =
               Raise ValueError) by (vm_compute; reflexivity).
  split; [exact H1|]. split; [exact H2|].
  destruct (C7_unparsable_numeral_dropped (U:=latin1) two_candidates []
              kept_candidates dropped_candidate ValueError H1 H2)
    as (_ & _ & _ & Hfields & _).
  rewrite Hfields. vm_compute. reflexivity.
Defined.

(** ** Tables *)

Lemma tables_loop_stops (ps : list (Z * result (list RawTable))) i e rest acc :
  Forall (fun p => exists t, p.2 = Ok t) ps ->
  tables_loop (ps ++ (i, Raise e) :: rest) acc = tables_loop ps acc.
Proof.
  intros Hps. revert acc. induction Hps as [|[j r] ps [t Ht] Hps IH]; intros acc; [done|].
  cbn in Ht. subst r. cbn. apply IH.
Qed.

Lemma process_single_pdf_inv {U : UnicodeData} opened pdf stem out :
  process_single_pdf opened pdf stem = Ok out ->
  exists doc cs o ft ls,
    opened = Ok doc /\ extract_content_and_outline doc = Ok (cs, o, ft, ls) /\
    out = {| out_title := resolve_title (get_document_title doc) o stem;
             out_outline := o;
             out_content_sections := cs;
             out_full_text := ft;
             out_tables := extract_tables_with_pdfplumber pdf;
             out_form_fields := extract_form_fields doc;
             out_static_form_fields := extract_static_form_fields ft |}.
Proof.
  unfold process_single_pdf. destruct opened as [doc|]; [|done]. cbn.
  destruct (extract_content_and_outline doc) as [[[[cs o] ft] ls]|] eqn:Hx; [|done].
  cbn. intros [= <-]. by exists doc, cs, o, ft, ls.
Qed.

(** The claim as stated fails: the library raises on the second page, and
    the table of the first page is in the output. *)
Lemma C5_counterexample :
  plumber_raises plumber_fails_on_page_2 /\
  extract_tables_with_pdfplumber plumber_fails_on_page_2 =
    [ {| tb_page := 1; tb_data := [[lit "a"; lit "b"]; [lit "c"; []]] |} ] /\
  exists out,
    process_single_pdf (U:=latin1) (Ok doc_outline) plumber_fails_on_page_2 (lit "report")
      = Ok out /\
    out_tables out <> [].
Proof.
  split; [exists OtherError; apply elem_of_cons; right; apply elem_of_cons; by left|].
  split; [vm_compute; reflexivity|].
  eexists. split; [vm_compute; reflexivity|]. discriminate.
Qed.

(** C5, amended: when the table library raises, the table list holds the
    tables of the pages before the failing one (none when opening the file
    fails or the first page fails); the rest of the output is what it would
    be with any other behaviour of the table library. *)
Theorem C5_tables_up_to_failure {U : UnicodeData} (opened : result Document)
    (stem : str) (before : list (list RawTable)) (e : exn)
    (after : list (result (list RawTable))) :
  extract_tables_with_pdfplumber (Ok (map Ok before ++ Raise e :: after)) =
    extract_tables_with_pdfplumber (Ok (map Ok before)) /\
  extract_tables_with_pdfplumber (Ok (Raise e :: after)) = [] /\
  extract_tables_with_pdfplumber (Raise e) = [] /\
  forall pdf pdf' : Plumber,
    match process_single_pdf opened pdf stem, process_single_pdf opened pdf' stem with
    | Ok out, Ok out' =>
        out_tables out = extract_tables_with_pdfplumber pdf /\
        out_title out = out_title out' /\
        out_outline out = out_outline out' /\
        out_content_sections out = out_content_sections out' /\
        out_full_text out = out_full_text out' /\
        out_form_fields out = out_form_fields out' /\
        out_static_form_fields out = out_static_form_fields out'
    | Raise e1, Raise e2 => e1 = e2
    | _, _ => False
    end.
Proof.
  split.
  { unfold extract_tables_with_pdfplumber, enumerate. rewrite imap_app. cbn [imap].
    apply tables_loop_stops. apply Forall_forall.
    intros [i r] (j & t & [= -> ->] & Hj)%elem_of_lookup_imap.
    change (map Ok before) with (Ok <$> before) in Hj.
    rewrite list_lookup_fmap in Hj. destruct (before !! j) as [t'|]; [|done].
    inversion Hj; subst. by eexists. }
  split; [done|]. split; [done|]. intros pdf pdf'.
  unfold process_single_pdf. destruct opened as [doc|]; [|done]. cbn.
  destruct (extract_content_and_outline doc) as [[[[cs o] ft] ls]|]; [|done].
  cbn. done.
Qed.

(** ** Title *)


(** The head of the sorted outline is the first entry of the outline that
    no earlier entry is at or below in the key order. *)
Lemma sorted_outline_head (xs : list OutlineEntry) e rest :
  sorted_outline xs = e :: rest ->
  exists l1 l2, xs = l1 ++ e :: l2 /\ forall y, y ∈ l1 -> key_le y e = false.
Proof.
  revert e rest. induction xs as [|x xs IH]; intros e rest Hs; [done|].
  cbn [sorted_outline foldr] in Hs. fold (sorted_outline xs) in Hs.
  destruct (sorted_outline xs) as [|h S] eqn:HS; cbn [insert_sorted] in Hs.
  - inversion Hs; subst. exists [], xs. split; [done|]. by intros ? ?%elem_of_nil.
  - destruct (key_le x h) eqn:Hle; inversion Hs; subst.
    + exists [], xs. split; [done|]. by intros ? ?%elem_of_nil.
    + destruct (IH _ _ eq_refl) as (l1 & l2 & -> & Hl1).
      exists (x :: l1), l2. split; [done|].
      intros y [->|Hy]%elem_of_cons; auto.
Qed.












Example path_stems :
  map path_stem [lit "Form123.docx"; lit "dir/report.final.pdf"; lit ".docx"; lit "notes."; lit "a/b/"]
  = [lit "Form123"; lit "report.final"; lit ".docx"; lit "notes."; lit "b"].
Proof. vm_compute. reflexivity. Qed.

Example sorted_outline_is_lexicographic :
  map oe_level
    (sorted_outline [ {| oe_level := lit "H2"; oe_text := lit "b"; oe_page := 1 |};
                      {| oe_level := lit "H10"; oe_text := lit "a"; oe_page := 9 |} ])
  = [lit "H10"; lit "H2"].
Proof. vm_compute. reflexivity. Qed.

(** ** The matcher *)

Lemma rep_greedy_inv {R} (p : Z -> bool) (k : cursor -> option R) sn op cp ah r :
  rep_greedy p k sn op cp ah = Some r ->
  exists w ah' op', ah = w ++ ah' /\ Forall (fun x => p x = true) w /\
    k (Cursor (reverse w ++ sn) ah' op' cp) = Some r.
Proof.
  revert sn op. induction ah as [|c ah IH]; intros sn op Hrun; cbn [rep_greedy] in Hrun.
  - by exists [], [], op.
  - destruct (p c) eqn:Hc; [|by exists [], (c :: ah), op].
    destruct (rep_greedy p k (c :: sn) (map (cons c) op) cp ah) as [r'|] eqn:Hrec;
      [|by exists [], (c :: ah), op].
    inversion Hrun; subst. destruct (IH _ _ Hrec) as (w & ah' & op' & -> & Hw & Hk).
    exists (c :: w), ah', op'. split; [done|]. split; [by constructor|].
    by rewrite reverse_cons, <- app_assoc.
Qed.

Section MatcherFacts.
Context {U : UnicodeData}.

(** A successful run consumed a word of the pattern's shape and handed
    the cursor behind it to the continuation. *)
Lemma run_shape (r : regex) : forall c k m,
  run r c k = Some m ->
  exists w rest op' caps',
    ahead c = w ++ rest /\ shape r w /\
    k (Cursor (reverse w ++ seen c) rest op' caps') = Some m.
Proof.
  induction r as [|p|p|r1 IH1 r2 IH2|r1 IH1 r2 IH2|n r1 IH1| | | | |r1 IH1];
    intros [sn ah op cp] k m Hrun; cbn [run seen ahead opened caps] in Hrun.
  - by exists [], ah, op, cp.
  - destruct ah as [|x ah]; [done|]. destruct (p x) eqn:Hx; [|done].
    exists [x], ah, (map (cons x) op), cp. split; [done|]. split; [by exists x|done].
  - apply rep_greedy_inv in Hrun as (w & ah' & op' & -> & Hw & Hk).
    by exists w, ah', op', cp.
  - apply IH1 in Hrun as (w1 & rest1 & op1 & cp1 & Hah & Hs1 & Hrun).
    apply IH2 in Hrun as (w2 & rest & op2 & cp2 & Hrest & Hs2 & Hk).
    cbn [seen ahead] in *. subst. exists (w1 ++ w2), rest, op2, cp2.
    split; [by rewrite <- app_assoc|]. split; [by exists w1, w2|].
    by rewrite reverse_app, <- app_assoc.
  - destruct (run r1 _ k) as [m'|] eqn:H1.
    + inversion Hrun; subst. apply IH1 in H1 as (w & rest & op' & cp' & ? & ? & ?).
      exists w, rest, op', cp'. cbn [shape]. auto.
    + apply IH2 in Hrun as (w & rest & op' & cp' & ? & ? & ?).
      exists w, rest, op', cp'. cbn [shape]. auto.
  - apply IH1 in Hrun as (w & rest & op' & cp' & ? & ? & Hk).
    cbn [seen ahead opened caps] in *. destruct op' as [|g op']; [done|].
    by eexists w, rest, _, _.
  - destruct sn; [|done]. by exists [], ah, op, cp.
  - destruct sn as [|x sn]; [by exists [], ah, op, cp|].
    destruct (x =? NL); [|done]. by exists [], ah, op, cp.
  - destruct ah as [|x ah]; [by exists [], [], op, cp|].
    destruct (x =? NL); [|done]. by exists [], (x :: ah), op, cp.
  - destruct (at_word_boundary _); [|done]. by exists [], ah, op, cp.
  - destruct (run r1 _ Some); [done|]. by exists [], ah, op, cp.
Qed.

(** What a match left ahead is a tail of the text it started on. *)
Lemma match_here_shape (r : regex) sn ah m :
  match_here r sn ah = Some m -> exists w, ah = w ++ ahead m /\ shape r w.
Proof.
  intros (w & rest & op & cp & Hah & Hs & [= <-])%run_shape. by exists w.
Qed.
End MatcherFacts.

(** ** Scanning lines *)

Section FieldScan.
Context {U : UnicodeData}.

Lemma run_bol_mid_line (r : regex) x sn ah op cp k :
  x <> NL -> run (Cat Bol r) (Cursor (x :: sn) ah op cp) k = None.
Proof. intros Hx%Z.eqb_neq. cbn [run seen]. by rewrite Hx. Qed.

Lemma no_match_mid_line x sn ah :
  x <> NL -> match_here field_pattern (x :: sn) ah = None.
Proof. intros Hx. unfold match_here, field_pattern. by apply run_bol_mid_line. Qed.


(** An attempt at the start of the wanted line, whatever came before and
    whatever line follows. *)
Lemma wanted_line_matches sn post :
  at_line_start sn -> at_line_end post ->
  exists m, match_here field_pattern sn (wanted_line ++ post) = Some m /\
            field_of_match m = Some wanted_field.
Proof.
  intros [->|[p ->]] [->|[q ->]];
    (eexists; split; [vm_compute; reflexivity|vm_compute; reflexivity]).
Qed.

(** No attempt succeeds anywhere on the appendix line. *)
Lemma appendix_line_no_match sn post (n : nat) :
  at_line_start sn -> at_line_end post ->
  match_here field_pattern (reverse (take n appendix_line) ++ sn)
             (drop n appendix_line ++ post) = None.
Proof.
  intros Hsn Hpost.
  do 18 (destruct n as [|n];
         [destruct Hsn as [->|[p ->]], Hpost as [->|[q ->]]; vm_compute; reflexivity|]).
  destruct Hsn as [->|[p ->]], Hpost as [->|[q ->]]; vm_compute; reflexivity.
Qed.
End FieldScan.

Section FieldLines.
Context {U : UnicodeData}.

(** A stretch of text on which no attempt succeeds is passed without a
    candidate. *)
Lemma finditer_passes (l : str) : forall sn rest,
  (forall n, match_here field_pattern (reverse (take n l) ++ sn) (drop n l ++ rest) = None) ->
  finditer_from field_pattern 0 sn (l ++ rest) =
  finditer_from field_pattern 0 (reverse l ++ sn) rest.
Proof.
  induction l as [|x l IH]; intros sn rest Hnone; [done|].
  cbn [app finditer_from]. rewrite (Hnone 0%nat : match_here _ sn (x :: l ++ rest) = None).
  rewrite IH; [by rewrite reverse_cons, <- app_assoc|].
  intros n. specialize (Hnone (S n)). cbn [take drop] in Hnone.
  by rewrite reverse_cons, <- app_assoc in Hnone.
Qed.

Lemma finditer_from_hit (r : regex) sn ah m :
  match_here r sn ah = Some m -> exists ms, finditer_from r 0 sn ah = m :: ms.
Proof. intros H. destruct ah; cbn [finditer_from]; rewrite H; by eexists. Qed.
End FieldLines.

(** The claim as stated fails: a numeral alone on the previous line takes
    the whole wanted line as its label, and no field 3 comes out. *)
Lemma C6_counterexample :
  extract_static_form_fields (U:=latin1) absorbed_text =
    [ {| field_number := 1; label := lit "3. Enter your name" |} ] /\
  ~ wanted_field ∈ extract_static_form_fields (U:=latin1) absorbed_text.
Proof.
  assert (H : extract_static_form_fields (U:=latin1) absorbed_text =
              [ {| field_number := 1; label := lit "3. Enter your name" |} ])
    by (vm_compute; reflexivity).
  split; [exact H|]. rewrite H. intros Hin%list_elem_of_singleton. discriminate.
Qed.


Example numeral_absorbs_appendix_line :
  extract_static_form_fields (U:=latin1) (lit "3." ++ [NL] ++ appendix_line) =
    [ {| field_number := 3; label := lit "Appendix 3. Notes" |} ].
Proof. vm_compute. reflexivity. Qed.


(** * Further properties *)

(** ** Loops that raise *)

Lemma for_each_ok_in {A S} (P : S -> Prop) (body : S -> A -> result S) xs :
  (forall s x, x ∈ xs -> P s -> exists s', body s x = Ok s' /\ P s') ->
  forall s, P s -> exists s', for_each body xs s = Ok s' /\ P s'.
Proof.
  induction xs as [|x xs IH]; intros Hstep s Hs; [by exists s|].
  destruct (Hstep s x) as (s1 & Hb & Hs1); [apply elem_of_cons; by left|done|].
  cbn. rewrite Hb. cbn. apply IH; [|done].
  intros s' y Hy. apply Hstep. apply elem_of_cons. by right.
Qed.

Lemma for_each_raises {A S} (e : exn) (body : S -> A -> result S) xs x0 :
  (forall s x e', body s x = Raise e' -> e' = e) ->
  x0 ∈ xs -> (forall s, body s x0 = Raise e) ->
  forall s, for_each body xs s = Raise e.
Proof.
  intros Honly Hin Hbad. induction xs as [|x xs IH]; intros s;
    [by apply elem_of_nil in Hin|].
  cbn. destruct (body s x) as [s1|e'] eqn:Hb; cbn.
  - apply elem_of_cons in Hin as [->|Hin]; [by rewrite Hbad in Hb|by apply IH].
  - by rewrite (Honly _ _ _ Hb).
Qed.

Lemma for_each_only_raises {A S} (e : exn) (body : S -> A -> result S) xs :
  (forall s x e', body s x = Raise e' -> e' = e) ->
  forall s e', for_each body xs s = Raise e' -> e' = e.
Proof.
  intros Honly. induction xs as [|x xs IH]; intros s e' Hrun; [done|].
  cbn in Hrun. destruct (body s x) as [s1|e1] eqn:Hb; cbn in Hrun.
  - by eapply IH.
  - inversion Hrun; subst. by eapply Honly.
Qed.

Lemma scan_block_only_index_error page_num st block e :
  scan_block page_num st block = Raise e -> e = IndexError.
Proof.
  unfold scan_block. destruct (block_type block =? 0); [|done].
  destruct (strip _); [done|]. destruct (block_lines block) as [|[|? ?] ?]; by intros [= <-].
Qed.

Lemma scan_page_only_index_error st p e : scan_page st p = Raise e -> e = IndexError.
Proof.
  destruct p as [n pg]. unfold scan_page. apply for_each_only_raises.
  intros ? ? ?. apply scan_block_only_index_error.
Qed.

Lemma scan_block_first_line_empty page_num st block :
  first_line_empty block -> scan_block page_num st block = Raise IndexError.
Proof.
  intros (Ht & Htext & rest & Hlines). unfold scan_block, block_text_of in *.
  rewrite Ht. cbn. destruct (strip _); [done|]. by rewrite Hlines.
Qed.

(** X1: a text block that has text but no span in its first line makes the
    first loop raise [IndexError]; nothing is extracted and the document is
    given up, whatever else it holds. *)
Theorem X1_first_line_without_span_raises {U : UnicodeData} (doc : Document)
    (pg : Page) (block : RawBlock) (pdf : Plumber) (stem : str) :
  pg ∈ doc_pages doc -> block ∈ page_blocks pg -> first_line_empty block ->
  scan doc = Raise IndexError /\
  extract_content_and_outline doc = Raise IndexError /\
  process_single_pdf (Ok doc) pdf stem = Raise IndexError.
Proof.
  intros Hpg Hblock Hbad.
  assert (Hscan : scan doc = Raise IndexError).
  { apply list_elem_of_lookup_1 in Hpg as [i Hi]. unfold scan.
    apply (for_each_raises IndexError _ _ (Z.of_nat i, pg)).
    - intros ? ? ?. apply scan_page_only_index_error.
    - unfold enumerate. by apply (elem_of_lookup_imap_2 (fun i x => (Z.of_nat i, x))).
    - intros s. unfold scan_page. apply (for_each_raises IndexError _ _ block); [|done|].
      + intros ? ? ?. apply scan_block_only_index_error.
      + intros s'. by apply scan_block_first_line_empty. }
  split; [done|].
  assert (Hx : extract_content_and_outline doc = Raise IndexError)
    by (unfold extract_content_and_outline; by rewrite Hscan).
  split; [done|]. unfold process_single_pdf. cbn. by rewrite Hx.
Qed.

Lemma X1_witness :
  first_line_empty block_without_first_span /\
  process_single_pdf (U:=latin1) (Ok doc_without_first_span) (Ok []) (lit "report")
    = Raise IndexError.
Proof.
  assert (H : first_line_empty block_without_first_span).
  { split; [reflexivity|]. split; [vm_compute; discriminate|]. by eexists. }
  split; [exact H|].
  refine (proj2 (proj2 (X1_first_line_without_span_raises (U:=latin1)
            doc_without_first_span _ block_without_first_span (Ok []) (lit "report")
            _ _ H))).
  - apply elem_of_cons. left. reflexivity.
  - apply elem_of_cons. right. apply elem_of_cons. left. reflexivity.
Defined.

(** ** What the extraction returns *)

Lemma assemble_block_total {U : UnicodeData} (hs : gset StyleKey) lm acc b :
  exists acc', assemble_block hs (sorted_heading_sizes_of hs) lm acc b = Ok acc'.
Proof.
  unfold assemble_block. destruct (forallb _ _); [by eexists|].
  destruct (existsb _ _); [by eexists|].
  destruct (bool_decide (style b ∈ hs)) eqn:Hh; [|by eexists].
  apply bool_decide_eq_true in Hh.
  destruct (py_index_elem (style b).1 (sorted_heading_sizes_of hs)) as (i & -> & _).
  { apply sorted_sizes_elem. by exists (style b). }
  cbn. by eexists.
Qed.

Lemma extract_after_scan {U : UnicodeData} (doc : Document) (st : ScanState) :
  scan doc = Ok st ->
  exists cs o ls, extract_content_and_outline doc = Ok (cs, o, strip (full_text st), ls).
Proof.
  intros Hscan. unfold extract_content_and_outline. rewrite Hscan. cbn.
  destruct (styles st) as [|e c] eqn:Hst; [by eexists _, _, _|].
  destruct (body_style_in_histogram (e :: c)) as (body & w & l1 & l2 & -> & _); [done|].
  cbn -[heading_styles_of]. set (hs := heading_styles_of _ _).
  destruct (for_each_total (assemble_block hs (sorted_heading_sizes_of hs)
                              (level_map_of (sorted_heading_sizes_of hs)))
              (all_blocks st) empty_assembly) as [acc ->].
  { intros s x. apply assemble_block_total. }
  cbn. by eexists _, _, _.
Qed.


Lemma scan_block_full_text page_num st block st' :
  scan_block page_num st block = Ok st' -> full_text st' = full_text st.
Proof.
  unfold scan_block. destruct (block_type block =? 0); [|by intros [= <-]].
  destruct (strip _); [by intros [= <-]|].
  destruct (block_lines block) as [|[|? ?] ?]; try done. by intros [= <-].
Qed.

Lemma scan_page_full_text st n pg st' :
  scan_page st (n, pg) = Ok st' ->
  full_text st' = full_text st ++ page_get_text pg ++ [NL].
Proof.
  unfold scan_page.
  apply (for_each_invariant (fun s => full_text s = full_text st ++ page_get_text pg ++ [NL]));
    [|done].
  intros s x s' Hs Hb. by rewrite (scan_block_full_text _ _ _ _ Hb).
Qed.

Lemma scan_pages_full_text (ps : list (Z * Page)) st st' :
  for_each scan_page ps st = Ok st' ->
  full_text st' = full_text st ++ flat_map (fun p => page_get_text p.2 ++ [NL]) ps.
Proof.
  revert st. induction ps as [|[n pg] ps IH]; intros st Hrun; cbn [for_each] in Hrun.
  - inversion Hrun; subst. by rewrite app_nil_r.
  - destruct (scan_page st (n, pg)) as [st1|] eqn:Hp; [|done]. cbn in Hrun.
    rewrite (IH _ Hrun), (scan_page_full_text _ _ _ _ Hp). cbn [flat_map snd].
    by rewrite <- !app_assoc.
Qed.

Lemma flat_map_imap_snd {A B I} (f : A -> list B) (g : nat -> I) (l : list A) :
  flat_map (fun p => f p.2) (imap (fun i x => (g i, x)) l) = flat_map f l.
Proof.
  revert g. induction l as [|x l IH]; intros g; [done|]. cbn. f_equal.
  apply (IH (g ∘ S)).
Qed.

Lemma scan_full_text (doc : Document) st :
  scan doc = Ok st -> full_text st = pages_text (doc_pages doc).
Proof.
  intros Hscan. unfold scan in Hscan. apply scan_pages_full_text in Hscan.
  rewrite Hscan. cbn. unfold enumerate, pages_text.
  apply (flat_map_imap_snd (fun pg => page_get_text pg ++ [NL])).
Qed.

(** X3: the returned full text is the plain text of the pages in order, a
    line break after each, stripped as a whole; the blocks have no part in
    it. *)
Theorem X3_full_text_is_page_text {U : UnicodeData} (doc : Document)
    (cs : list ContentSection) (o : list OutlineEntry) (ft : str) (ls : list ListRecord) :
  extract_content_and_outline doc = Ok (cs, o, ft, ls) ->
  ft = strip (pages_text (doc_pages doc)).
Proof.
  intros Hx. destruct (scan doc) as [st|e] eqn:Hscan.
  - destruct (extract_after_scan doc st Hscan) as (? & ? & ? & H).
    rewrite H in Hx. inversion Hx; subst. by rewrite (scan_full_text _ _ Hscan).
  - unfold extract_content_and_outline in Hx. by rewrite Hscan in Hx.
Qed.

Lemma X3_witness :
  extract_content_and_outline (U:=latin1) doc_images_only = Ok ([], [], lit "scan", []) /\
  lit "scan" = strip (pages_text (doc_pages doc_images_only)).
Proof.
  assert (H : extract_content_and_outline (U:=latin1) doc_images_only
              = Ok ([], [], lit "scan", [])) by (vm_compute; reflexivity).
  split; [exact H|]. exact (X3_full_text_is_page_text (U:=latin1) _ _ _ _ _ H).
Defined.

Lemma scan_block_no_text page_num st block :
  no_text block -> scan_block page_num st block = Ok st.
Proof.
  unfold no_text, block_text_of, scan_block. intros [Ht|Htext].
  - apply Z.eqb_neq in Ht. by rewrite Ht.
  - destruct (block_type block =? 0); [|done]. by rewrite Htext.
Qed.

(** X4: a document in which no block carries text (no text block, or only
    blank ones) gives no content sections, no outline and no list records,
    even when it has a table of contents; only the page text is returned. *)
Theorem X4_no_text_blocks_no_outline {U : UnicodeData} (doc : Document) :
  (forall pg block, pg ∈ doc_pages doc -> block ∈ page_blocks pg -> no_text block) ->
  extract_content_and_outline doc = Ok ([], [], strip (pages_text (doc_pages doc)), []).
Proof.
  intros Hno.
  destruct (for_each_ok_in (fun s => styles s = [] /\ all_blocks s = [])
              scan_page (enumerate (doc_pages doc))) with
    (s := {| styles := []; all_blocks := []; full_text := [] |}) as (st & Hscan & Hst & Hbl);
    [|done|].
  - intros s [n pg] Hin [Hs Hb]. unfold enumerate in Hin.
    apply elem_of_lookup_imap in Hin as (i & pg' & [= -> ->] & Hi).
    apply list_elem_of_lookup_2 in Hi. unfold scan_page.
    apply (for_each_ok_in (fun s => styles s = [] /\ all_blocks s = [])); [|done].
    intros s' block Hblock Hs'. exists s'. split; [|done].
    apply scan_block_no_text. by eapply Hno.
  - fold (scan doc) in Hscan. unfold extract_content_and_outline.
    rewrite Hscan. cbn. rewrite Hst. by rewrite (scan_full_text _ _ Hscan).
Qed.

Lemma X4_witness :
  (forall pg block, pg ∈ doc_pages doc_images_only -> block ∈ page_blocks pg ->
     no_text block) /\
  doc_toc doc_images_only <> [] /\
  extract_content_and_outline (U:=latin1) doc_images_only =
    Ok ([], [], strip (pages_text (doc_pages doc_images_only)), []).
Proof.
  assert (H : forall pg block, pg ∈ doc_pages doc_images_only ->
                block ∈ page_blocks pg -> no_text block).
  { intros pg block Hpg Hb. apply list_elem_of_singleton in Hpg. subst pg.
    cbn in Hb. apply elem_of_cons in Hb as [->|Hb]; [left; discriminate|].
    apply list_elem_of_singleton in Hb. subst block. right. vm_compute. reflexivity. }
  split; [exact H|]. split; [discriminate|].
  exact (X4_no_text_blocks_no_outline (U:=latin1) doc_images_only H).
Defined.

(** X5: the table of contents has no effect on the content sections, the
    full text and the list records; when it is not empty and the document
    has a block with text, it is the whole outline, entry for entry, and
    the inferred headings are left out of the outline. *)
Theorem X5_toc_replaces_outline {U : UnicodeData} (doc : Document)
    (cs : list ContentSection) (o : list OutlineEntry) (ft : str) (ls : list ListRecord)
    (toc : list (Z * str * Z)) :
  extract_content_and_outline doc = Ok (cs, o, ft, ls) ->
  exists st o',
    scan doc = Ok st /\
    extract_content_and_outline (with_toc doc toc) = Ok (cs, o', ft, ls) /\
    (toc <> [] -> all_blocks st <> [] -> o' = map toc_entry toc) /\
    (all_blocks st = [] -> o' = []).
Proof.
  unfold extract_content_and_outline. change (scan (with_toc doc toc)) with (scan doc).
  destruct (scan doc) as [st|] eqn:Hscan; [|done]. cbn.
  destruct (scan_invariant_holds _ _ Hscan) as [Hhist _].
  destruct (styles st) as [|e c] eqn:Hst.
  - intros [= <- <- <- <-]. exists st, []. split; [done|]. split; [done|].
    symmetry in Hhist. apply histogram_empty in Hhist. split; [done|done].
  - destruct (body_style_of (e :: c)) as [body|]; [|done]. cbn.
    destruct (for_each _ (all_blocks st) empty_assembly) as [acc|]; [|done]. cbn.
    intros [= <- <- <- <-]. eexists st, _. split; [done|]. split; [done|].
    split.
    + intros Htoc _. by destruct toc.
    + intros Hbl. rewrite Hbl in Hhist. done.
Qed.

Lemma X5_witness :
  extract_content_and_outline (U:=latin1) doc_outline = Ok doc_outline_parts /\
  exists o',
    extract_content_and_outline (U:=latin1) (with_toc doc_outline [(1, lit "Cover", 1)])
      = Ok (doc_outline_parts.1.1.1, o', doc_outline_parts.1.2, doc_outline_parts.2) /\
    o' = [ {| oe_level := lit "H1"; oe_text := lit "Cover"; oe_page := 1 |} ].
Proof.
  assert (H : extract_content_and_outline (U:=latin1) doc_outline =
              Ok (doc_outline_parts.1.1.1, doc_outline_parts.1.1.2,
                  doc_outline_parts.1.2, doc_outline_parts.2))
    by (vm_compute; reflexivity).
  split; [vm_compute; reflexivity|].
  destruct (X5_toc_replaces_outline (U:=latin1) _ _ _ _ _ [(1, lit "Cover", 1)] H)
    as (st & o' & Hscan & Hx & Htoc & _).
  exists o'. split; [exact Hx|].
  rewrite Htoc; [reflexivity|discriminate|].
  intros Hbl. assert (Hs : scan doc_outline = Ok st_outline_probe) by reflexivity.
  rewrite Hs in Hscan. inversion Hscan; subst. discriminate.
Defined.

(** ** Weights of the histogram *)

Lemma counter_get_add k k' n c :
  counter_get k' (counter_add k n c) =
  counter_get k' c + (if decide (k = k') then n else 0).
Proof.
  induction c as [|[k1 v] c IH]; cbn [counter_add counter_get].
  - destruct (decide (k' = k)), (decide (k = k')); try congruence; lia.
  - destruct (decide (k = k1)) as [->|Hne]; cbn [counter_get].
    + destruct (decide (k' = k1)), (decide (k1 = k')); try congruence; lia.
    + destruct (decide (k' = k1)) as [->|]; [|done].
      destruct (decide (k = k1)); [congruence|lia].
Qed.

Lemma weight_in_app k l1 l2 : weight_in k (l1 ++ l2) = weight_in k l1 + weight_in k l2.
Proof. induction l1 as [|b l1 IH]; cbn [app weight_in]; lia. Qed.

Lemma histogram_get k blocks : counter_get k (histogram_of blocks) = weight_in k blocks.
Proof.
  induction blocks as [|b blocks IH] using rev_ind; [done|].
  unfold histogram_of. rewrite foldl_app. cbn [foldl]. fold (histogram_of blocks).
  rewrite counter_get_add, IH, weight_in_app. cbn [weight_in]. lia.
Qed.

Lemma first_seen_NoDup ks : NoDup (first_seen ks).
Proof.
  induction ks as [|k ks IH] using rev_ind; [constructor|].
  rewrite first_seen_snoc. destruct (decide (k ∈ first_seen ks)); [done|].
  apply NoDup_app. split; [done|]. split; [|apply NoDup_singleton].
  intros x Hx ->%list_elem_of_singleton. done.
Qed.

Lemma counter_get_elem k w (c : Counter) :
  NoDup (map fst c) -> (k, w) ∈ c -> counter_get k c = w.
Proof.
  induction c as [|[k1 v] c IH]; intros Hnd Hin; [by apply elem_of_nil in Hin|].
  cbn [map fst] in Hnd. apply NoDup_cons in Hnd as [Hk1 Hnd]. cbn [counter_get].
  apply elem_of_cons in Hin as [Heq|Hin];
    [inversion Heq; subst; by rewrite decide_True|].
  rewrite decide_False; [by apply IH|]. intros ->. apply Hk1.
  apply list_elem_of_fmap. by exists (k1, w).
Qed.

Lemma weight_in_nonneg k blocks : 0 <= weight_in k blocks.
Proof. induction blocks as [|b blocks IH]; cbn [weight_in]; [done|]. case_decide; lia. Qed.

Lemma weight_in_block k blocks b :
  b ∈ blocks -> style b = k -> Z.of_nat (length (text b)) <= weight_in k blocks.
Proof.
  intros Hb Hk. induction blocks as [|x blocks IH]; [by apply elem_of_nil in Hb|].
  cbn [weight_in]. pose proof (weight_in_nonneg k blocks).
  apply elem_of_cons in Hb as [<-|Hb].
  - rewrite decide_True by done. lia.
  - specialize (IH Hb). case_decide; lia.
Qed.

Lemma histogram_weights (doc : Document) (st : ScanState) :
  scan doc = Ok st ->
  NoDup (map fst (styles st)) /\
  (forall k w, (k, w) ∈ styles st ->
     w = weight_in k (all_blocks st) /\ 1 <= w /\
     exists b, b ∈ all_blocks st /\ style b = k) /\
  (forall b, b ∈ all_blocks st ->
     (style b, weight_in (style b) (all_blocks st)) ∈ styles st).
Proof.
  intros Hscan. destruct (scan_invariant_holds _ _ Hscan) as [Hhist Hall].
  assert (Hnd : NoDup (map fst (styles st)))
    by (rewrite Hhist, histogram_keys; apply first_seen_NoDup).
  assert (Hkey : forall k, k ∈ map fst (styles st) <-> exists b, b ∈ all_blocks st /\ style b = k).
  { intros k. rewrite Hhist, histogram_keys, first_seen_elem, list_elem_of_fmap.
    split; intros (b & ? & ?); exists b; done. }
  split; [done|]. split.
  - intros k w Hin.
    assert (Hw : w = weight_in k (all_blocks st)).
    { rewrite <- histogram_get, <- Hhist. symmetry. by apply counter_get_elem. }
    destruct (proj1 (Hkey k)) as (b & Hb & Hk).
    { apply list_elem_of_fmap. by exists (k, w). }
    split; [done|]. split; [|by exists b].
    pose proof (weight_in_block k _ b Hb Hk) as Hle.
    rewrite Forall_forall in Hall. destruct (Hall b Hb) as [_ Htext].
    destruct (text b); [done|]. cbn [length] in Hle. lia.
  - intros b Hb.
    assert (Hin : style b ∈ map fst (styles st)) by (apply Hkey; by exists b).
    apply list_elem_of_fmap in Hin as ([k w] & Hk & Hin). cbn in Hk. subst k.
    rewrite <- histogram_get, <- Hhist, (counter_get_elem _ w) by done. done.
Qed.

(** X6: the histogram has one entry per style seen, and the weight of a
    style is the number of characters in the texts of its blocks, at
    least 1; a weight counts characters, not blocks. *)
Theorem X6_histogram_counts_characters (doc : Document) (st : ScanState) :
  scan doc = Ok st ->
  NoDup (map fst (styles st)) /\
  (forall k w, (k, w) ∈ styles st ->
     w = weight_in k (all_blocks st) /\ 1 <= w /\
     exists b, b ∈ all_blocks st /\ style b = k) /\
  (forall b, b ∈ all_blocks st ->
     (style b, weight_in (style b) (all_blocks st)) ∈ styles st).
Proof. apply histogram_weights. Qed.

Lemma X6_witness :
  scan doc_ties = Ok st_ties /\
  forall k w, (k, w) ∈ styles st_ties ->
    w = weight_in k (all_blocks st_ties) /\ 1 <= w /\
    exists b, b ∈ all_blocks st_ties /\ style b = k.
Proof.
  assert (H : scan doc_ties = Ok st_ties) by reflexivity.
  split; [exact H|].
  exact (proj1 (proj2 (X6_histogram_counts_characters doc_ties st_ties H))).
Defined.

(** X7: the body style is the style of some block, and no style has more
    characters in its blocks than the body style has. *)
Theorem X7_body_style_has_most_characters (doc : Document) (st : ScanState) :
  scan doc = Ok st -> styles st <> [] ->
  exists body,
    body_style_of (styles st) = Ok body /\
    (exists b, b ∈ all_blocks st /\ style b = body) /\
    forall k, weight_in k (all_blocks st) <= weight_in body (all_blocks st).
Proof.
  intros Hscan Hne.
  destruct (histogram_weights doc st Hscan) as (Hnd & Hw & Hb).
  destruct (body_style_in_histogram _ Hne)
    as (body & w & l1 & l2 & Hbody & Hsplit & Hmax & _).
  assert (Hin : (body, w) ∈ styles st).
  { rewrite Hsplit. apply elem_of_app. right. apply elem_of_cons. by left. }
  destruct (Hw _ _ Hin) as (Hwb & _ & Hblock).
  exists body. split; [done|]. split; [done|]. intros k. rewrite <- Hwb.
  destruct (decide (k ∈ map style (all_blocks st))) as [Hk|Hno].
  - apply list_elem_of_fmap in Hk as (b & -> & Hbk).
    apply (Hmax (style b, weight_in (style b) (all_blocks st))). by apply Hb.
  - assert (weight_in k (all_blocks st) = 0) as ->.
    { clear -Hno. induction (all_blocks st) as [|x l IH]; [done|]. cbn [weight_in].
      cbn [map] in Hno. apply not_elem_of_cons in Hno as [Hx Hl].
      rewrite decide_False by done. by rewrite IH. }
    destruct (Hw _ _ Hin) as (_ & ? & _). lia.
Qed.

Lemma X7_witness :
  scan doc_ties = Ok st_ties /\ styles st_ties <> [] /\
  exists body,
    body_style_of (styles st_ties) = Ok body /\
    (exists b, b ∈ all_blocks st_ties /\ style b = body) /\
    forall k, weight_in k (all_blocks st_ties) <= weight_in body (all_blocks st_ties).
Proof.
  assert (H1 : scan doc_ties = Ok st_ties) by reflexivity.
  assert (H2 : styles st_ties <> []) by discriminate.
  split; [exact H1|]. split; [exact H2|].
  exact (X7_body_style_has_most_characters doc_ties st_ties H1 H2).
Defined.

(** ** Document order *)

Lemma scan_page_blocks st n pg st' :
  scan_page st (n, pg) = Ok st' ->
  exists new, all_blocks st' = all_blocks st ++ new /\
              Forall (fun b => page b = n + 1) new.
Proof.
  unfold scan_page.
  apply (for_each_invariant
           (fun s => exists new, all_blocks s = all_blocks st ++ new /\
                                 Forall (fun b => page b = n + 1) new)).
  - intros s block s' (new & Hs & Hnew) Hb. unfold scan_block in Hb.
    destruct (block_type block =? 0); [|inversion Hb; subst; by exists new].
    destruct (strip _); [inversion Hb; subst; by exists new|].
    destruct (block_lines block) as [|[|? ?] ?]; try done.
    inversion Hb; subst. cbn [all_blocks]. rewrite Hs.
    eexists (new ++ [_]). split; [by rewrite <- app_assoc|].
    apply Forall_app. split; [done|]. by constructor.
  - exists []. cbn. by rewrite app_nil_r.
Qed.

Lemma scan_pages_blocks (ps : list Page) : forall (k : nat) st st',
  for_each scan_page (imap (fun i x => (Z.of_nat (k + i), x)) ps) st = Ok st' ->
  exists new, all_blocks st' = all_blocks st ++ new /\
    Forall (fun b => Z.of_nat k + 1 <= page b <= Z.of_nat (k + length ps)) new /\
    StronglySorted Z.le (map page new).
Proof.
  induction ps as [|pg ps IH]; intros k st st' Hrun; cbn [imap for_each] in Hrun.
  - inversion Hrun; subst. exists []. rewrite app_nil_r. repeat constructor.
  - destruct (scan_page st _) as [st1|] eqn:Hp; [|done]. cbn in Hrun.
    apply scan_page_blocks in Hp as (new1 & H1 & Hn1).
    rewrite (imap_ext _ (fun i x => (Z.of_nat (S k + i), x))) in Hrun
      by (intros; cbn; do 2 f_equal; lia).
    apply IH in Hrun as (new2 & H2 & Hn2 & Hs2).
    exists (new1 ++ new2). rewrite H2, H1, <- app_assoc. split; [done|].
    rewrite Forall_forall in Hn1, Hn2. split.
    + apply Forall_app. split; apply Forall_forall; intros b Hb.
      * specialize (Hn1 b Hb). cbn [length]. lia.
      * specialize (Hn2 b Hb). cbn [length]. lia.
    + rewrite map_app. apply StronglySorted_app_2; [| |done].
      * intros x1 x2 (b1 & -> & Hb1)%list_elem_of_fmap (b2 & -> & Hb2)%list_elem_of_fmap.
        specialize (Hn1 b1 Hb1). specialize (Hn2 b2 Hb2). lia.
      * clear -Hn1. induction new1 as [|b new1 IH]; [constructor|].
        cbn [map]. constructor.
        -- apply IH. intros x Hx. apply Hn1. apply elem_of_cons. by right.
        -- apply Forall_forall. intros x (b' & -> & Hb')%list_elem_of_fmap.
           rewrite (Hn1 b), (Hn1 b'); [lia|apply elem_of_cons; by right
                                       |apply elem_of_cons; by left].
Qed.

Lemma scan_blocks_in_page_order (doc : Document) (st : ScanState) :
  scan doc = Ok st ->
  Forall (fun b => 1 <= page b <= Z.of_nat (length (doc_pages doc)) /\ text b <> [])
         (all_blocks st) /\
  StronglySorted Z.le (map page (all_blocks st)).
Proof.
  intros Hscan. destruct (scan_invariant_holds _ _ Hscan) as [_ Hall].
  unfold scan, enumerate in Hscan.
  apply (scan_pages_blocks (doc_pages doc) 0) in Hscan as (new & Hnew & Hpages & Hsorted).
  cbn in Hnew. subst new. split; [|done].
  rewrite Forall_forall in Hall, Hpages |- *. intros b Hb.
  specialize (Hpages b Hb). destruct (Hall b Hb) as [_ ?]. split; [cbn in Hpages; lia|done].
Qed.

(** X8: the blocks kept by the first loop are in page order: their page
    numbers never decrease, lie between 1 and the number of pages, and no
    kept block has empty text. *)
Theorem X8_blocks_in_page_order (doc : Document) (st : ScanState) :
  scan doc = Ok st ->
  Forall (fun b => 1 <= page b <= Z.of_nat (length (doc_pages doc)) /\ text b <> [])
         (all_blocks st) /\
  StronglySorted Z.le (map page (all_blocks st)).
Proof. apply scan_blocks_in_page_order. Qed.

Lemma X8_witness :
  scan doc_outline = Ok st_outline_probe /\
  StronglySorted Z.le (map page (all_blocks st_outline_probe)).
Proof.
  assert (H : scan doc_outline = Ok st_outline_probe) by reflexivity.
  split; [exact H|]. exact (proj2 (X8_blocks_in_page_order doc_outline _ H)).
Defined.

(** ** Sections and outline *)

Section SectionFacts.
Context {U : UnicodeData}.

Lemma classify_semantic (t : str) :
  classify_content_block t = T_website \/ classify_content_block t = T_address \/
  classify_content_block t = T_rsvp \/ classify_content_block t = T_paragraph.
Proof.
  unfold classify_content_block. destruct (re_search _ _); [auto|].
  destruct (_ || _); [auto|]. destruct (contains _ _); auto.
Qed.

Lemma assemble_block_step (hs : gset StyleKey) (acc acc' : Assembly) (b : TextBlock) :
  assemble_block hs (sorted_heading_sizes_of hs)
    (level_map_of (sorted_heading_sizes_of hs)) acc b = Ok acc' ->
  exists new,
    content_sections acc' = content_sections acc ++ new /\
    outline acc' = outline acc ++ map entry_of_section (filter (fun s => is_heading_section s = true) new) /\
    step_sections hs (length (sorted_heading_sizes_of hs)) b new.
Proof.
  unfold assemble_block. intros Hrun.
  destruct (forallb _ _).
  { inversion Hrun; subst. exists []. cbn. rewrite !app_nil_r.
    split; [done|]. split; [done|]. constructor. }
  destruct (existsb _ _).
  { inversion Hrun; subst. rewrite list_lines_fold. cbn [content_sections outline].
    eexists. split; [done|]. split.
    - induction (omap bullet_item _) as [|x l IH]; [by rewrite app_nil_r|].
      cbn [map]. rewrite filter_cons. cbn. exact IH.
    - apply Forall_forall. intros s (item & -> & _)%list_elem_of_fmap. by cbn. }
  destruct (bool_decide (style b ∈ hs)) eqn:Hh.
  - apply bool_decide_eq_true in Hh.
    destruct (py_index _ _) as [idx|] eqn:Hidx; [|done]. cbn in Hrun.
    inversion Hrun; subst. cbn [content_sections outline].
    eexists [_]. split; [done|]. rewrite filter_cons. cbn. split; [done|].
    constructor; [|constructor]. cbn. split; [done|]. split; [done|].
    split; [|done]. intros _. split; [done|]. split; [done|].
    rewrite level_map_size by apply sorted_sizes_NoDup.
    unfold py_index in Hidx.
    destruct (list_find _ _) as [[i y]|] eqn:Hfind; [|done]. inversion Hidx; subst.
    apply list_find_Some in Hfind as (Hi & _). apply lookup_lt_Some in Hi. lia.
  - inversion Hrun; subst. cbn [content_sections outline].
    eexists [_]. split; [done|]. rewrite filter_cons.
    assert (Hty : is_heading_section
                    {| cs_type := classify_content_block (text b); cs_content := text b;
                       cs_page := page b; cs_bbox := bbox b; cs_level := 0 |} = false).
    { unfold is_heading_section. cbn.
      destruct (classify_semantic (text b)) as [->|[->|[->| ->]]]; done. }
    rewrite decide_False by (rewrite Hty; done). cbn. rewrite app_nil_r.
    split; [done|]. constructor; [|constructor]. cbn. split; [done|]. split; [done|].
    rewrite Hty. split; done.
Qed.

Lemma assemble_loop (hs : gset StyleKey) (blocks : list TextBlock) :
  forall acc final,
    for_each (assemble_block hs (sorted_heading_sizes_of hs)
                (level_map_of (sorted_heading_sizes_of hs))) blocks acc = Ok final ->
    exists new,
      content_sections final = content_sections acc ++ new /\
      outline final =
        outline acc ++ map entry_of_section (filter (fun s => is_heading_section s = true) new) /\
      Forall (fun s => exists b, b ∈ blocks /\
                step_sections hs (length (sorted_heading_sizes_of hs)) b [s]) new /\
      (StronglySorted Z.le (map page blocks) -> StronglySorted Z.le (map cs_page new)).
Proof.
  induction blocks as [|b blocks IH]; intros acc final Hrun; cbn [for_each] in Hrun.
  - inversion Hrun; subst. exists []. cbn. rewrite !app_nil_r. repeat split; constructor.
  - destruct (assemble_block _ _ _ acc b) as [acc1|] eqn:Hb; [|done]. cbn in Hrun.
    apply assemble_block_step in Hb as (new1 & Hc1 & Ho1 & Hs1).
    apply IH in Hrun as (new2 & Hc2 & Ho2 & Hs2 & Hsorted).
    exists (new1 ++ new2). rewrite Hc2, Hc1, Ho2, Ho1, filter_app, map_app, <- !app_assoc.
    split; [done|]. split; [done|]. unfold step_sections in Hs1.
    rewrite Forall_forall in Hs1, Hs2. split.
    + apply Forall_app. split; apply Forall_forall; intros s Hs.
      * exists b. split; [apply elem_of_cons; by left|]. constructor; [by apply Hs1|constructor].
      * destruct (Hs2 s Hs) as (b' & Hb' & H'). exists b'.
        split; [apply elem_of_cons; by right|done].
    + intros Hsb. cbn [map] in Hsb. apply StronglySorted_cons in Hsb as [Hle Hsb].
      rewrite map_app. apply StronglySorted_app_2; [| |by apply Hsorted].
      * intros x1 x2 (s1 & -> & H1)%list_elem_of_fmap (s2 & -> & H2)%list_elem_of_fmap.
        destruct (Hs1 s1 H1) as [-> _]. destruct (Hs2 s2 H2) as (b' & Hb' & H').
        apply Forall_cons in H' as [[-> _] _].
        rewrite Forall_forall in Hle. apply Hle. by apply list_elem_of_fmap_2.
      * clear -Hs1. induction new1 as [|s new1 IH]; [constructor|]. cbn [map].
        constructor.
        -- apply IH. intros x Hx. apply Hs1. apply elem_of_cons. by right.
        -- apply Forall_forall. intros x (s' & -> & Hs')%list_elem_of_fmap.
           destruct (Hs1 s) as [-> _]; [apply elem_of_cons; by left|].
           destruct (Hs1 s') as [-> _]; [apply elem_of_cons; by right|]. lia.
Qed.

(** Everything the extraction says about its sections at once. *)
Lemma extract_sections (doc : Document) cs o ft ls :
  extract_content_and_outline doc = Ok (cs, o, ft, ls) ->
  exists st n,
    scan doc = Ok st /\
    (forall body, body_style_of (styles st) = Ok body ->
       n = size (set_map fst (heading_styles_of (styles st) body) : gset Z)) /\
    (doc_toc doc = [] ->
       o = map entry_of_section (filter (fun s => is_heading_section s = true) cs)) /\
    Forall (fun s => exists b, b ∈ all_blocks st /\
              cs_page s = page b /\ cs_bbox s = bbox b /\
              (is_heading_section s = true ->
                 cs_content s = text b /\ 1 <= cs_level s <= Z.of_nat n) /\
              (is_heading_section s = false -> cs_level s = 0)) cs /\
    StronglySorted Z.le (map cs_page cs).
Proof.
  unfold extract_content_and_outline. intros Hrun.
  destruct (scan doc) as [st|] eqn:Hscan; [|done]. cbn in Hrun.
  destruct (styles st) as [|e c] eqn:Hst.
  { inversion Hrun; subst. exists st, 0%nat. split; [done|].
    split; [intros body Hb; rewrite Hst in Hb; by cbn in Hb|].
    split; [done|]. split; constructor. }
  destruct (body_style_of (e :: c)) as [body|] eqn:Hbody; [|done].
  cbn -[heading_styles_of] in Hrun. set (hs := heading_styles_of _ _) in Hrun.
  destruct (for_each _ (all_blocks st) empty_assembly) as [acc|] eqn:Hloop; [|done].
  cbn in Hrun. inversion Hrun; subst.
  apply assemble_loop in Hloop as (new & Hc & Ho & Hs & Hsorted).
  cbn in Hc, Ho. rewrite Hc.
  exists st, (size (set_map fst hs : gset Z)). split; [done|]. split.
  { intros body' Hb'. rewrite Hst in Hb' |- *. rewrite Hbody in Hb'.
    by inversion Hb'; subst. }
  split; [intros Htoc; by rewrite Htoc|]. split.
  - eapply Forall_impl; [exact Hs|]. intros s (b & Hb & H).
    apply Forall_cons in H as [(Hp & Hbb & Hh & Hn) _]. exists b.
    rewrite sorted_sizes_length in Hh. split; [done|]. split; [done|]. split; [done|].
    split; [|done]. intros Hty. destruct (Hh Hty) as (? & _ & ?). done.
  - apply Hsorted. exact (proj2 (scan_blocks_in_page_order doc st Hscan)).
Qed.
End SectionFacts.

(** X9: a section that is not a heading has level 0, and a heading section
    has a level between 1 and the number of distinct heading sizes, so level
    0 marks exactly the sections that are no headings. *)
Theorem X9_section_levels {U : UnicodeData} (doc : Document)
    (cs : list ContentSection) (o : list OutlineEntry) (ft : str) (ls : list ListRecord) :
  extract_content_and_outline doc = Ok (cs, o, ft, ls) ->
  exists st n,
    scan doc = Ok st /\
    (forall body, body_style_of (styles st) = Ok body ->
       n = size (set_map fst (heading_styles_of (styles st) body) : gset Z)) /\
    forall s, s ∈ cs ->
      (cs_type s = T_heading -> 1 <= cs_level s <= Z.of_nat n) /\
      (cs_type s <> T_heading -> cs_level s = 0) /\
      (cs_level s = 0 <-> cs_type s <> T_heading).
Proof.
  intros Hx. destruct (extract_sections _ _ _ _ _ Hx) as (st & n & Hscan & Hn & _ & Hs & _).
  exists st, n. split; [done|]. split; [done|]. rewrite Forall_forall in Hs.
  intros s Hin. destruct (Hs s Hin) as (b & _ & _ & _ & Hh & Hnh).
  assert (Hiff : is_heading_section s = true <-> cs_type s = T_heading)
    by (unfold is_heading_section; destruct (cs_type s); split; done).
  assert (Hn0 : cs_type s <> T_heading -> cs_level s = 0).
  { intros Hty. apply Hnh. apply not_true_is_false. intros E. by apply Hty, Hiff. }
  split; [intros Hty; apply Hh; by apply Hiff|]. split; [done|]. split; [|done].
  intros H0 Hty. apply Hiff in Hty. destruct (Hh Hty) as [_ ?]. lia.
Qed.

Lemma X9_witness :
  extract_content_and_outline (U:=latin1) doc_outline = Ok doc_outline_parts /\
  forall s, s ∈ doc_outline_parts.1.1.1 -> (cs_level s = 0 <-> cs_type s <> T_heading).
Proof.
  assert (H : extract_content_and_outline (U:=latin1) doc_outline =
              Ok (doc_outline_parts.1.1.1, doc_outline_parts.1.1.2,
                  doc_outline_parts.1.2, doc_outline_parts.2))
    by (vm_compute; reflexivity).
  split; [vm_compute; reflexivity|].
  destruct (X9_section_levels (U:=latin1) _ _ _ _ _ H) as (st & n & _ & _ & Hs).
  intros s Hin. exact (proj2 (proj2 (Hs s Hin))).
Defined.

(** X10: without a table of contents the outline is the heading sections
    in their order, entry for entry: the same text and page, and the label
    "H" followed by the section's level. *)
Theorem X10_outline_mirrors_heading_sections {U : UnicodeData} (doc : Document)
    (cs : list ContentSection) (o : list OutlineEntry) (ft : str) (ls : list ListRecord) :
  extract_content_and_outline doc = Ok (cs, o, ft, ls) -> doc_toc doc = [] ->
  o = map entry_of_section (filter (fun s => is_heading_section s = true) cs).
Proof.
  intros Hx Htoc. destruct (extract_sections _ _ _ _ _ Hx) as (st & n & _ & _ & Ho & _).
  by apply Ho.
Qed.

Lemma X10_witness :
  extract_content_and_outline (U:=latin1) doc_outline = Ok doc_outline_parts /\
  doc_toc doc_outline = [] /\
  doc_outline_parts.1.1.2 =
    map entry_of_section
        (filter (fun s => is_heading_section s = true) doc_outline_parts.1.1.1).
Proof.
  assert (H : extract_content_and_outline (U:=latin1) doc_outline =
              Ok (doc_outline_parts.1.1.1, doc_outline_parts.1.1.2,
                  doc_outline_parts.1.2, doc_outline_parts.2))
    by (vm_compute; reflexivity).
  split; [vm_compute; reflexivity|]. split; [reflexivity|].
  exact (X10_outline_mirrors_heading_sections (U:=latin1) _ _ _ _ _ H eq_refl).
Defined.

(** X11: the content sections come out in page order, and each carries the
    page and the bounding box of a block the first loop kept; a heading
    section also carries that block's whole text. *)
Theorem X11_sections_in_page_order {U : UnicodeData} (doc : Document)
    (cs : list ContentSection) (o : list OutlineEntry) (ft : str) (ls : list ListRecord) :
  extract_content_and_outline doc = Ok (cs, o, ft, ls) ->
  StronglySorted Z.le (map cs_page cs) /\
  exists st, scan doc = Ok st /\
    forall s, s ∈ cs ->
      exists b, b ∈ all_blocks st /\ cs_page s = page b /\ cs_bbox s = bbox b /\
                (cs_type s = T_heading -> cs_content s = text b).
Proof.
  intros Hx. destruct (extract_sections _ _ _ _ _ Hx) as (st & n & Hscan & _ & _ & Hs & Hsorted).
  split; [done|]. exists st. split; [done|]. rewrite Forall_forall in Hs.
  intros s Hin. destruct (Hs s Hin) as (b & Hb & Hp & Hbb & Hh & _).
  exists b. split; [done|]. split; [done|]. split; [done|].
  intros Hty. apply Hh. unfold is_heading_section. by rewrite Hty.
Qed.

Lemma X11_witness :
  extract_content_and_outline (U:=latin1) doc_outline = Ok doc_outline_parts /\
  StronglySorted Z.le (map cs_page doc_outline_parts.1.1.1).
Proof.
  assert (H : extract_content_and_outline (U:=latin1) doc_outline =
              Ok (doc_outline_parts.1.1.1, doc_outline_parts.1.1.2,
                  doc_outline_parts.1.2, doc_outline_parts.2))
    by (vm_compute; reflexivity).
  split; [vm_compute; reflexivity|].
  exact (proj1 (X11_sections_in_page_order (U:=latin1) _ _ _ _ _ H)).
Defined.

(** ** Cleaned tables *)

Lemma foldl_max_ge (l : list nat) (a : nat) :
  (a <= foldl Nat.max a l)%nat /\ forall x, x ∈ l -> (x <= foldl Nat.max a l)%nat.
Proof.
  revert a. induction l as [|y l IH]; intros a; cbn [foldl].
  - split; [lia|]. by intros ? ?%elem_of_nil.
  - destruct (IH (Nat.max a y)) as [Ha Hl]. split; [lia|].
    intros x [->|Hx]%elem_of_cons; [lia|by apply Hl].
Qed.

Lemma foldl_min_const (l : list (list str)) (n : nat) :
  Forall (fun row => length row = n) l ->
  foldl (fun m row => Nat.min m (length row)) n l = n.
Proof.
  induction 1 as [|row l Hrow Hl IH]; [done|]. cbn [foldl]. by rewrite Hrow, Nat.min_id.
Qed.

Lemma keep_columns_length_gen (kept : gset nat) (row : list str) : forall k,
  length (omap (fun '(idx, cell) => if bool_decide (idx ∈ kept) then Some cell else None)
               (imap (fun i (x : str) => ((k + i)%nat, x)) row)) =
  length (filter (fun i => i ∈ kept) (seq k (length row))).
Proof.
  induction row as [|c row IH]; intros k; [done|].
  cbn [imap omap list_omap length seq]. rewrite filter_cons, Nat.add_0_r.
  rewrite (imap_ext _ (fun i x => ((S k + i)%nat, x))) by (intros; cbn; f_equal; lia).
  destruct (decide (k ∈ kept)) as [Hk|Hk].
  - rewrite bool_decide_eq_true_2 by done. cbn [length]. by rewrite IH.
  - rewrite bool_decide_eq_false_2 by done. by rewrite IH.
Qed.

Lemma keep_columns_length (kept : gset nat) (row : list str) :
  length (keep_columns kept row) =
  length (filter (fun i => i ∈ kept) (seq 0 (length row))).
Proof. apply (keep_columns_length_gen kept row 0). Qed.

Lemma keep_columns_elem_gen (kept : gset nat) (row : list str) : forall k idx c,
  row !! idx = Some c -> (k + idx)%nat ∈ kept ->
  c ∈ omap (fun '(idx, cell) => if bool_decide (idx ∈ kept) then Some cell else None)
           (imap (fun i (x : str) => ((k + i)%nat, x)) row).
Proof.
  induction row as [|x row IH]; intros k idx c Hc Hk; [done|].
  cbn [imap omap list_omap].
  rewrite (imap_ext _ (fun i x => ((S k + i)%nat, x))) by (intros; cbn; f_equal; lia).
  destruct idx as [|idx]; cbn in Hc.
  - inversion Hc; subst. rewrite Nat.add_0_r in Hk |- *.
    rewrite bool_decide_eq_true_2 by done. apply elem_of_cons. by left.
  - assert (Hin : c ∈ omap (fun '(idx, cell) =>
                              if bool_decide (idx ∈ kept) then Some cell else None)
                           (imap (fun i (x : str) => ((S k + i)%nat, x)) row)).
    { apply (IH (S k) idx); [done|]. by replace (S k + idx)%nat with (k + S idx)%nat by lia. }
    destruct (bool_decide _); [apply elem_of_cons; by right|done].
Qed.

Lemma keep_columns_elem (kept : gset nat) (row : list str) idx c :
  row !! idx = Some c -> idx ∈ kept -> c ∈ keep_columns kept row.
Proof. intros Hc Hk. by apply (keep_columns_elem_gen kept row 0 idx c). Qed.

Lemma any_text_elem (row : list str) : any_text row = true <-> exists c, c ∈ row /\ c <> [].
Proof.
  unfold any_text. rewrite existsb_exists. split.
  - intros (c & Hc%list_elem_of_In & Hne). exists c. split; [done|].
    intros ->. by vm_compute in Hne.
  - intros (c & Hc & Hne). exists c. split; [by apply list_elem_of_In|].
    unfold str_eqb. by rewrite bool_decide_eq_false_2.
Qed.

Lemma any_text_cleaned (row : list (option str)) :
  any_text (map (fun item => match item with None => [] | Some t => strip t end) row)
  = negb (forallb blank_cell row).
Proof.
  induction row as [|item row IH]; [done|]. cbn [map forallb]. unfold any_text in *.
  cbn [existsb]. rewrite IH, negb_andb. f_equal. by destruct item.
Qed.

(** What the cleaning of one table gives. *)
Lemma clean_table_result (i : Z) (table_data : RawTable) :
  match clean_table i table_data with
  | None => degenerate table_data = true \/
            Forall (fun row => forallb blank_cell row = true) table_data
  | Some tb =>
      degenerate table_data = false /\
      tb_page tb = i + 1 /\
      length (tb_data tb) =
        length (filter (fun row => forallb blank_cell row = false) table_data) /\
      tb_data tb <> [] /\
      exists width,
        Forall (fun row => length row = width /\ any_text row = true) (tb_data tb)
  end.
Proof.
  unfold clean_table. fold (degenerate table_data).
  destruct (degenerate table_data); [by left|].
  set (cleaned := map (map _) table_data).
  assert (Hfilter : forall l : RawTable,
            length (filter (fun row => any_text row = true)
                      (map (map (fun item => match item with
                                             | None => [] | Some t => strip t end)) l)) =
            length (filter (fun row => forallb blank_cell row = false) l)).
  { induction l as [|row l IH]; [done|]. cbn [map]. rewrite !filter_cons.
    rewrite any_text_cleaned.
    destruct (forallb blank_cell row); cbn [negb].
    - rewrite decide_False by done. rewrite decide_False by done. exact IH.
    - rewrite decide_True by done. rewrite decide_True by done. cbn. by rewrite IH. }
  destruct (filter _ cleaned) as [|r0 rs] eqn:Hne.
  { right. apply Forall_forall. intros row Hrow.
    destruct (forallb blank_cell row) eqn:Hb; [done|]. exfalso.
    assert (Hin : map (fun item => match item with None => [] | Some t => strip t end) row
                  ∈ filter (fun row => any_text row = true) cleaned).
    { apply list_elem_of_filter. split; [by rewrite any_text_cleaned, Hb|].
      by apply list_elem_of_fmap_2. }
    rewrite Hne in Hin. by apply elem_of_nil in Hin. }
  set (rows := r0 :: rs) in *.
  set (max_cols := foldl Nat.max 0%nat (map length rows)).
  set (padded := map (fun row => row ++ repeat [] (max_cols - length row)) rows).
  set (kept := list_to_set _ : gset nat).
  change (map _ padded) with (map (keep_columns kept) padded).
  assert (Hlen : Forall (fun row => length row = max_cols) padded).
  { apply Forall_forall. intros row (r & -> & Hr)%list_elem_of_fmap.
    rewrite length_app, repeat_length.
    assert (length r <= max_cols)%nat; [|lia].
    apply foldl_max_ge. by apply list_elem_of_fmap_2. }
  assert (Hpadded : padded <> []) by done.
  destruct (map (keep_columns kept) padded) as [|f0 fs] eqn:Hfinal.
  { by destruct padded. }
  rewrite <- Hfinal. split; [done|]. cbn [tb_page tb_data]. split; [done|]. split.
  { rewrite length_map. unfold padded. rewrite length_map.
    rewrite <- Hfilter. fold cleaned. by rewrite Hne. }
  split; [by rewrite Hfinal|].
  exists (length (filter (fun i => i ∈ kept) (seq 0 max_cols))).
  apply Forall_forall. intros row (p & -> & Hp)%list_elem_of_fmap.
  rewrite Forall_forall in Hlen. split; [by rewrite keep_columns_length, (Hlen p Hp)|].
  assert (Hany : any_text p = true).
  { unfold padded in Hp. apply list_elem_of_fmap in Hp as (r & -> & Hr).
    assert (Hr' : r ∈ filter (fun row => any_text row = true) cleaned)
      by (by rewrite Hne).
    apply list_elem_of_filter in Hr' as [Hr' _]. apply any_text_elem in Hr' as (c & Hc & Hcne).
    apply any_text_elem. exists c. split; [apply elem_of_app; by left|done]. }
  apply any_text_elem in Hany as (c & Hc & Hcne).
  apply list_elem_of_lookup_1 in Hc as [idx Hidx].
  apply any_text_elem. exists c. split; [|done].
  apply (keep_columns_elem kept p idx c Hidx).
  unfold kept. apply elem_of_list_to_set, list_elem_of_omap.
  assert (Hidx_lt : (idx < max_cols)%nat)
    by (rewrite <- (Hlen p Hp); by eapply lookup_lt_Some).
  exists (idx, omap (fun row => row !! idx) padded). split.
  - apply (elem_of_lookup_imap_2 pair).
    assert (Hzip : zip_star padded =
                   map (fun idx => omap (fun row => row !! idx) padded) (seq 0 max_cols)).
    { clear -Hlen Hp. destruct padded as [|p0 ps]; [by apply elem_of_nil in Hp|].
      unfold zip_star. rewrite (Hlen p0) by (apply elem_of_cons; by left).
      rewrite foldl_min_const; [done|]. apply Forall_forall. intros r Hr.
      apply Hlen. apply elem_of_cons. by right. }
    rewrite Hzip.
    change (map ?f (seq 0 max_cols)) with (f <$> seq 0 max_cols).
    by rewrite list_lookup_fmap, lookup_seq_lt.
  - assert (any_text (omap (fun row => row !! idx) padded) = true) as ->; [|done].
    apply any_text_elem. exists c. split; [|done].
    apply list_elem_of_omap. by exists p.
Qed.

(** X12: cleaning drops a table exactly when it has at most one row of at
    most one cell, or when every cell is empty once stripped; a table it
    keeps is given the 1-based page number. *)
Theorem X12_table_dropped_iff (i : Z) (table_data : RawTable) :
  (clean_table i table_data = None <->
   degenerate table_data = true \/
   Forall (fun row => forallb blank_cell row = true) table_data) /\
  (forall tb, clean_table i table_data = Some tb -> tb_page tb = i + 1).
Proof.
  pose proof (clean_table_result i table_data) as H.
  destruct (clean_table i table_data) as [tb|].
  - destruct H as (Hdeg & Hpage & Hlen & Hne & _). split.
    + split; [done|]. intros [Hd|Hall]; [congruence|]. exfalso. apply Hne.
      apply length_zero_iff_nil. rewrite Hlen. clear -Hall.
      induction Hall as [|row l Hrow Hl IH]; [done|].
      rewrite filter_cons, decide_False by congruence. exact IH.
    + by intros ? [= <-].
  - split; [by split|done].
Qed.

(** X13: a cleaned table is a rectangle: all its rows have one width, it
    has a row for each input row with some text and no other row, and
    every row has a cell with text. *)
Theorem X13_cleaned_table_rectangular (i : Z) (table_data : RawTable) (tb : Table) :
  clean_table i table_data = Some tb ->
  tb_data tb <> [] /\
  length (tb_data tb) =
    length (filter (fun row => forallb blank_cell row = false) table_data) /\
  exists width,
    Forall (fun row => length row = width /\ any_text row = true) (tb_data tb).
Proof.
  intros Hc. pose proof (clean_table_result i table_data) as H. rewrite Hc in H.
  destruct H as (_ & _ & Hlen & Hne & Hw). done.
Qed.

Lemma X13_witness :
  clean_table 0 small_table =
    Some {| tb_page := 1; tb_data := [[lit "a"; lit "b"]; [lit "c"; []]] |} /\
  exists width,
    Forall (fun row => length row = width /\ any_text row = true)
           [[lit "a"; lit "b"]; [lit "c"; []]].
Proof.
  assert (H : clean_table 0 small_table =
              Some {| tb_page := 1; tb_data := [[lit "a"; lit "b"]; [lit "c"; []]] |})
    by (vm_compute; reflexivity).
  split; [exact H|]. exact (proj2 (proj2 (X13_cleaned_table_rectangular _ _ _ H))).
Defined.

Lemma tables_loop_pages (ps : list (result (list RawTable))) : forall (k : nat) acc,
  exists new,
    tables_loop (imap (fun i x => (Z.of_nat (k + i), x)) ps) acc = acc ++ new /\
    Forall (fun tb => Z.of_nat k + 1 <= tb_page tb <= Z.of_nat (k + length ps)) new /\
    StronglySorted Z.le (map tb_page new).
Proof.
  induction ps as [|[tables|e] ps IH]; intros k acc; cbn [imap tables_loop].
  - exists []. rewrite app_nil_r. repeat constructor.
  - rewrite (imap_ext _ (fun i x => (Z.of_nat (S k + i), x)))
      by (intros; cbn; do 2 f_equal; lia).
    destruct (IH (S k) (acc ++ omap (clean_table (Z.of_nat (k + 0))) tables))
      as (new & -> & Hnew & Hsorted).
    set (here := omap (clean_table (Z.of_nat (k + 0))) tables).
    assert (Hhere : Forall (fun tb => tb_page tb = Z.of_nat k + 1) here).
    { apply Forall_forall. intros tb (t & _ & Ht)%list_elem_of_omap.
      pose proof (clean_table_result (Z.of_nat (k + 0)) t) as H. rewrite Ht in H.
      destruct H as (_ & -> & _). lia. }
    exists (here ++ new). rewrite <- app_assoc. split; [done|].
    rewrite Forall_forall in Hhere, Hnew. split.
    + apply Forall_app. split; apply Forall_forall; intros tb Htb.
      * rewrite (Hhere tb Htb). cbn [length]. lia.
      * specialize (Hnew tb Htb). cbn [length]. lia.
    + rewrite map_app. apply StronglySorted_app_2; [| |done].
      * intros x1 x2 (t1 & -> & H1)%list_elem_of_fmap (t2 & -> & H2)%list_elem_of_fmap.
        rewrite (Hhere t1 H1). specialize (Hnew t2 H2). lia.
      * clear -Hhere. induction here as [|tb here IH]; [constructor|]. cbn [map].
        constructor.
        -- apply IH. intros x Hx. apply Hhere. apply elem_of_cons. by right.
        -- apply Forall_forall. intros x (t & -> & Ht)%list_elem_of_fmap.
           rewrite (Hhere tb), (Hhere t); [lia|apply elem_of_cons; by right
                                           |apply elem_of_cons; by left].
  - exists []. rewrite app_nil_r. repeat constructor.
Qed.

(** X14: the tables come out in page order with 1-based page numbers no
    greater than the number of pages the table library delivers, whether or
    not it raises on the way. *)
Theorem X14_tables_in_page_order (pages : list (result (list RawTable))) :
  Forall (fun tb => 1 <= tb_page tb <= Z.of_nat (length pages))
         (extract_tables_with_pdfplumber (Ok pages)) /\
  StronglySorted Z.le (map tb_page (extract_tables_with_pdfplumber (Ok pages))).
Proof.
  unfold extract_tables_with_pdfplumber, enumerate.
  destruct (tables_loop_pages pages 0 []) as (new & Hrun & Hnew & Hsorted).
  cbn in Hrun. rewrite Hrun. split; [|done].
  eapply Forall_impl; [exact Hnew|]. intros tb. cbn. lia.
Qed.

(** ** The title *)

Lemma split_no_sep (sep : Z) (s : str) (part : str) :
  part ∈ split sep s -> sep ∉ part.
Proof.
  revert part. induction s as [|c s IH]; intros part Hpart; cbn [split] in Hpart.
  - apply list_elem_of_singleton in Hpart as ->. by intros ?%elem_of_nil.
  - destruct (Z.eqb_spec c sep) as [->|Hne].
    + apply elem_of_cons in Hpart as [->|Hpart]; [by intros ?%elem_of_nil|by apply IH].
    + destruct (split sep s) as [|l ls] eqn:Hs.
      * apply list_elem_of_singleton in Hpart as ->.
        intros ?%list_elem_of_singleton. congruence.
      * apply elem_of_cons in Hpart as [->|Hpart].
        -- intros [?|Hin]%elem_of_cons; [congruence|].
           revert Hin. apply IH. apply elem_of_cons. by left.
        -- apply IH. apply elem_of_cons. by right.
Qed.

Lemma last_elem {A} (l : list A) (d : A) : l <> [] -> List.last l d ∈ l.
Proof.
  induction l as [|y l IH]; [done|]. intros _. destruct l as [|z l].
  - apply elem_of_cons. by left.
  - change (List.last (y :: z :: l) d) with (List.last (z :: l) d).
    apply elem_of_cons. right. by apply IH.
Qed.

Lemma path_name_no_slash (s : str) : SLASH ∉ path_name s.
Proof.
  unfold path_name.
  destruct (filter _ (split SLASH s)) as [|p ps] eqn:Hf; [by intros ?%elem_of_nil|].
  assert (Hin : List.last (p :: ps) [] ∈ filter (fun part => part <> [] /\ part <> [DOT])
                                                (split SLASH s))
    by (rewrite Hf; by apply last_elem).
  apply list_elem_of_filter in Hin as [_ Hin]. by apply split_no_sep in Hin.
Qed.

Lemma path_stem_no_slash (s : str) : SLASH ∉ path_stem s.
Proof.
  unfold path_stem. pose proof (path_name_no_slash s) as Hn.
  destruct (rfind_dot _) as [i|]; [|done]. case_bool_decide; [|done].
  intros Hin. apply Hn. rewrite <- (take_drop i (path_name s)).
  apply elem_of_app. by left.
Qed.

(** X15: the title read from the metadata never contains a slash,
    whatever the metadata held. *)
Theorem X15_metadata_title_has_no_slash (doc : Document) :
  SLASH ∉ get_document_title doc.
Proof.
  unfold get_document_title. destruct (doc_metadata doc) as [md|]; [|by intros ?%elem_of_nil].
  destruct (md_title md) as [[|c t]|]; try (by intros ?%elem_of_nil).
  apply path_stem_no_slash.
Qed.

(** X16: the title written for a document is empty only if the file's stem
    is empty; when the metadata gives a title, the outline and the stem play
    no part. *)
Theorem X16_title_falls_back_to_stem {U : UnicodeData} (doc : Document) (pdf : Plumber)
    (stem : str) (out : OutputData) :
  process_single_pdf (Ok doc) pdf stem = Ok out ->
  (out_title out = [] -> stem = []) /\
  (out_title out = get_document_title doc \/
   (get_document_title doc = [] /\
    (out_title out = stem \/
     exists e, e ∈ out_outline out /\ out_title out = oe_text e))).
Proof.
  intros Hrun. apply process_single_pdf_inv in Hrun
    as (doc' & cs & o & ft & ls & [= <-] & _ & ->). cbn [out_title out_outline].
  unfold resolve_title. destruct (get_document_title doc) as [|c t] eqn:Ht.
  - destruct o as [|x o].
    + split; [done|]. right. split; [done|]. by left.
    + destruct (sorted_outline (x :: o)) as [|e rest] eqn:Hs.
      * split; [done|]. right. split; [done|]. by left.
      * assert (He : e ∈ x :: o).
        { destruct (sorted_outline_head _ _ _ Hs) as (l1 & l2 & -> & _).
          apply elem_of_app. right. apply elem_of_cons. by left. }
        destruct (oe_text e) as [|c' t'] eqn:Hte.
        -- split; [done|]. right. split; [done|]. by left.
        -- split; [done|]. right. split; [done|]. right. exists e. by rewrite Hte.
  - split; [done|]. by left.
Qed.

Lemma X16_witness :
  process_single_pdf (U:=latin1) (Ok doc_word_title) (Ok []) (lit "report") =
    Ok {| out_title := lit "Form123"; out_outline := []; out_content_sections := [];
          out_full_text := []; out_tables := []; out_form_fields := [];
          out_static_form_fields := [] |} /\
  (lit "Form123" = [] -> lit "report" = []).
Proof.
  assert (H : process_single_pdf (U:=latin1) (Ok doc_word_title) (Ok []) (lit "report") =
    Ok {| out_title := lit "Form123"; out_outline := []; out_content_sections := [];
          out_full_text := []; out_tables := []; out_form_fields := [];
          out_static_form_fields := [] |}) by (vm_compute; reflexivity).
  split; [exact H|].
  exact (proj1 (X16_title_falls_back_to_stem (U:=latin1) _ _ _ _ H)).
Defined.

(** ** Stripping *)

Lemma re_space_py c : re_space c = true -> py_isspace c = true.
Proof. unfold re_space. by intros [? _]%andb_true_iff. Qed.

Lemma lstrip_head (s : str) c t : lstrip s = c :: t -> py_isspace c = false.
Proof.
  induction s as [|x s IH]; [done|]. cbn [lstrip].
  destruct (py_isspace x) eqn:Hx; [done|]. by intros [= <- _].
Qed.

Lemma lstrip_suffix (s : str) :
  exists w, s = w ++ lstrip s /\ Forall (fun c => py_isspace c = true) w.
Proof.
  induction s as [|x s (w & Hs & Hw)]; [by exists []|]. cbn [lstrip].
  destruct (py_isspace x) eqn:Hx; [|by exists []].
  exists (x :: w). split; [by rewrite <- app_comm_cons, <- Hs|by constructor].
Qed.

Lemma lstrip_spaces (w s : str) :
  Forall (fun c => py_isspace c = true) w -> lstrip (w ++ s) = lstrip s.
Proof. induction 1 as [|c w Hc Hw IH]; [done|]. cbn [app lstrip]. by rewrite Hc. Qed.

Lemma lstrip_fixed (s : str) c t : s = c :: t -> py_isspace c = false -> lstrip s = s.
Proof. intros -> Hc. cbn [lstrip]. by rewrite Hc. Qed.

(** A stripped string begins and ends with a character that is no white
    space. *)
Lemma strip_head (s : str) c t : strip s = c :: t -> py_isspace c = false.
Proof.
  unfold strip, rstrip. intros Hs.
  destruct (lstrip s) as [|x l] eqn:Hl; [done|].
  pose proof (lstrip_head _ _ _ Hl) as Hx.
  destruct (lstrip_suffix (reverse (x :: l))) as (w & Hrev & Hw).
  assert (Hxl : x :: l = reverse (lstrip (reverse (x :: l))) ++ reverse w).
  { rewrite <- reverse_app, <- Hrev. by rewrite reverse_involutive. }
  rewrite Hs in Hxl. cbn in Hxl. by inversion Hxl; subst.
Qed.

Lemma strip_spaces_left (w s : str) :
  Forall (fun c => py_isspace c = true) w -> strip (w ++ s) = strip s.
Proof. intros Hw. unfold strip. by rewrite lstrip_spaces. Qed.

Lemma strip_idem_lstrip (s : str) : lstrip (strip s) = strip s.
Proof.
  destruct (strip s) as [|c t] eqn:Hs; [done|].
  eapply lstrip_fixed; [done|]. by eapply strip_head.
Qed.

(** ** Greedy repetition *)

(** When what follows cannot fail (for a given number of open groups), a
    repetition takes the longest run of its class. *)
Lemma rep_greedy_longest {R} (p : Z -> bool) (k : cursor -> option R) (n : nat) :
  (forall c, length (opened c) = n -> is_Some (k c)) ->
  forall ah sn op cp, length op = n ->
    exists w ah',
      ah = w ++ ah' /\ Forall (fun x => p x = true) w /\
      match ah' with [] => True | x :: _ => p x = false end /\
      rep_greedy p k sn op cp ah =
        k (Cursor (reverse w ++ sn) ah' (map (app (reverse w)) op) cp).
Proof.
  intros Hk. induction ah as [|c ah IH]; intros sn op cp Hop; cbn [rep_greedy].
  - exists [], []. repeat split; [constructor|]. by rewrite map_id.
  - destruct (p c) eqn:Hc.
    + destruct (IH (c :: sn) (map (cons c) op) cp) as (w & ah' & -> & Hw & Hstop & Hrun);
        [by rewrite length_map|].
      exists (c :: w), ah'. split; [done|]. split; [by constructor|]. split; [done|].
      rewrite Hrun.
      assert (Hcur : Cursor (reverse w ++ c :: sn) ah' (map (app (reverse w)) (map (cons c) op)) cp
                     = Cursor (reverse (c :: w) ++ sn) ah' (map (app (reverse (c :: w))) op) cp).
      { rewrite reverse_cons, <- app_assoc. f_equal. rewrite map_map.
        apply map_ext. intros g. by rewrite <- app_assoc. }
      rewrite Hcur. destruct (Hk (Cursor (reverse (c :: w) ++ sn) ah'
                                    (map (app (reverse (c :: w))) op) cp)) as [r ->];
        [cbn; by rewrite length_map|done].
    + exists [], (c :: ah). split; [done|]. split; [constructor|]. split; [done|].
      by rewrite map_id.
Qed.

Section BulletFacts.
Context {U : UnicodeData}.

Lemma bullet_glyph_not_space g : bullet_glyph g = true -> re_space g = false.
Proof.
  unfold bullet_glyph. rewrite !orb_true_iff, !Z.eqb_eq.
  intros [[[->| ->]| ->]| ->]; reflexivity.
Qed.

(** The bullet pattern on a line that starts with a glyph and white space:
    the item is what follows the white space, up to the first line break. *)
Lemma bullet_match_glyph (g s : Z) (rest : str) :
  bullet_glyph g = true -> re_space s = true ->
  exists ws item tail m,
    rest = ws ++ item ++ tail /\
    Forall (fun x => re_space x = true) ws /\
    match item ++ tail with [] => True | x :: _ => re_space x = false end /\
    Forall (fun x => dot_class x = true) item /\
    match tail with [] => True | x :: _ => dot_class x = false end /\
    re_match bullet_pattern (g :: s :: rest) = Some m /\ group 2 m = item.
Proof.
  intros Hg Hs. unfold re_match, match_here, bullet_pattern, cat_all.
  cbn [foldr run seen ahead opened caps Plus rep_greedy].
  rewrite (bullet_glyph_not_space g Hg), Hg. cbn [seen ahead opened caps map].
  rewrite Hs. cbn [seen ahead opened caps map].
  set (k3 := fun c1 : cursor =>
               match opened c1 with
               | g0 :: op => Some (Cursor (seen c1) (ahead c1) op ((2%nat, reverse g0) :: caps c1))
               | [] => None
               end).
  set (k2 := fun c : cursor => rep_greedy dot_class k3 (seen c) ([] :: opened c) (caps c) (ahead c)).
  assert (Hk3 : forall c, length (opened c) = 1%nat -> is_Some (k3 c)).
  { intros [sn ah [|g0 op] cp] Hop; [done|]. by eexists. }
  assert (Hk2 : forall c, length (opened c) = 0%nat -> is_Some (k2 c)).
  { intros [sn ah op cp] Hop. unfold k2. cbn [seen ahead opened caps].
    destruct (rep_greedy_longest dot_class k3 1 Hk3 ah sn ([] :: op) cp)
      as (w & ah' & _ & _ & _ & ->); [cbn; cbn in Hop; lia|].
    apply Hk3. cbn. rewrite length_map. cbn in Hop. cbn. lia. }
  destruct (rep_greedy_longest re_space k2 0 Hk2 rest [s; g] [] [(1%nat, [g])])
    as (ws & rest' & Hrest & Hws & Hstop & Hrun); [done|].
  change (rep_greedy re_space _ [s; g] [] [(1%nat, reverse [g])] rest)
    with (rep_greedy re_space k2 [s; g] [] [(1%nat, [g])] rest).
  rewrite Hrun. unfold k2 at 1. cbn [seen ahead opened caps map].
  destruct (rep_greedy_longest dot_class k3 1 Hk3 rest' (reverse ws ++ [s; g]) [[]]
              [(1%nat, [g])]) as (item & tail & Htail & Hitem & Hstop' & Hrun'); [done|].
  rewrite Hrun'. cbn [k3 opened map seen ahead caps].
  exists ws, item, tail. eexists. split; [by rewrite Hrest, Htail|].
  split; [done|]. split; [by rewrite <- Htail|]. split; [done|]. split; [done|].
  split; [done|]. unfold group. cbn. by rewrite app_nil_r, reverse_involutive.
Qed.
End BulletFacts.

(** X17: a line is a bullet line exactly when, once stripped, it starts
    with one of the four glyphs followed by a white-space character; a
    glyph with text right after it does not make a list item. *)
Theorem X17_bullet_line_iff {U : UnicodeData} (line : str) :
  is_bullet_line line = true <->
  exists g s rest,
    strip line = g :: s :: rest /\ bullet_glyph g = true /\ re_space s = true.
Proof.
  unfold is_bullet_line. rewrite bool_decide_eq_true. split.
  - intros [m Hm]. unfold re_match in Hm.
    apply match_here_shape in Hm as (w & Hsplit & Hshape).
    unfold bullet_pattern, cat_all in Hshape. cbn [foldr shape Plus] in Hshape.
    destruct Hshape as (? & ? & -> & -> & ws & ? & -> & Hws
                        & ? & ? & -> & (g & -> & Hg)
                        & ? & ? & -> & (? & ws2 & -> & (s & -> & Hs) & _) & _).
    destruct ws as [|x ws].
    + cbn in Hsplit. rewrite <- app_assoc in Hsplit. cbn in Hsplit. by eexists g, s, _.
    + cbn in Hsplit. apply Forall_cons in Hws as [Hx%re_space_py _].
      apply strip_head in Hsplit. congruence.
  - intros (g & s & rest & -> & Hg & Hs).
    destruct (bullet_match_glyph g s rest Hg Hs) as (_ & _ & _ & m & _ & _ & _ & _ & _ & -> & _).
    by eexists.
Qed.

(** X18: the item text of a bullet line of a block is the line without its
    glyph, stripped. *)
Theorem X18_bullet_item_text {U : UnicodeData} (b : TextBlock) (line : str)
    (g s : Z) (rest : str) :
  line ∈ split NL (text b) ->
  strip line = g :: s :: rest -> bullet_glyph g = true -> re_space s = true ->
  bullet_item line = Some (strip (s :: rest)).
Proof.
  intros Hline Hstrip Hg Hs.
  destruct (bullet_match_glyph g s rest Hg Hs)
    as (ws & item & tail & m & Hrest & Hws & _ & Hitem & Htail & Hm & Hgroup).
  unfold bullet_item. rewrite Hstrip, Hm, Hgroup. f_equal.
  assert (Hnl : NL ∉ strip line).
  { intros Hin%strip_elem. by apply (split_no_sep NL (text b) line). }
  destruct tail as [|x tail].
  - rewrite app_nil_r in Hrest. subst rest.
    change (s :: ws ++ item) with ((s :: ws) ++ item). rewrite strip_spaces_left; [done|].
    constructor; [by apply re_space_py|].
    eapply Forall_impl; [exact Hws|]. apply re_space_py.
  - exfalso. apply Hnl. rewrite Hstrip, Hrest.
    unfold dot_class in Htail. apply negb_false_iff, Z.eqb_eq in Htail. subst x.
    apply elem_of_cons. right. apply elem_of_cons. right.
    apply elem_of_app. right. apply elem_of_app. right. apply elem_of_cons. by left.
Qed.

Lemma X18_witness :
  (BULLET :: lit " Buy milk") ∈ split NL (text shopping_block) /\
  bullet_item (U:=latin1) (BULLET :: lit " Buy milk") = Some (lit "Buy milk").
Proof.
  assert (H1 : (BULLET :: lit " Buy milk") ∈ split NL (text shopping_block)).
  { vm_compute. apply elem_of_cons. by left. }
  split; [exact H1|].
  exact (X18_bullet_item_text (U:=latin1) shopping_block (BULLET :: lit " Buy milk")
           BULLET SPACE (lit "Buy milk") H1 eq_refl eq_refl eq_refl).
Defined.

(** ** Captures *)

Lemma rep_greedy_inv_opened {R} (p : Z -> bool) (k : cursor -> option R) sn op cp ah r :
  rep_greedy p k sn op cp ah = Some r ->
  exists w ah', ah = w ++ ah' /\ Forall (fun x => p x = true) w /\
    k (Cursor (reverse w ++ sn) ah' (map (app (reverse w)) op) cp) = Some r.
Proof.
  revert sn op. induction ah as [|c ah IH]; intros sn op Hrun; cbn [rep_greedy] in Hrun.
  - exists [], []. by rewrite map_id.
  - assert (Hstay : k (Cursor sn (c :: ah) op cp) = Some r ->
             exists w ah', c :: ah = w ++ ah' /\ Forall (fun x => p x = true) w /\
               k (Cursor (reverse w ++ sn) ah' (map (app (reverse w)) op) cp) = Some r).
    { intros Hk. exists [], (c :: ah). by rewrite map_id. }
    destruct (p c) eqn:Hc; [|by apply Hstay].
    destruct (rep_greedy p k (c :: sn) (map (cons c) op) cp ah) as [r'|] eqn:Hrec;
      [|by apply Hstay].
    inversion Hrun; subst. destruct (IH _ _ Hrec) as (w & ah' & -> & Hw & Hk).
    exists (c :: w), ah'. split; [done|]. split; [by constructor|].
    rewrite reverse_cons, <- app_assoc. rewrite map_map in Hk.
    erewrite map_ext; [exact Hk|]. intros g. by rewrite <- app_assoc.
Qed.

Section CaptureFacts.
Context {U : UnicodeData}.

(** A successful run hands on the captures it found, each a word of the
    shape of its group, in front of those it was given. *)
Lemma run_captures (r : regex) : forall c k m,
  run r c k = Some m ->
  exists w rest new,
    ahead c = w ++ rest /\ shape r w /\ Forall (capture_of r) new /\
    k (Cursor (reverse w ++ seen c) rest (map (app (reverse w)) (opened c))
              (new ++ caps c)) = Some m.
Proof.
  induction r as [|p|p|r1 IH1 r2 IH2|r1 IH1 r2 IH2|n r1 IH1| | | | |r1 IH1];
    intros [sn ah op cp] k m Hrun; cbn [run seen ahead opened caps] in Hrun.
  - exists [], ah, []. rewrite map_id. by repeat split.
  - destruct ah as [|x ah]; [done|]. destruct (p x) eqn:Hx; [|done].
    exists [x], ah, []. split; [done|]. split; [by exists x|]. split; [constructor|done].
  - apply rep_greedy_inv_opened in Hrun as (w & ah' & -> & Hw & Hk).
    exists w, ah', []. by repeat split.
  - apply IH1 in Hrun as (w1 & rest1 & new1 & Hah & Hs1 & Hc1 & Hrun).
    apply IH2 in Hrun as (w2 & rest & new2 & Hrest & Hs2 & Hc2 & Hk).
    cbn [seen ahead opened caps] in *. subst.
    exists (w1 ++ w2), rest, (new2 ++ new1).
    split; [by rewrite <- app_assoc|]. split; [by exists w1, w2|]. split.
    + apply Forall_app. split; (eapply Forall_impl; [eassumption|]);
        intros cap (r' & Hin & Hsh); exists r'; (split; [|done]);
        cbn [groups]; apply elem_of_app; auto.
    + rewrite reverse_app, <- !app_assoc. rewrite map_map in Hk.
      erewrite map_ext; [exact Hk|]. intros g. by rewrite <- app_assoc.
  - destruct (run r1 _ k) as [m'|] eqn:H1.
    + inversion Hrun; subst. apply IH1 in H1 as (w & rest & new & ? & ? & Hc & ?).
      exists w, rest, new. cbn [shape]. split; [done|]. split; [auto|]. split; [|done].
      eapply Forall_impl; [exact Hc|]. intros cap (r' & Hin & Hsh). exists r'.
      split; [|done]. cbn [groups]. apply elem_of_app. auto.
    + apply IH2 in Hrun as (w & rest & new & ? & ? & Hc & ?).
      exists w, rest, new. cbn [shape]. split; [done|]. split; [auto|]. split; [|done].
      eapply Forall_impl; [exact Hc|]. intros cap (r' & Hin & Hsh). exists r'.
      split; [|done]. cbn [groups]. apply elem_of_app. auto.
  - apply IH1 in Hrun as (w & rest & new & Hah & Hs & Hc & Hk).
    cbn [seen ahead opened caps map] in *. rewrite app_nil_r, reverse_involutive in Hk.
    exists w, rest, ((n, w) :: new). split; [done|]. split; [done|]. split; [|done].
    constructor.
    + exists r1. split; [|done]. cbn. apply elem_of_cons. by left.
    + eapply Forall_impl; [exact Hc|]. intros cap (r' & Hin & Hsh). exists r'.
      split; [|done]. cbn [groups]. apply elem_of_cons. by right.
  - destruct sn; [|done]. exists [], ah, []. rewrite map_id. by repeat split.
  - assert (H : k (Cursor sn ah op cp) = Some m)
      by (destruct sn as [|x sn]; [done|]; by destruct (x =? NL)).
    exists [], ah, []. rewrite map_id. by repeat split.
  - assert (H : k (Cursor sn ah op cp) = Some m)
      by (destruct ah as [|x ah]; [done|]; by destruct (x =? NL)).
    exists [], ah, []. rewrite map_id. by repeat split.
  - destruct (at_word_boundary _); [|done]. exists [], ah, []. rewrite map_id.
    by repeat split.
  - destruct (run r1 _ Some); [done|]. exists [], ah, []. rewrite map_id. by repeat split.
Qed.

Lemma match_here_captures (r : regex) sn ah m :
  match_here r sn ah = Some m -> Forall (capture_of r) (caps m).
Proof.
  intros (w & rest & new & _ & _ & Hc & [= <-])%run_captures. cbn.
  by rewrite app_nil_r.
Qed.

Lemma finditer_from_attempts (r : regex) (ah : str) : forall skip sn m,
  m ∈ finditer_from r skip sn ah -> exists sn' ah', match_here r sn' ah' = Some m.
Proof.
  induction ah as [|c ah IH]; intros skip sn m Hm.
  - destruct skip; cbn [finditer_from] in Hm; [|by apply elem_of_nil in Hm].
    destruct (match_here r sn []) as [m'|] eqn:Hh; [|by apply elem_of_nil in Hm].
    apply list_elem_of_singleton in Hm as ->. by eexists _, _.
  - destruct skip; cbn [finditer_from] in Hm; [|by eapply IH].
    destruct (match_here r sn (c :: ah)) as [m'|] eqn:Hh; [|by eapply IH].
    apply elem_of_cons in Hm as [->|Hm]; [by eexists _, _|by eapply IH].
Qed.

(** The text of a group of a match has the shape of a group with that
    number, or is empty when there is none. *)
Lemma group_shape (r : regex) (n : nat) (m : cursor) :
  Forall (capture_of r) (caps m) ->
  group n m = [] \/ exists r1, (n, r1) ∈ groups r /\ shape r1 (group n m).
Proof.
  intros Hc. unfold group.
  destruct (list_find _ (caps m)) as [[i [n' t]]|] eqn:Hfind; [|by left].
  apply list_find_Some in Hfind as (Hi & Hn & _). cbn in Hn. subst n'.
  rewrite Forall_forall in Hc. destruct (Hc (n, t)) as (r1 & Hin & Hsh).
  { by eapply list_elem_of_lookup_2. }
  right. by exists r1.
Qed.
End CaptureFacts.

Lemma replace_line_break_absent (s : str) :
  (NL ∉ s) -> replace [NL] [SPACE] s = s.
Proof.
  unfold replace. induction s as [|c s IH]; intros Hs; [done|].
  apply not_elem_of_cons in Hs as [Hc Hs]. cbn [replace_from starts_with].
  assert ((NL =? c) = false) as -> by (apply Z.eqb_neq; congruence).
  cbn. by rewrite IH.
Qed.

(** X19: every static form field comes from a candidate whose numeral is
    a run of number characters closed by "." or ")"; its number is [int] of
    the digits of that numeral, and its label is the stripped rest of one
    line: it holds no line break (so replacing line breaks changes nothing)
    and does not begin with white space. *)
Theorem X19_static_field_shape {U : UnicodeData} (full_text : str) (f : StaticFormField) :
  f ∈ extract_static_form_fields full_text ->
  exists m,
    m ∈ finditer field_pattern full_text /\
    label f = strip (group 2 m) /\
    (NL ∉ label f) /\
    (forall c t, label f = c :: t -> py_isspace c = false) /\
    int_of_digits (strip_non_digits (group 1 m)) = Ok (field_number f) /\
    exists num p,
      group 1 m = num ++ [p] /\ num <> [] /\
      Forall (fun x => uni_N x = true) num /\ (p = 46 \/ p = 41).
Proof.
  unfold extract_static_form_fields. intros (m & Hm & Hf)%list_elem_of_omap.
  exists m. split; [done|].
  destruct (finditer_from_attempts _ _ _ _ _ Hm) as (sn & ah & Hhere).
  apply match_here_captures in Hhere.
  unfold field_of_match in Hf.
  destruct (int_of_digits (strip_non_digits (group 1 m))) as [n|] eqn:Hint; [|done].
  injection Hf as <-. cbn [label field_number].
  assert (Hnl : NL ∉ strip (group 2 m)).
  { intros Hin%strip_elem.
    destruct (group_shape field_pattern 2 m Hhere) as [Hg|(r1 & Hr1 & Hsh)].
    - rewrite Hg in Hin. by apply elem_of_nil in Hin.
    - unfold field_pattern, cat_all in Hr1. cbn in Hr1.
      apply elem_of_cons in Hr1 as [[=]|Hr1].
      apply list_elem_of_singleton in Hr1. inversion Hr1; subst r1.
      cbn [shape Plus] in Hsh. destruct Hsh as (? & w & Hw & (d & -> & Hd) & Hrest).
      rewrite Hw in Hin. apply elem_of_cons in Hin as [<-|Hin]; [done|].
      rewrite Forall_forall in Hrest. by specialize (Hrest _ Hin). }
  pose proof (replace_line_break_absent _ Hnl) as Hrep.
  unfold replace in Hrep. rewrite Hrep.
  split; [done|]. split; [done|]. split; [apply strip_head|]. split; [done|].
  destruct (group_shape field_pattern 1 m Hhere) as [Hg|(r1 & Hr1 & Hsh)].
  { rewrite Hg in Hint. done. }
  unfold field_pattern, cat_all in Hr1. cbn in Hr1.
  apply elem_of_cons in Hr1 as [Hr1|Hr1].
  - inversion Hr1; subst r1. cbn [shape Plus] in Hsh.
    destruct Hsh as (? & ? & -> & (? & w & -> & (d & -> & Hd) & Hw) & p & -> & Hp).
    exists (d :: w), p. split; [done|]. split; [done|]. split; [by constructor|].
    apply orb_true_iff in Hp as [?%Z.eqb_eq|?%Z.eqb_eq]; auto.
  - apply list_elem_of_singleton in Hr1. inversion Hr1.
Qed.

Lemma X19_witness :
  wanted_field ∈ extract_static_form_fields (U:=latin1) wanted_line /\
  (NL ∉ label wanted_field).
Proof.
  assert (H : wanted_field ∈ extract_static_form_fields (U:=latin1) wanted_line).
  { vm_compute. apply elem_of_cons. left. reflexivity. }
  split; [exact H|].
  destruct (X19_static_field_shape (U:=latin1) _ _ H) as (m & _ & _ & Hnl & _).
  exact Hnl.
Defined.

(** ** Searching *)

Lemma starts_with_iff (p s : str) :
  starts_with p s = true <-> exists c, s = p ++ c.
Proof.
  revert s. induction p as [|a p IH]; intros s; cbn [starts_with].
  - split; [by exists s|done].
  - destruct s as [|b s].
    + split; [done|]. by intros (c & ?).
    + rewrite andb_true_iff, Z.eqb_eq, IH. split.
      * intros (-> & c & ->). by exists c.
      * intros (c & [= -> ->]). split; [done|by exists c].
Qed.

Lemma contains_iff (sub s : str) :
  contains sub s = true <-> exists a c, s = a ++ sub ++ c.
Proof.
  induction s as [|x s IH]; cbn [contains]; rewrite orb_true_iff, starts_with_iff.
  - split.
    + intros [(c & Hc)|?]; [|done]. by exists [], c.
    + intros (a & c & Hs). left. destruct a; [by exists c|done].
  - rewrite IH. split.
    + intros [(c & Hc)|(a & c & ->)]; [by exists [], c|by exists (x :: a), c].
    + intros ([|y a] & c & Hs); [left; by exists c|].
      right. injection Hs as -> ->. by exists a, c.
Qed.

Lemma rep_greedy_complete (p : Z -> bool) (k : cursor -> option cursor)
    (cp : list (nat * str)) (rest : str) : forall w sn op,
  Forall (fun x => p x = true) w ->
  (forall c', seen c' = reverse w ++ sn -> ahead c' = rest ->
              length (opened c') = length op -> is_Some (k c')) ->
  is_Some (rep_greedy p k sn op cp (w ++ rest)).
Proof.
  induction w as [|x w IH]; intros sn op Hw Hk.
  - cbn [app]. assert (Hhere : is_Some (k (Cursor sn rest op cp))) by by apply Hk.
    destruct rest as [|y rest]; cbn [rep_greedy]; [done|].
    destruct (p y); [|done]. by destruct (rep_greedy _ _ _ _ _ _).
  - apply Forall_cons in Hw as [Hx Hw]. cbn [app rep_greedy]. rewrite Hx.
    assert (Hin : is_Some (rep_greedy p k (x :: sn) (map (cons x) op) cp (w ++ rest))).
    { apply IH; [done|]. intros c' Hs Ha Hl. apply Hk; [|done|].
      - by rewrite Hs, reverse_cons, <- app_assoc.
      - by rewrite Hl, length_map. }
    by destruct Hin as [m ->].
Qed.

Section SearchFacts.
Context {U : UnicodeData}.

(** On a plain pattern the matcher finds a match whenever the text ahead
    begins with a word of the pattern's shape after which the rest of the
    matching succeeds. *)
Lemma run_complete (r : regex) : forall w rest c k,
  plain r = true -> shape r w -> ahead c = w ++ rest ->
  (forall c', seen c' = reverse w ++ seen c -> ahead c' = rest ->
              length (opened c') = length (opened c) -> is_Some (k c')) ->
  is_Some (run r c k).
Proof.
  induction r as [|p|p|r1 IH1 r2 IH2|r1 IH1 r2 IH2|n r1 IH1| | | | |r1 IH1];
    intros w rest [sn ah op cp] k Hpl Hsh Hah Hk;
    cbn [plain] in Hpl; try done;
    cbn [run shape seen ahead opened caps] in *.
  - subst w. by apply Hk.
  - destruct Hsh as (x & -> & Hx). subst ah. cbn [app]. rewrite Hx.
    apply Hk; [done|done|]. cbn [opened]. by rewrite length_map.
  - subst ah. by apply rep_greedy_complete.
  - apply andb_true_iff in Hpl as [Hp1 Hp2].
    destruct Hsh as (w1 & w2 & -> & Hs1 & Hs2).
    apply (IH1 w1 (w2 ++ rest)); [done|done|by rewrite Hah, <- app_assoc|].
    intros c1 Hs Ha Hl. apply (IH2 w2 rest); [done..|].
    intros c2 Hs' Ha' Hl'. apply Hk; [|done|by rewrite Hl', Hl].
    by rewrite Hs', Hs, reverse_app, <- app_assoc.
  - apply andb_true_iff in Hpl as [Hp1 Hp2].
    destruct (run r1 _ k) as [m|] eqn:Hrun; [done|].
    destruct Hsh as [Hs1|Hs2].
    + pose proof (IH1 w rest (Cursor sn ah op cp) k Hp1 Hs1 Hah Hk) as Hsome.
      rewrite Hrun in Hsome. by destruct Hsome.
    + by apply (IH2 w rest).
  - apply (IH1 w rest); [done..|].
    intros c1 Hs Ha Hl. cbn [opened length] in Hl.
    destruct (opened c1) as [|g op1] eqn:Hop; [done|].
    apply Hk; cbn [seen ahead opened]; [done|done|]. cbn [length] in Hl. lia.
Qed.

Lemma search_from_sound (r : regex) : forall ah sn m,
  search_from r sn ah = Some m ->
  exists a rest, ah = a ++ rest /\ match_here r (reverse a ++ sn) rest = Some m.
Proof.
  induction ah as [|x ah IH]; intros sn m; cbn [search_from].
  - destruct (match_here r sn []) eqn:Hhere; [|done]. intros [= ->]. by exists [], [].
  - destruct (match_here r sn (x :: ah)) eqn:Hhere.
    + intros [= ->]. by exists [], (x :: ah).
    + intros (a & rest & -> & Hm)%IH. exists (x :: a), rest. split; [done|].
      by rewrite reverse_cons, <- app_assoc.
Qed.

Lemma search_from_complete (r : regex) (rest : str) : forall a sn,
  is_Some (match_here r (reverse a ++ sn) rest) ->
  is_Some (search_from r sn (a ++ rest)).
Proof.
  induction a as [|x a IH]; intros sn Hhere.
  - cbn [app reverse] in *. rewrite reverse_nil in Hhere. cbn [app] in Hhere.
    destruct Hhere as [m Hm]. destruct rest; cbn [search_from]; by rewrite Hm.
  - cbn [app search_from]. destruct (match_here r sn _); [done|].
    apply IH. by rewrite reverse_cons, <- app_assoc in Hhere.
Qed.

Lemma re_search_plain (r : regex) (s : str) :
  plain r = true -> re_search r s = true <-> occurs r s.
Proof.
  intros Hpl. unfold re_search, occurs. split.
  - destruct (search_from r [] s) as [m|] eqn:Hs; [|done]. intros _.
    apply search_from_sound in Hs as (a & rest & -> & Hm).
    apply run_shape in Hm as (w & c & _ & _ & Hah & Hsh & _).
    cbn [ahead] in Hah. by exists a, w, c; rewrite Hah.
  - intros (a & w & c & -> & Hsh).
    assert (Hsome : is_Some (search_from r [] (a ++ w ++ c))).
    { apply search_from_complete. unfold match_here.
      by apply (run_complete r w c). }
    by destruct Hsome as [m ->].
Qed.
End SearchFacts.

(** ** Semantic classification *)

Lemma shape_cat_all_nil (w : str) : shape (cat_all []) w <-> w = [].
Proof. done. Qed.

Lemma shape_cat_all_cons (r : regex) (rs : list regex) (w : str) :
  shape (cat_all (r :: rs)) w <->
  exists w1 w2, w = w1 ++ w2 /\ shape r w1 /\ shape (cat_all rs) w2.
Proof. done. Qed.

Lemma shape_literal (s : str) (rs : list regex) : forall w,
  shape (cat_all (map (fun l => Chr (Z.eqb l)) s ++ rs)) w <->
  exists w', w = s ++ w' /\ shape (cat_all rs) w'.
Proof.
  induction s as [|a s IH]; intros w; cbn [map app].
  - split; [by exists w|by intros (w' & -> & ?)].
  - rewrite shape_cat_all_cons. split.
    + intros (w1 & w2 & -> & (x & -> & ->%Z.eqb_eq) & (w' & -> & Hw')%IH).
      by exists w'.
    + intros (w' & -> & Hw'). exists [a], (s ++ w'). split; [done|]. split.
      * exists a. by rewrite Z.eqb_refl.
      * apply IH. by exists w'.
Qed.

Lemma shape_plus_dot (w : str) :
  shape (Plus dot_class) w <-> w <> [] /\ (NL ∉ w).
Proof.
  unfold Plus, dot_class. cbn [shape]. split.
  - intros (w1 & w2 & -> & (x & -> & Hx) & Hw2). split; [done|].
    intros [<-|Hin]%elem_of_cons; [done|].
    rewrite Forall_forall in Hw2. by specialize (Hw2 _ Hin).
  - intros [Hne Hnl]. destruct w as [|x w]; [done|].
    apply not_elem_of_cons in Hnl as [Hx Hw].
    exists [x], w. split; [done|]. split.
    + exists x. split; [done|]. apply negb_true_iff, Z.eqb_neq. congruence.
    + apply Forall_forall. intros y Hy. apply negb_true_iff, Z.eqb_neq.
      intros ->. done.
Qed.

Lemma occurs_website (s : str) :
  occurs website_pattern s <-> has_web_address s.
Proof.
  unfold occurs, has_web_address, website_pattern. split.
  - intros (a & w & c & -> & Hsh).
    apply shape_literal in Hsh as (w1 & -> & Hsh). cbn [app] in Hsh.
    apply shape_cat_all_cons in Hsh as (b & w2 & -> & [Hne Hnl]%shape_plus_dot & Hsh).
    rewrite <- (app_nil_r (map _ _)) in Hsh.
    apply shape_literal in Hsh as (w3 & -> & ->).
    exists a, b, c. by rewrite app_nil_r, <- !app_assoc.
  - intros (a & b & c & -> & Hne & Hnl).
    exists a, (lit "www." ++ b ++ lit ".com"), c. split; [by rewrite <- !app_assoc|].
    apply shape_literal. exists (b ++ lit ".com"). split; [done|]. cbn [app].
    apply shape_cat_all_cons. exists b, (lit ".com"). split; [done|].
    split; [by apply shape_plus_dot|].
    rewrite <- (app_nil_r (map _ _)). apply shape_literal. exists [].
    by rewrite app_nil_r.
Qed.

Section ClassifyFacts.
Context {U : UnicodeData}.

(** X20: a block is classified as a website exactly when its lower-cased
    text holds "www.", then one or more characters of the same line, then
    ".com"; the search finds such a stretch wherever it lies. *)
Theorem X20_website_iff_web_address (block_text : str) :
  classify_content_block block_text = T_website <->
  has_web_address (lower block_text).
Proof.
  rewrite <- occurs_website, <- (re_search_plain website_pattern) by done.
  unfold classify_content_block.
  destruct (re_search website_pattern _); [done|].
  destruct (_ || _); [done|]. by destruct (contains _ _).
Qed.

(** X21: a block is classified as an address exactly when its lower-cased
    text holds no web address and either contains "address:" or has a
    stretch of the address shape (digits, white space, lower-case letters
    and white space, a comma, white space, two letters, white space,
    digits). *)
Theorem X21_address_iff (block_text : str) :
  classify_content_block block_text = T_address <->
  ~ has_web_address (lower block_text) /\
  ((exists a c, lower block_text = a ++ lit "address:" ++ c) \/
   occurs address_pattern (lower block_text)).
Proof.
  rewrite <- occurs_website, <- (re_search_plain website_pattern) by done.
  rewrite <- contains_iff, <- (re_search_plain address_pattern) by done.
  rewrite <- orb_true_iff. unfold classify_content_block.
  destruct (re_search website_pattern _).
  - split; [done|]. by intros [[] _].
  - destruct (_ || _).
    + split; [done|]. by intros _.
    + split; [by destruct (contains _ _)|]. by intros [_ ?].
Qed.
End ClassifyFacts.

(** ** Interactive form fields *)

Lemma form_fields_from (pages : list Page) : forall k,
  (forall i pg, pages !! i = Some pg -> page_number pg = Z.of_nat (k + i)) ->
  let fields :=
    flat_map (fun pg =>
                map (fun field =>
                       {| ff_name := w_field_name field;
                          ff_type := w_field_type_string field;
                          ff_value := w_field_value field;
                          ff_page := page_number pg + 1 |})
                    (page_widgets pg))
             pages in
  StronglySorted Z.le (map ff_page fields) /\
  Forall (fun f => Z.of_nat k + 1 <= ff_page f <= Z.of_nat (k + length pages)) fields.
Proof.
  induction pages as [|pg pages IH]; intros k Hnum; cbn [flat_map].
  - split; constructor.
  - destruct (IH (S k)) as [Hsorted Hrange].
    { intros i pg' Hi. rewrite (Hnum (S i) pg' Hi). f_equal. lia. }
    pose proof (Hnum 0%nat pg eq_refl) as Hpg. rewrite Nat.add_0_r in Hpg.
    assert (Hhere : Forall (fun f => ff_page f = Z.of_nat k + 1)
                      (map (fun field =>
                              {| ff_name := w_field_name field;
                                 ff_type := w_field_type_string field;
                                 ff_value := w_field_value field;
                                 ff_page := page_number pg + 1 |})
                           (page_widgets pg))).
    { apply Forall_forall. intros f (w & -> & _)%list_elem_of_fmap.
      cbn [ff_page]. by rewrite Hpg. }
    rewrite Forall_forall in Hhere, Hrange. split.
    + rewrite map_app. apply StronglySorted_app_2.
      * intros p1 p2 (f1 & -> & Hf1)%list_elem_of_fmap (f2 & -> & Hf2)%list_elem_of_fmap.
        specialize (Hhere _ Hf1). specialize (Hrange _ Hf2). lia.
      * induction (page_widgets pg) as [|w ws IHw]; cbn [map]; constructor.
        -- apply IHw. intros f Hf. apply Hhere. cbn [map]. by apply elem_of_cons; right.
        -- apply Forall_forall. intros p (f & -> & Hf)%list_elem_of_fmap.
           rewrite (Hhere f) by (cbn [map]; by apply elem_of_cons; right).
           cbn [ff_page]. lia.
      * done.
    + apply Forall_forall. intros f [Hf|Hf]%elem_of_app.
      * rewrite (Hhere _ Hf). cbn [length]. lia.
      * specialize (Hrange _ Hf). cbn [length]. lia.
Qed.

(** X22: the form fields carry the widgets of the document unchanged, page
    after page and in each page's order; when the pages are numbered by
    position, the fields' page numbers never decrease and lie between 1 and
    the number of pages. *)
Theorem X22_form_fields_follow_widgets (doc : Document) :
  numbered_by_position doc ->
  map field_widget (extract_form_fields doc) = flat_map page_widgets (doc_pages doc) /\
  StronglySorted Z.le (map ff_page (extract_form_fields doc)) /\
  Forall (fun f => 1 <= ff_page f <= Z.of_nat (length (doc_pages doc)))
         (extract_form_fields doc).
Proof.
  intros Hnum. split.
  - unfold extract_form_fields. clear Hnum.
    induction (doc_pages doc) as [|pg pages IH]; [done|].
    cbn [flat_map]. rewrite map_app, IH. f_equal.
    rewrite map_map. unfold field_widget. cbn [ff_name ff_type ff_value].
    induction (page_widgets pg) as [|[] ws IHw]; [done|]. cbn [map]. by rewrite IHw.
  - destruct (form_fields_from (doc_pages doc) 0 Hnum) as [Hsorted Hrange].
    split; [exact Hsorted|exact Hrange].
Qed.

Lemma X22_witness :
  numbered_by_position doc_two_forms /\
  StronglySorted Z.le (map ff_page (extract_form_fields doc_two_forms)).
Proof.
  assert (Hnum : numbered_by_position doc_two_forms).
  { intros [|[|i]] pg; cbn; intros [= <-] || intros [=]; reflexivity. }
  split; [exact Hnum|].
  exact (proj1 (proj2 (X22_form_fields_follow_widgets doc_two_forms Hnum))).
Defined.

(** * The title *)

Section TitleFacts.
Context {U : UnicodeData}.


End TitleFacts.



(** * Numbered lines *)

Section TraceFacts.
Context {U : UnicodeData}.

(** A successful run consumed a word and recorded captures as the
    pattern says, anchors included, and handed the cursor behind the word
    to the continuation. *)
Lemma run_trace (r : regex) : forall c k m,
  run r c k = Some m ->
  exists w rest new,
    ahead c = w ++ rest /\ trace r (seen c) w rest new /\
    k (Cursor (reverse w ++ seen c) rest (map (app (reverse w)) (opened c))
              (new ++ caps c)) = Some m.
Proof.
  induction r as [|p|p|r1 IH1 r2 IH2|r1 IH1 r2 IH2|n r1 IH1| | | | |r1 IH1];
    intros [sn ah op cp] k m Hrun; cbn [run seen ahead opened caps] in Hrun.
  - exists [], ah, []. rewrite map_id. by repeat split.
  - destruct ah as [|x ah]; [done|]. destruct (p x) eqn:Hx; [|done].
    exists [x], ah, []. split; [done|]. split; [|done]. split; [by exists x|done].
  - apply rep_greedy_inv_opened in Hrun as (w & ah' & -> & Hw & Hk).
    exists w, ah', []. by repeat split.
  - apply IH1 in Hrun as (w1 & rest1 & new1 & Hah & Hs1 & Hrun).
    apply IH2 in Hrun as (w2 & rest & new2 & Hrest & Hs2 & Hk).
    cbn [seen ahead opened caps] in *. subst.
    exists (w1 ++ w2), rest, (new2 ++ new1).
    split; [by rewrite <- app_assoc|]. split; [by exists w1, w2, new1, new2|].
    rewrite reverse_app, <- !app_assoc. rewrite map_map in Hk.
    erewrite map_ext; [exact Hk|]. intros g. by rewrite <- app_assoc.
  - destruct (run r1 _ k) as [m'|] eqn:H1.
    + inversion Hrun; subst. apply IH1 in H1 as (w & rest & new & ? & ? & ?).
      exists w, rest, new. cbn [trace]. auto.
    + apply IH2 in Hrun as (w & rest & new & ? & ? & ?).
      exists w, rest, new. cbn [trace]. auto.
  - apply IH1 in Hrun as (w & rest & new & Hah & Hs & Hk).
    cbn [seen ahead opened caps map] in *. rewrite app_nil_r, reverse_involutive in Hk.
    exists w, rest, ((n, w) :: new). split; [done|]. split; [by exists new|done].
  - destruct sn; [|done]. exists [], ah, []. rewrite map_id. by repeat split.
  - assert (H : k (Cursor sn ah op cp) = Some m /\ at_line_start sn).
    { destruct sn as [|x sn]; [split; [done|by left]|].
      destruct (Z.eqb_spec x NL) as [->|]; [|done]. split; [done|]. right. by eexists. }
    destruct H as [H Hsn]. exists [], ah, []. rewrite map_id. by repeat split.
  - assert (H : k (Cursor sn ah op cp) = Some m /\ at_line_end ah).
    { destruct ah as [|x ah]; [split; [done|by left]|].
      destruct (Z.eqb_spec x NL) as [->|]; [|done]. split; [done|]. right. by eexists. }
    destruct H as [H Hah]. exists [], ah, []. rewrite map_id. by repeat split.
  - destruct (at_word_boundary _); [|done]. exists [], ah, []. rewrite map_id.
    by repeat split.
  - destruct (run r1 _ Some); [done|]. exists [], ah, []. rewrite map_id. by repeat split.
Qed.

Lemma match_here_trace (r : regex) sn ah m :
  match_here r sn ah = Some m ->
  exists w, ah = w ++ ahead m /\ trace r sn w (ahead m) (caps m).
Proof.
  intros (w & rest & new & Hah & Ht & [= <-])%run_trace. cbn in *.
  exists w. by rewrite app_nil_r.
Qed.

(** The parts of a candidate: it starts at a line start and ends at a line
    end; between them come white space, the numeral (group 1), white space
    and the label (group 2), which stays on one line. *)
Lemma field_match_parts sn ah m :
  match_here field_pattern sn ah = Some m ->
  at_line_start sn /\ at_line_end (ahead m) /\
  exists ws0 num p ws1 lab,
    ah = ws0 ++ num ++ [p] ++ ws1 ++ lab ++ ahead m /\
    Forall (fun x => re_space x = true) ws0 /\
    num <> [] /\ Forall (fun x => uni_N x = true) num /\
    (p = 46 \/ p = 41) /\
    ws1 <> [] /\ Forall (fun x => re_space x = true) ws1 /\
    lab <> [] /\ Forall (fun x => dot_class x = true) lab /\
    group 1 m = num ++ [p] /\ group 2 m = lab.
Proof.
  intros (w & Hah & Ht)%match_here_trace. unfold group.
  destruct m as [msn rest mop new]. cbn [ahead caps] in *.
  unfold field_pattern, cat_all in Ht. cbn [foldr trace Plus] in Ht.
  destruct Ht as (? & x1 & ? & nx1 & -> & -> & (-> & -> & Hsn) & Ht).
  destruct Ht as (? & x2 & ? & nx2 & -> & -> & (-> & ->) & Ht).
  destruct Ht as (ws0 & x3 & ? & nx3 & -> & -> & (Hws0 & ->) & Ht).
  destruct Ht as (g1 & x4 & ? & nx4 & -> & -> & Hg1 & Ht).
  destruct Hg1 as (? & -> & wn & wp & ? & ? & -> & -> & Hn & (p & -> & Hp) & ->).
  destruct Hn as (? & num' & ? & ? & -> & -> & ((n1 & -> & Hn1) & ->) & Hnum' & ->).
  destruct Ht as (wg & x5 & ? & nx5 & -> & -> & Hg & Ht).
  destruct Hg as (? & ws1' & ? & ? & -> & -> & ((s1 & -> & Hs1) & ->) & Hws1' & ->).
  destruct Ht as (g2 & x6 & ? & nx6 & -> & -> & Hg2 & Ht).
  destruct Hg2 as (? & -> & ? & lab' & ? & ? & -> & -> & ((d1 & -> & Hd1) & ->) & Hlab' & ->).
  destruct Ht as (? & ? & ? & ? & -> & -> & (-> & -> & Hrest) & -> & ->).
  cbn [app] in *. split; [done|]. split; [done|].
  exists ws0, (n1 :: num'), p, (s1 :: ws1'), (d1 :: lab').
  rewrite !app_nil_r in Hah. split.
  { rewrite Hah. repeat (rewrite <- app_assoc; cbn [app]). reflexivity. }
  split; [done|]. split; [done|]. split; [by constructor|]. split.
  { apply orb_true_iff in Hp as [?%Z.eqb_eq|?%Z.eqb_eq]; auto. }
  split; [done|]. split; [by constructor|]. split; [done|].
  split; [by constructor|]. split; reflexivity.
Qed.
End TraceFacts.

(** ** Where a candidate can end *)

Lemma suffix_break (u : str) : forall a k : str,
  a ++ [NL] = u ++ k -> k <> [] -> NL ∈ k.
Proof.
  induction u as [|x u IH]; intros a k Heq Hk.
  - cbn in Heq. subst k. apply elem_of_app. right. by apply elem_of_cons; left.
  - destruct a as [|y a]; cbn in Heq.
    + inversion Heq as [[Hx Hnil]]. symmetry in Hnil.
      apply app_eq_nil in Hnil as [_ ?]. done.
    + inversion Heq. by eapply IH.
Qed.

(** A text splits in one way only into a stretch without line break and a
    rest that starts a new line or is empty. *)
Lemma line_split_unique (l1 : str) : forall l2 r1 r2 : str,
  l1 ++ r1 = l2 ++ r2 -> (NL ∉ l1) -> (NL ∉ l2) ->
  at_line_end r1 -> at_line_end r2 -> l1 = l2 /\ r1 = r2.
Proof.
  induction l1 as [|x l1 IH]; intros l2 r1 r2 Heq H1 H2 Hr1 Hr2.
  - cbn in Heq. destruct l2 as [|y l2]; [done|]. exfalso.
    destruct Hr1 as [->|[q ->]]; [done|]. inversion Heq; subst.
    apply H2. by apply elem_of_cons; left.
  - apply not_elem_of_cons in H1 as [Hx H1]. destruct l2 as [|y l2].
    + exfalso. cbn in Heq. destruct Hr2 as [->|[q ->]]; [done|].
      inversion Heq; subst. done.
    + apply not_elem_of_cons in H2 as [Hy H2]. inversion Heq; subst.
      destruct (IH l2 r1 r2) as [-> ->]; done.
Qed.

Lemma spaces_stop (ws x : str) (c : Z) (y : str) :
  Forall (fun x => re_space x = true) ws -> re_space c = false ->
  ws ++ x = c :: y -> ws = [] /\ x = c :: y.
Proof.
  intros Hws Hc Heq. destruct ws as [|s ws]; [done|]. exfalso.
  inversion Heq; subst. apply Forall_cons in Hws as [Hs _]. congruence.
Qed.

Lemma no_break_dots (lab : str) :
  Forall (fun x => dot_class x = true) lab -> NL ∉ lab.
Proof.
  intros Hlab Hin. rewrite Forall_forall in Hlab. by specialize (Hlab _ Hin).
Qed.

Lemma wanted_line_parts : wanted_line = [51; 46; 32] ++ lit "Enter your name".
Proof. reflexivity. Qed.

Lemma wanted_line_head : exists t, wanted_line = 51 :: t.
Proof. by eexists. Qed.

Lemma wanted_label_head : exists t, lit "Enter your name" = 69 :: t.
Proof. by eexists. Qed.

Lemma wanted_line_no_break : NL ∉ wanted_line.
Proof. apply (bool_decide_unpack _). vm_compute. exact I. Qed.

Lemma wanted_label_no_break : NL ∉ lit "Enter your name".
Proof. apply (bool_decide_unpack _). vm_compute. exact I. Qed.

Section LineFacts.
Context {U : UnicodeData}.

Lemma ends_at_line_start_reverse (sn : str) :
  at_line_start sn -> ends_at_line_start (reverse sn).
Proof.
  intros [->|[q ->]]; [by left|]. right. exists (reverse q). by rewrite reverse_cons.
Qed.

(** A line made of one number character, a closing character, one white
    space and a label is read by the pattern in one way only. *)
Lemma line_parts_unique (num : str) (p : Z) (ws1 lab rest : str)
    (n0 p0 s0 : Z) (E post : str) :
  num ++ [p] ++ ws1 ++ lab ++ rest = [n0; p0; s0] ++ E ++ post ->
  num <> [] -> Forall (fun x => uni_N x = true) num -> uni_N p0 = false ->
  ws1 <> [] -> Forall (fun x => re_space x = true) ws1 ->
  (exists c t, E = c :: t /\ re_space c = false) -> (NL ∉ E) ->
  Forall (fun x => dot_class x = true) lab ->
  at_line_end post -> at_line_end rest ->
  num = [n0] /\ p = p0 /\ lab = E /\ rest = post.
Proof.
  intros Heq Hnum HN Hp0 Hws1 Hsp (c & t & -> & Hc) HE Hlab Hpost Hrest.
  destruct num as [|n1 num]; [done|]. cbn [app] in Heq.
  injection Heq as -> Heq.
  destruct num as [|n2 num].
  2:{ exfalso. cbn [app] in Heq. injection Heq as -> _.
      apply Forall_cons in HN as [_ HN]. apply Forall_cons in HN as [HN _]. congruence. }
  cbn [app] in Heq. injection Heq as -> Heq.
  destruct ws1 as [|s1 ws1]; [done|]. cbn [app] in Heq. injection Heq as -> Heq.
  apply Forall_cons in Hsp as [_ Hsp].
  apply spaces_stop in Heq as [-> Heq]; [|done..].
  rewrite app_comm_cons in Heq.
  apply line_split_unique in Heq as [-> ->]; [done|by apply no_break_dots|done..].
Qed.

(** The candidate that starts with the wanted line's numeral is the wanted
    field. *)
Lemma numeral_of_wanted_line (m : cursor) (num : str) (p : Z) (ws1 lab rest post : str) :
  at_line_end post -> at_line_end rest ->
  num ++ [p] ++ ws1 ++ lab ++ rest = wanted_line ++ post ->
  num <> [] -> Forall (fun x => uni_N x = true) num ->
  ws1 <> [] -> Forall (fun x => re_space x = true) ws1 ->
  Forall (fun x => dot_class x = true) lab ->
  group 1 m = num ++ [p] -> group 2 m = lab ->
  field_of_match m = Some wanted_field.
Proof.
  intros Hpost Hrest Heq Hnum HN Hws1 Hsp Hlab Hg1 Hg2.
  rewrite wanted_line_parts, <- app_assoc in Heq.
  apply line_parts_unique in Heq as (-> & -> & -> & ->);
    [|done|done|reflexivity|done|done| |apply wanted_label_no_break|done..].
  2:{ destruct wanted_label_head as [t Ht]. by exists 69, t. }
  unfold field_of_match. rewrite Hg1, Hg2. vm_compute. reflexivity.
Qed.

(** An attempt made before the wanted line ends before that line, or is
    the wanted field (its leading white space reached the line), or takes
    the whole line as the label of a numeral standing alone before it. *)
Lemma field_match_at_line (sn b post : str) (m : cursor) :
  (exists a, b = a ++ [NL]) -> at_line_end post ->
  match_here field_pattern sn (b ++ wanted_line ++ post) = Some m ->
  (length (wanted_line ++ post) <= length (ahead m))%nat \/
  field_of_match m = Some wanted_field \/
  (ahead m = post /\ group 2 m = wanted_line /\ numeral_alone_before (reverse sn ++ b)).
Proof.
  intros [a0 Hb] Hpost Hm.
  destruct (field_match_parts _ _ _ Hm)
    as (Hsn & Hrest & ws0 & num & p & ws1 & lab & Heq & Hws0 & Hnum & HN & Hp
        & Hws1 & Hsp & Hlab & Hdots & Hg1 & Hg2).
  assert (Hgood : num ++ [p] ++ ws1 ++ lab ++ ahead m = wanted_line ++ post ->
                  field_of_match m = Some wanted_field).
  { intros Hline. by eapply (numeral_of_wanted_line m num p ws1 lab (ahead m) post). }
  assert (Hthree : forall k t : str,
            Forall (fun x => re_space x = true) k -> wanted_line ++ post = k ++ t -> k = []).
  { intros k t Hk Hline. symmetry in Hline.
    destruct wanted_line_head as [t3 Ht3]. rewrite Ht3 in Hline. cbn [app] in Hline.
    by apply spaces_stop in Hline as [-> _]. }
  assert (Hhead : forall t : str, p :: t = wanted_line ++ post -> False).
  { intros t Hline. destruct wanted_line_head as [t3 Ht3]. rewrite Ht3 in Hline.
    cbn [app] in Hline. injection Hline as -> _. by destruct Hp. }
  assert (Hlabel : lab ++ ahead m = wanted_line ++ post ->
                   ahead m = post /\ lab = wanted_line).
  { intros Hl. apply line_split_unique in Hl as [Hl1 Hl2];
      [done|by apply no_break_dots|apply wanted_line_no_break|done..]. }
  clear Hm. remember (wanted_line ++ post) as L eqn:HL. clear HL.
  assert (Habsorbed : b = ws0 ++ num ++ [p] ++ ws1 -> lab ++ ahead m = L ->
            ahead m = post /\ group 2 m = wanted_line /\
            numeral_alone_before (reverse sn ++ b)).
  { intros Hparts [Hl1 Hl2]%Hlabel.
    split; [done|]. split; [by rewrite Hg2|].
    exists (reverse sn), ws0, num, p, ws1. split; [by rewrite Hparts|].
    split; [by apply ends_at_line_start_reverse|]. done. }
  symmetry in Heq. apply app_eq_inv in Heq as [(k & Hws & Hline)|(k & Hbk & Hline)].
  { (* the leading white space reaches the line *)
    right; left. apply Hgood.
    assert (k = []) as ->.
    { apply (Hthree k _) in Hline; [done|]. rewrite Hws in Hws0.
      by apply Forall_app in Hws0 as [_ ?]. }
    by rewrite Hline. }
  destruct (decide (k = [])) as [->|Hkne]; [right; left; apply Hgood; by rewrite Hline|].
  assert (Hk : NL ∈ k) by (apply (suffix_break ws0 a0 k); [by rewrite <- Hb|done]).
  apply app_eq_inv in Hline as [(k2 & Hnumk & _)|(k2 & Hk2 & Hline)].
  { exfalso. rewrite Hnumk in HN. apply Forall_app in HN as [HN _].
    rewrite Forall_forall in HN. specialize (HN _ Hk). done. }
  destruct k2 as [|p' k3].
  { exfalso. by apply (Hhead (ws1 ++ lab ++ ahead m)). }
  cbn [app] in Hline. injection Hline as <- Hline.
  apply app_eq_inv in Hline as [(k4 & Hws & Hline)|(k4 & Hk3 & Hline)].
  { right; right.
    assert (k4 = []) as ->.
    { apply (Hthree k4 _) in Hline; [done|]. rewrite Hws in Hsp.
      by apply Forall_app in Hsp as [_ ?]. }
    rewrite app_nil_r in Hws. subst k3. apply Habsorbed; [|done].
    by rewrite Hbk, Hk2. }
  destruct (decide (k4 = [])) as [->|Hk4ne].
  { right; right. rewrite app_nil_r in Hk3. subst k3. apply Habsorbed; [|done].
    by rewrite Hbk, Hk2. }
  assert (Hk4 : NL ∈ k4).
  { apply (suffix_break (ws0 ++ num ++ [p] ++ ws1) a0 k4); [|done].
    rewrite <- Hb, Hbk, Hk2, Hk3.
    repeat (rewrite <- app_assoc; cbn [app]). reflexivity. }
  apply app_eq_inv in Hline as [(k5 & Hlabk & _)|(k5 & _ & Hline)].
  { exfalso. apply (no_break_dots lab Hdots). rewrite Hlabk.
    apply elem_of_app. by left. }
  left. rewrite Hline, length_app. lia.
Qed.
End LineFacts.

Section LineScan.
Context {U : UnicodeData}.

(** Scanning up to the wanted line: a candidate found on the way is the
    wanted field, or the scan arrives at the line and finds it there, or a
    numeral standing alone before the line takes the line as its label. *)
Lemma finditer_line (post : str) :
  at_line_end post ->
  forall b sn skip,
    (skip <= length b)%nat ->
    (b = [] -> at_line_start sn) ->
    (b <> [] -> exists a, b = a ++ [NL]) ->
    (exists m, m ∈ finditer_from field_pattern skip sn (b ++ wanted_line ++ post) /\
               field_of_match m = Some wanted_field) \/
    (numeral_alone_before (reverse sn ++ b) /\
     exists m, m ∈ finditer_from field_pattern skip sn (b ++ wanted_line ++ post) /\
               ahead m = post /\ group 2 m = wanted_line).
Proof.
  intros Hpost. induction b as [|x b IH]; intros sn skip Hskip Hnil Hlast.
  - cbn [length] in Hskip. replace skip with 0%nat by lia. left.
    destruct (wanted_line_matches sn post) as (m & Hm & Hf); [by apply Hnil|done|].
    apply finditer_from_hit in Hm as [ms Hms]. exists m. cbn [app]. rewrite Hms.
    split; [by apply elem_of_cons; left|done].
  - destruct (Hlast ltac:(done)) as [a Ha].
    assert (Hnil' : b = [] -> at_line_start (x :: sn)).
    { intros ->. destruct a as [|y a]; [|by destruct a].
      injection Ha as ->. right. by eexists. }
    assert (Hlast' : b <> [] -> exists a', b = a' ++ [NL]).
    { intros Hb. destruct a as [|y a]; [injection Ha as _ ->; done|].
      injection Ha as _ ->. by exists a. }
    assert (Hstep : forall skip',
              (skip' <= length b)%nat ->
              (exists m, m ∈ finditer_from field_pattern skip' (x :: sn)
                                (b ++ wanted_line ++ post) /\
                         field_of_match m = Some wanted_field) \/
              (numeral_alone_before (reverse sn ++ x :: b) /\
               exists m, m ∈ finditer_from field_pattern skip' (x :: sn)
                                (b ++ wanted_line ++ post) /\
                         ahead m = post /\ group 2 m = wanted_line)).
    { intros skip' Hs. destruct (IH (x :: sn) skip' Hs Hnil' Hlast') as [?|[Hn ?]]; [by left|].
      right. split; [|done]. by rewrite reverse_cons, <- app_assoc in Hn. }
    cbn [app]. destruct skip as [|skip]; cbn [finditer_from].
    + destruct (match_here field_pattern sn (x :: b ++ wanted_line ++ post))
        as [m|] eqn:Hm; [|by apply Hstep; lia].
      destruct (field_match_at_line sn (x :: b) post m) as [Hstay|[Hgood|Htaken]];
        [by exists a|done|exact Hm| | |].
      * destruct (Hstep (length (x :: b ++ wanted_line ++ post)
                         - length (ahead m) - 1)%nat)
          as [(m' & Hin & Hf)|(Hn & m' & Hin & Hm')].
        { cbn [length]. rewrite length_app. lia. }
        { left. exists m'. split; [by apply elem_of_cons; right|done]. }
        { right. split; [done|]. exists m'. split; [by apply elem_of_cons; right|done]. }
      * left. exists m. split; [by apply elem_of_cons; left|done].
      * destruct Htaken as (Ha1 & Ha2 & Hn). right. split; [done|].
        exists m. split; [by apply elem_of_cons; left|done].
    + cbn [length] in Hskip. apply Hstep. lia.
Qed.

(** A numeral standing alone before the line shows at the end of the
    text: behind its trailing white space come "." or ")" and, before
    that, a number character. *)
Lemma numeral_alone_before_tail (pre : str) :
  numeral_alone_before pre ->
  exists p n t,
    lstrip (reverse pre) = p :: n :: t /\ (p = 46 \/ p = 41) /\ uni_N n = true.
Proof.
  intros (a & ws0 & num & p & ws1 & -> & _ & _ & Hnum & HN & Hp & _ & Hsp).
  destruct (reverse num) as [|n t] eqn:Hrev.
  { apply (f_equal reverse) in Hrev. rewrite reverse_involutive in Hrev. done. }
  exists p, n, (t ++ reverse ws0 ++ reverse a).
  rewrite !reverse_app, reverse_singleton, <- !app_assoc, Hrev. cbn [app].
  rewrite lstrip_spaces.
  2:{ apply Forall_forall. intros c Hc. rewrite elem_of_reverse in Hc.
      rewrite Forall_forall in Hsp. by apply re_space_py, Hsp. }
  split.
  - cbn [lstrip]. assert (py_isspace p = false) as ->; [|done].
    by destruct Hp as [-> | ->].
  - split; [done|]. rewrite Forall_forall in HN. apply HN.
    apply elem_of_reverse. rewrite Hrev. by apply elem_of_cons; left.
Qed.
End LineScan.

(** C6, amended: the line "3. Enter your name", wherever it stands in the
    text, gives the field numbered 3 with the label "Enter your name",
    unless a candidate found before it takes the whole line as its label,
    which needs a numeral standing alone on the text just before the line
    (after a line start and white space only, with white space only up to
    the line).  On a line "Appendix 3. Notes" no attempt succeeds, so the
    scan passes it without a candidate. *)
Theorem C6_numbered_line_field {U : UnicodeData} (pre post : str) :
  ends_at_line_start pre -> at_line_end post ->
  (wanted_field ∈ extract_static_form_fields (pre ++ wanted_line ++ post) \/
   (numeral_alone_before pre /\
    exists m, m ∈ finditer field_pattern (pre ++ wanted_line ++ post) /\
              ahead m = post /\ group 2 m = wanted_line)) /\
  (~ numeral_alone_before pre ->
   wanted_field ∈ extract_static_form_fields (pre ++ wanted_line ++ post)) /\
  (exists fields, extract_static_form_fields (wanted_line ++ post) = wanted_field :: fields) /\
  extract_static_form_fields wanted_line = [wanted_field] /\
  extract_static_form_fields appendix_line = [] /\
  (forall sn n, at_line_start sn ->
     match_here field_pattern (reverse (take n appendix_line) ++ sn)
                (drop n appendix_line ++ post) = None) /\
  (forall sn, at_line_start sn ->
     finditer_from field_pattern 0 sn (appendix_line ++ post) =
     finditer_from field_pattern 0 (reverse appendix_line ++ sn) post).
Proof.
  intros Hpre Hpost.
  assert (Hscan :
    wanted_field ∈ extract_static_form_fields (pre ++ wanted_line ++ post) \/
    (numeral_alone_before pre /\
     exists m, m ∈ finditer field_pattern (pre ++ wanted_line ++ post) /\
               ahead m = post /\ group 2 m = wanted_line)).
  { destruct (finditer_line post Hpost pre [] 0) as [(m & Hin & Hf)|Htaken].
    - lia.
    - intros _. by left.
    - intros Hne. by destruct Hpre.
    - left. apply list_elem_of_omap. by exists m.
    - right. exact Htaken. }
  split; [exact Hscan|]. split; [by destruct Hscan as [?|[? _]]|].
  split.
  { destruct (wanted_line_matches [] post) as (m & Hm & Hf); [by left|done|].
    apply finditer_from_hit in Hm as [ms Hms].
    unfold extract_static_form_fields, finditer. rewrite Hms.
    cbn [omap list_omap]. rewrite Hf. by eexists. }
  split; [vm_compute; reflexivity|]. split; [vm_compute; reflexivity|]. split.
  - intros sn n Hsn. by apply appendix_line_no_match.
  - intros sn Hsn. apply finditer_passes. intros n. by apply appendix_line_no_match.
Qed.

Lemma C6_witness :
  ends_at_line_start PROMPT /\ at_line_end [] /\
  wanted_field ∈ extract_static_form_fields (U:=latin1) (PROMPT ++ wanted_line ++ []).
Proof.
  assert (H1 : ends_at_line_start PROMPT) by (right; by exists (lit "Fill in.")).
  assert (H2 : at_line_end []) by (by left).
  split; [exact H1|]. split; [exact H2|].
  destruct (C6_numbered_line_field (U:=latin1) PROMPT [] H1 H2) as (_ & Hfield & _).
  apply Hfield. intros (p & n & t & Htail & _ & Hn)%numeral_alone_before_tail.
  vm_compute in Htail. injection Htail as _ <- _. vm_compute in Hn. discriminate.
Defined.

(** A numeral alone before the line does not always take it: here the
    first numeral takes the second as its label, and the scan arrives at
    the wanted line. *)
Example second_numeral_spares_the_line :
  extract_static_form_fields (U:=latin1) (lit "1." ++ [NL] ++ lit "2." ++ [NL] ++ wanted_line) =
    [ {| field_number := 1; label := lit "2." |}; wanted_field ].
Proof. vm_compute. reflexivity. Qed.
